(** * openforcefield: the molecular data model and the toolkit registry

    A shallow embedding of [openforcefield/topology/molecule.py] and of
    [ToolkitRegistry] from [openforcefield/utils/toolkits.py].

    Python objects are mutable; a method of [FrozenMolecule] is embedded as
    a function from the molecule before the call to an outcome (a returned
    value or a raised exception) paired with the molecule after the call, so
    that what a failing call leaves behind can be stated.

    Atoms, bonds and virtual sites are never removed from a molecule, so an
    [Atom] object is identified with its position in the molecule's atom
    list ([Atom.molecule_atom_index]); bonds and virtual sites refer to
    their atoms by that position.  Atoms that belong to another molecule
    are outside the model: the atom arguments of the mutation primitives
    are the integer indices the source also accepts. *)

From Stdlib Require Import String Ascii ZArith Bool Arith Lia List Permutation.
From Stdlib Require Import DecimalString.
Import ListNotations.

Set Implicit Arguments.

Local Open Scope string_scope.
Local Open Scope list_scope.

(** ** Exceptions and outcomes *)

Inductive exn : Type :=
| AssertionError
| AttributeError
| IndexError (msg : string)
| KeyError
| TypeError (msg : string)
| ValueError (msg : string)
| NotImplementedError (msg : string)
| Exception (msg : string).

Inductive outcome (A : Type) : Type :=
| Return (a : A)
| Raise (e : exn).

Arguments Return {A} a.
Arguments Raise {A} e.

Definition returned {A} (o : outcome A) : bool :=
  match o with Return _ => true | Raise _ => false end.

Definition raised {A} (o : outcome A) : bool := negb (returned o).

(** A method running on a mutable object of type [S]. *)
Definition method (S A : Type) : Type := S -> outcome A * S.

Definition ret {S A} (a : A) : method S A := fun s => (Return a, s).

Definition raise {S A} (e : exn) : method S A := fun s => (Raise e, s).

Definition bind {S A B} (m : method S A) (k : A -> method S B) : method S B :=
  fun s => match m s with
           | (Return a, s') => k a s'
           | (Raise e, s') => (Raise e, s')
           end.

Definition get {S} : method S S := fun s => (Return s, s).

Definition modify {S} (f : S -> S) : method S unit := fun s => (Return tt, f s).

Declare Scope method_scope.
Delimit Scope method_scope with method.

Notation "x <- c1 ;; c2" := (bind c1 (fun x => c2))
  (at level 61, c1 at next level, right associativity) : method_scope.
Notation "c1 ;; c2" := (bind c1 (fun _ => c2))
  (at level 61, right associativity) : method_scope.

Local Open Scope method_scope.

(** [assert cond]. *)
Definition assert {S} (cond : bool) : method S unit :=
  if cond then ret tt else raise AssertionError.

(** [for x in xs: body(x)]. *)
Fixpoint for_each {S A} (xs : list A) (body : A -> method S unit) : method S unit :=
  match xs with
  | [] => ret tt
  | x :: xs' => body x ;; for_each xs' body
  end.

(** ** Python lists *)

(** [l[i]] for a Python [int] [i]: negative indices count from the end. *)
Definition py_position (n : nat) (i : Z) : option nat :=
  if (0 <=? i)%Z then
    if (i <? Z.of_nat n)%Z then Some (Z.to_nat i) else None
  else
    if (- Z.of_nat n <=? i)%Z then Some (Z.to_nat (Z.of_nat n + i)) else None.

Definition py_getitem {A} (l : list A) (i : Z) : option A :=
  match py_position (length l) i with
  | Some p => nth_error l p
  | None => None
  end.

(** In-place update of the object at position [p]. *)
Fixpoint update_nth {A} (p : nat) (f : A -> A) (l : list A) : list A :=
  match l, p with
  | [], _ => []
  | x :: l', O => f x :: l'
  | x :: l', S p' => x :: update_nth p' f l'
  end.

(** A Python [set] of hashable values, kept as a list without duplicates;
    the iteration order of a [set] is unspecified and no definition below
    depends on it beyond the resulting set. *)
Section PySet.
Variable A : Type.
Variable eqb : A -> A -> bool.

Definition set_mem (x : A) (s : list A) : bool := existsb (eqb x) s.

Definition set_add (x : A) (s : list A) : list A :=
  if set_mem x s then s else s ++ [x].

Definition set_union (s t : list A) : list A :=
  fold_left (fun acc x => set_add x acc) t s.
End PySet.

(** A Python [dict]: the items in insertion order, each key once. *)
Section PyDict.
Variables K V : Type.
Variable eqb : K -> K -> bool.

(** [d[key]]; [None] where Python raises [KeyError]. *)
Fixpoint dict_getitem (key : K) (d : list (K * V)) : option V :=
  match d with
  | [] => None
  | (k, v) :: d' => if eqb k key then Some v else dict_getitem key d'
  end.

(** [d[key] = value]: an existing key keeps its place. *)
Fixpoint dict_setitem (key : K) (value : V) (d : list (K * V)) : list (K * V) :=
  match d with
  | [] => [(key, value)]
  | (k, v) :: d' =>
      if eqb k key then (k, value) :: d' else (k, v) :: dict_setitem key value d'
  end.

(** [d.pop(key)] on a key that is present: the dictionary without it. *)
Fixpoint dict_remove (key : K) (d : list (K * V)) : list (K * V) :=
  match d with
  | [] => []
  | (k, v) :: d' => if eqb k key then d' else (k, v) :: dict_remove key d'
  end.

(** [dict(items)]: a later item replaces the value of an earlier equal key. *)
Definition dict_of_items (items : list (K * V)) : list (K * V) :=
  fold_left (fun d kv => dict_setitem (fst kv) (snd kv) d) items [].
End PyDict.

(** [sorted(xs)] for a total order [leb]: a stable insertion sort. *)
Section Sorted.
Variable A : Type.
Variable leb : A -> A -> bool.

Fixpoint insert_sorted (x : A) (l : list A) : list A :=
  match l with
  | [] => [x]
  | y :: l' => if leb x y then x :: l else y :: insert_sorted x l'
  end.

Definition sorted (l : list A) : list A := fold_right insert_sorted [] l.
End Sorted.

(** ** Numbers, arrays and quantities with units *)

(** A Python [float] (numpy [float64]), as its IEEE-754 binary64 bit
    pattern.  The embedding never computes with floats: the arithmetic the
    source delegates to [simtk.unit] and to Python is taken as a parameter
    ([Externals] below). *)
Definition float : Type := Z.

(** [0.0], the fill value of [numpy.zeros]. *)
Definition float_zero : float := 0%Z.

(** A numpy array: its shape and its elements in row-major order.  A scalar
    has the empty shape. *)
Record ndarray : Type := {
  shape : list nat;
  data : list float
}.

Definition zeros (shp : list nat) : ndarray :=
  {| shape := shp; data := repeat float_zero (fold_right Nat.mul 1 shp) |}.

Definition scalar (x : float) : ndarray := {| shape := []; data := [x] |}.

Definition map_array (f : float -> float) (a : ndarray) : ndarray :=
  {| shape := shape a; data := map f (data a) |}.

Definition shape_eqb (s t : list nat) : bool :=
  if list_eq_dec Nat.eq_dec s t then true else false.

(** The number of floats in one item [a[i]] of an array of shape [shp]. *)
Definition item_size (shp : list nat) : nat := fold_right Nat.mul 1 (tl shp).

(** [a[i]] for an integer [i]; [None] where numpy raises [IndexError]. *)
Definition array_getitem (a : ndarray) (i : Z) : option ndarray :=
  match shape a with
  | [] => None
  | n :: rest =>
      match py_position n i with
      | Some p =>
          Some {| shape := rest;
                  data := firstn (item_size (shape a))
                                 (skipn (p * item_size (shape a)) (data a)) |}
      | None => None
      end
  end.

(** [a[i] = item] for [0 <= i < len(a)] and an item of the shape of [a[i]]. *)
Definition array_setitem (i : nat) (item : ndarray) (a : ndarray) : ndarray :=
  {| shape := shape a;
     data := firstn (i * item_size (shape a)) (data a)
             ++ data item
             ++ skipn ((i + 1) * item_size (shape a)) (data a) |}.

(** The units of [simtk.unit] the molecule code names, and two more of each
    dimension that callers may pass. *)
Inductive unit_t : Type :=
| angstrom | nanometer
| degree | radian
| kilojoule_per_mole | kilocalorie_per_mole
| elementary_charge | coulomb.

Inductive dimension : Type := Length | Angle | Energy | Charge.

Definition dimension_of (u : unit_t) : dimension :=
  match u with
  | angstrom | nanometer => Length
  | degree | radian => Angle
  | kilojoule_per_mole | kilocalorie_per_mole => Energy
  | elementary_charge | coulomb => Charge
  end.

Definition dimension_eqb (d e : dimension) : bool :=
  match d, e with
  | Length, Length | Angle, Angle | Energy, Energy | Charge, Charge => true
  | _, _ => false
  end.

(** [u.is_compatible(v)]. *)
Definition is_compatible (u v : unit_t) : bool :=
  dimension_eqb (dimension_of u) (dimension_of v).

(** [getattr(simtk.unit, name)] for the two names [to_dict] writes. *)
Definition unit_of_name (name : string) : option unit_t :=
  if String.eqb name "angstrom" then Some angstrom
  else if String.eqb name "elementary_charge" then Some elementary_charge
  else None.

(** A [simtk.unit.Quantity]. *)
Record Quantity : Type := {
  q_value : ndarray;
  q_unit : unit_t
}.

(** A numeric argument as a caller passes it: with or without a [unit]
    attribute. *)
Inductive pynum : Type :=
| Plain (a : ndarray)
| WithUnit (q : Quantity).

Definition pynum_shape (x : pynum) : list nat :=
  match x with
  | Plain a => shape a
  | WithUnit q => shape (q_value q)
  end.

(** ** What the molecule code imports from outside this file *)

(** The functions [molecule.py] calls in [simtk.unit],
    [simtk.openmm.app.element] and [openforcefield.utils]; they are
    parameters of the embedding. *)
Class Externals : Type := {
  (** the value of a quantity in unit [v], given its value in unit [u] *)
  conversion : unit_t -> unit_t -> float -> float;
  (** [(2. * rmin_half) / (2.**(1. / 6))] on one float *)
  sigma_of_rmin_half : float -> float;
  (** the Python [str] that [quantity_to_string] writes, and its parser *)
  quantity_str : Type;
  print_quantity : Quantity -> quantity_str;
  parse_quantity : quantity_str -> pynum;
  (** the [bytes] buffer of [serialize_numpy], with the array's shape *)
  buffer : Type;
  serialize_numpy : ndarray -> buffer * list nat;
  deserialize_numpy : buffer -> list nat -> ndarray;
  (** [Element.getByAtomicNumber(n).symbol]; [None] where the lookup raises *)
  element_symbol : Z -> option string
}.

(** What the round trip through the dictionary representation relies on. *)
Class ExternalsOk (E : Externals) : Prop := {
  conversion_same : forall u x, conversion u u x = x;
  parse_print_quantity : forall q, parse_quantity (print_quantity q) = WithUnit q;
  deserialize_serialize :
    forall a, deserialize_numpy (fst (serialize_numpy a)) (shape a) = a
}.

(** ** Atoms, bonds and virtual sites *)

(** [Bond]: its two atoms, by position in the molecule's atom list. *)
Record Bond : Type := {
  atom1 : nat;
  atom2 : nat;
  bond_order : Z;
  bond_is_aromatic : bool;
  fractional_bond_order : option float;
  bond_stereochemistry : option string
}.

(** The four concrete subclasses of [VirtualSite], each with the attributes
    its [__init__] sets. *)
Inductive vsite_geometry : Type :=
| BondChargeVirtualSite (distance : Quantity)
| MonovalentLonePairVirtualSite (distance out_of_plane_angle in_plane_angle : Quantity)
| DivalentLonePairVirtualSite (distance out_of_plane_angle in_plane_angle : Quantity)
| TrivalentLonePairVirtualSite (distance out_of_plane_angle in_plane_angle : Quantity).

Record VirtualSite : Type := {
  vs_atoms : list nat;
  vs_charge_increments : option Quantity;
  vs_epsilon : option Quantity;
  vs_sigma : option Quantity;
  vs_name : option string;
  vs_geometry : vsite_geometry
}.

(** [VirtualSite.type]: the class name. *)
Definition vsite_type (g : vsite_geometry) : string :=
  match g with
  | BondChargeVirtualSite _ => "BondChargeVirtualSite"
  | MonovalentLonePairVirtualSite _ _ _ => "MonovalentLonePairVirtualSite"
  | DivalentLonePairVirtualSite _ _ _ => "DivalentLonePairVirtualSite"
  | TrivalentLonePairVirtualSite _ _ _ => "TrivalentLonePairVirtualSite"
  end.

(** [Atom], with the back-references [_bonds] and [_virtual_sites] that
    [Bond.__init__] and [VirtualSite.__init__] append to. *)
Record Atom : Type := {
  atomic_number : Z;
  formal_charge : Z;
  atom_is_aromatic : bool;
  atom_stereochemistry : option string;
  atom_name : string;
  atom_bonds : list Bond;
  atom_virtual_sites : list VirtualSite
}.

(** [Atom.__init__]. *)
Definition Atom_init (atomic_number formal_charge : Z) (is_aromatic : bool)
    (name : option string) (stereochemistry : option string) : Atom :=
  {| atomic_number := atomic_number;
     formal_charge := formal_charge;
     atom_is_aromatic := is_aromatic;
     atom_stereochemistry := stereochemistry;
     atom_name := match name with None => "" | Some n => n end;
     atom_bonds := [];
     atom_virtual_sites := [] |}.

(** [Atom.add_bond]. *)
Definition Atom_add_bond (bond : Bond) (a : Atom) : Atom :=
  {| atomic_number := atomic_number a;
     formal_charge := formal_charge a;
     atom_is_aromatic := atom_is_aromatic a;
     atom_stereochemistry := atom_stereochemistry a;
     atom_name := atom_name a;
     atom_bonds := atom_bonds a ++ [bond];
     atom_virtual_sites := atom_virtual_sites a |}.

(** [Atom.add_virtual_site]. *)
Definition Atom_add_virtual_site (vsite : VirtualSite) (a : Atom) : Atom :=
  {| atomic_number := atomic_number a;
     formal_charge := formal_charge a;
     atom_is_aromatic := atom_is_aromatic a;
     atom_stereochemistry := atom_stereochemistry a;
     atom_name := atom_name a;
     atom_bonds := atom_bonds a;
     atom_virtual_sites := atom_virtual_sites a ++ [vsite] |}.

(** [Atom.is_bonded_to]: [self] is an atom object, [self_index] its
    position and [other] the position of [atom2]; atoms are compared
    by identity. *)
Definition is_bonded_to (self_index : nat) (self : Atom) (other : nat) : outcome bool :=
  if Nat.eqb self_index other then Raise AssertionError
  else Return (existsb (fun bond => Nat.eqb other (atom1 bond) || Nat.eqb other (atom2 bond))
                       (atom_bonds self)).

(** ** The molecule *)

Definition angle : Type := nat * nat * nat.
Definition torsion : Type := nat * nat * nat * nat.

(** A value of the free-form properties mapping. *)
Inductive pyobject : Type :=
| PyNone
| PyBool (b : bool)
| PyInt (z : Z)
| PyFloat (x : float)
| PyStr (s : string).

(** [FrozenMolecule].  An attribute that [_initialize] does not create is an
    [option] whose [None] says that the attribute is not set ([hasattr] is
    false); [_propers] and [_impropers] can moreover hold Python's [None]. *)
Record Molecule : Type := {
  mol_name : string;
  mol_atoms : list Atom;
  mol_virtual_sites : list VirtualSite;
  mol_bonds : list Bond;
  mol_properties : list (string * pyobject);
  mol_partial_charges : option Quantity;
  mol_conformers : option (list Quantity);
  mol_cached_smiles : option string;
  mol_propers : option (option (list torsion));
  mol_impropers : option (option (list torsion));
  mol_angles : option (list angle);
  mol_torsions : option (list torsion);
  mol_bondedAtoms : option (list (list nat))
}.

(** [Molecule()]: [FrozenMolecule.__init__] with [other=None], that is
    [_cached_smiles = None] and [_initialize()]. *)
Definition new_Molecule : Molecule :=
  {| mol_name := "";
     mol_atoms := [];
     mol_virtual_sites := [];
     mol_bonds := [];
     mol_properties := [];
     mol_partial_charges := None;
     mol_conformers := None;
     mol_cached_smiles := None;
     mol_propers := None;
     mol_impropers := None;
     mol_angles := None;
     mol_torsions := None;
     mol_bondedAtoms := None |}.

Definition n_atoms (self : Molecule) : nat := length (mol_atoms self).
Definition n_virtual_sites (self : Molecule) : nat := length (mol_virtual_sites self).
Definition n_bonds (self : Molecule) : nat := length (mol_bonds self).
Definition n_conformers (self : Molecule) : nat :=
  match mol_conformers self with
  | None => 0
  | Some confs => length confs
  end.

Definition set_atoms (atoms : list Atom) (m : Molecule) : Molecule :=
  {| mol_name := mol_name m; mol_atoms := atoms;
     mol_virtual_sites := mol_virtual_sites m; mol_bonds := mol_bonds m;
     mol_properties := mol_properties m;
     mol_partial_charges := mol_partial_charges m;
     mol_conformers := mol_conformers m;
     mol_cached_smiles := mol_cached_smiles m;
     mol_propers := mol_propers m; mol_impropers := mol_impropers m;
     mol_angles := mol_angles m; mol_torsions := mol_torsions m;
     mol_bondedAtoms := mol_bondedAtoms m |}.

Definition set_virtual_sites (vsites : list VirtualSite) (m : Molecule) : Molecule :=
  {| mol_name := mol_name m; mol_atoms := mol_atoms m;
     mol_virtual_sites := vsites; mol_bonds := mol_bonds m;
     mol_properties := mol_properties m;
     mol_partial_charges := mol_partial_charges m;
     mol_conformers := mol_conformers m;
     mol_cached_smiles := mol_cached_smiles m;
     mol_propers := mol_propers m; mol_impropers := mol_impropers m;
     mol_angles := mol_angles m; mol_torsions := mol_torsions m;
     mol_bondedAtoms := mol_bondedAtoms m |}.

Definition set_bonds (bonds : list Bond) (m : Molecule) : Molecule :=
  {| mol_name := mol_name m; mol_atoms := mol_atoms m;
     mol_virtual_sites := mol_virtual_sites m; mol_bonds := bonds;
     mol_properties := mol_properties m;
     mol_partial_charges := mol_partial_charges m;
     mol_conformers := mol_conformers m;
     mol_cached_smiles := mol_cached_smiles m;
     mol_propers := mol_propers m; mol_impropers := mol_impropers m;
     mol_angles := mol_angles m; mol_torsions := mol_torsions m;
     mol_bondedAtoms := mol_bondedAtoms m |}.

Definition set_name (name : string) (m : Molecule) : Molecule :=
  {| mol_name := name; mol_atoms := mol_atoms m;
     mol_virtual_sites := mol_virtual_sites m; mol_bonds := mol_bonds m;
     mol_properties := mol_properties m;
     mol_partial_charges := mol_partial_charges m;
     mol_conformers := mol_conformers m;
     mol_cached_smiles := mol_cached_smiles m;
     mol_propers := mol_propers m; mol_impropers := mol_impropers m;
     mol_angles := mol_angles m; mol_torsions := mol_torsions m;
     mol_bondedAtoms := mol_bondedAtoms m |}.

Definition set_properties (props : list (string * pyobject)) (m : Molecule) : Molecule :=
  {| mol_name := mol_name m; mol_atoms := mol_atoms m;
     mol_virtual_sites := mol_virtual_sites m; mol_bonds := mol_bonds m;
     mol_properties := props;
     mol_partial_charges := mol_partial_charges m;
     mol_conformers := mol_conformers m;
     mol_cached_smiles := mol_cached_smiles m;
     mol_propers := mol_propers m; mol_impropers := mol_impropers m;
     mol_angles := mol_angles m; mol_torsions := mol_torsions m;
     mol_bondedAtoms := mol_bondedAtoms m |}.

Definition set_partial_charges (charges : option Quantity) (m : Molecule) : Molecule :=
  {| mol_name := mol_name m; mol_atoms := mol_atoms m;
     mol_virtual_sites := mol_virtual_sites m; mol_bonds := mol_bonds m;
     mol_properties := mol_properties m;
     mol_partial_charges := charges;
     mol_conformers := mol_conformers m;
     mol_cached_smiles := mol_cached_smiles m;
     mol_propers := mol_propers m; mol_impropers := mol_impropers m;
     mol_angles := mol_angles m; mol_torsions := mol_torsions m;
     mol_bondedAtoms := mol_bondedAtoms m |}.

Definition set_conformers (confs : option (list Quantity)) (m : Molecule) : Molecule :=
  {| mol_name := mol_name m; mol_atoms := mol_atoms m;
     mol_virtual_sites := mol_virtual_sites m; mol_bonds := mol_bonds m;
     mol_properties := mol_properties m;
     mol_partial_charges := mol_partial_charges m;
     mol_conformers := confs;
     mol_cached_smiles := mol_cached_smiles m;
     mol_propers := mol_propers m; mol_impropers := mol_impropers m;
     mol_angles := mol_angles m; mol_torsions := mol_torsions m;
     mol_bondedAtoms := mol_bondedAtoms m |}.

(** [_invalidate_cached_properties]. *)
Definition _invalidate_cached_properties (m : Molecule) : Molecule :=
  {| mol_name := mol_name m; mol_atoms := mol_atoms m;
     mol_virtual_sites := mol_virtual_sites m; mol_bonds := mol_bonds m;
     mol_properties := mol_properties m;
     mol_partial_charges := None;
     mol_conformers := None;
     mol_cached_smiles := None;
     mol_propers := Some None; mol_impropers := Some None;
     mol_angles := mol_angles m; mol_torsions := mol_torsions m;
     mol_bondedAtoms := mol_bondedAtoms m |}.

Definition set_angles (angles : option (list angle)) (m : Molecule) : Molecule :=
  {| mol_name := mol_name m; mol_atoms := mol_atoms m;
     mol_virtual_sites := mol_virtual_sites m; mol_bonds := mol_bonds m;
     mol_properties := mol_properties m;
     mol_partial_charges := mol_partial_charges m;
     mol_conformers := mol_conformers m;
     mol_cached_smiles := mol_cached_smiles m;
     mol_propers := mol_propers m; mol_impropers := mol_impropers m;
     mol_angles := angles; mol_torsions := mol_torsions m;
     mol_bondedAtoms := mol_bondedAtoms m |}.

Definition set_propers (propers : option (option (list torsion))) (m : Molecule) : Molecule :=
  {| mol_name := mol_name m; mol_atoms := mol_atoms m;
     mol_virtual_sites := mol_virtual_sites m; mol_bonds := mol_bonds m;
     mol_properties := mol_properties m;
     mol_partial_charges := mol_partial_charges m;
     mol_conformers := mol_conformers m;
     mol_cached_smiles := mol_cached_smiles m;
     mol_propers := propers; mol_impropers := mol_impropers m;
     mol_angles := mol_angles m; mol_torsions := mol_torsions m;
     mol_bondedAtoms := mol_bondedAtoms m |}.

Definition set_impropers (impropers : option (option (list torsion))) (m : Molecule) : Molecule :=
  {| mol_name := mol_name m; mol_atoms := mol_atoms m;
     mol_virtual_sites := mol_virtual_sites m; mol_bonds := mol_bonds m;
     mol_properties := mol_properties m;
     mol_partial_charges := mol_partial_charges m;
     mol_conformers := mol_conformers m;
     mol_cached_smiles := mol_cached_smiles m;
     mol_propers := mol_propers m; mol_impropers := impropers;
     mol_angles := mol_angles m; mol_torsions := mol_torsions m;
     mol_bondedAtoms := mol_bondedAtoms m |}.

Definition set_torsions (torsions : option (list torsion)) (m : Molecule) : Molecule :=
  {| mol_name := mol_name m; mol_atoms := mol_atoms m;
     mol_virtual_sites := mol_virtual_sites m; mol_bonds := mol_bonds m;
     mol_properties := mol_properties m;
     mol_partial_charges := mol_partial_charges m;
     mol_conformers := mol_conformers m;
     mol_cached_smiles := mol_cached_smiles m;
     mol_propers := mol_propers m; mol_impropers := mol_impropers m;
     mol_angles := mol_angles m; mol_torsions := torsions;
     mol_bondedAtoms := mol_bondedAtoms m |}.

Definition set_bondedAtoms (bonded : option (list (list nat))) (m : Molecule) : Molecule :=
  {| mol_name := mol_name m; mol_atoms := mol_atoms m;
     mol_virtual_sites := mol_virtual_sites m; mol_bonds := mol_bonds m;
     mol_properties := mol_properties m;
     mol_partial_charges := mol_partial_charges m;
     mol_conformers := mol_conformers m;
     mol_cached_smiles := mol_cached_smiles m;
     mol_propers := mol_propers m; mol_impropers := mol_impropers m;
     mol_angles := mol_angles m; mol_torsions := mol_torsions m;
     mol_bondedAtoms := bonded |}.

(** Keyword arguments of the virtual-site constructors ([weights] is
    accepted and ignored by the source). *)
Record vsite_kwargs : Type := {
  kw_charge_increments : option pynum;
  kw_epsilon : option pynum;
  kw_sigma : option pynum;
  kw_rmin_half : option pynum;
  kw_name : option string
}.

Definition no_kwargs : vsite_kwargs :=
  {| kw_charge_increments := None; kw_epsilon := None; kw_sigma := None;
     kw_rmin_half := None; kw_name := None |}.

Section MoleculeMethods.
Context {E : Externals}.

(** [q.in_units_of(u)], for a compatible [u]. *)
Definition in_units_of (u : unit_t) (q : Quantity) : Quantity :=
  {| q_value := map_array (conversion (q_unit q) u) (q_value q); q_unit := u |}.

(** [assert hasattr(x, 'unit')], [assert u.is_compatible(x.unit)] and the
    conversion [x.in_units_of(u)] that follows them in every constructor
    (the conversion itself cannot raise once the assertions hold). *)
Definition checked_in_units_of (u : unit_t) (x : pynum) : method Molecule Quantity :=
  match x with
  | Plain _ => raise AssertionError
  | WithUnit q =>
      assert (is_compatible u (q_unit q)) ;;
      ret (in_units_of u q)
  end.

Definition checked_in_units_of_opt (u : unit_t) (x : option pynum)
  : method Molecule (option Quantity) :=
  match x with
  | None => ret None
  | Some x' => q <- checked_in_units_of u x' ;; ret (Some q)
  end.

(** [self.atoms[i]]: the position of the atom object found. *)
Definition atom_at (i : Z) : method Molecule nat :=
  self <- get ;;
  match py_position (n_atoms self) i with
  | Some p => ret p
  | None => raise (IndexError "list index out of range")
  end.

(** [[self.atoms[atom_index] for atom_index in atoms]]. *)
Fixpoint atoms_at (indices : list Z) : method Molecule (list nat) :=
  match indices with
  | [] => ret []
  | i :: rest =>
      p <- atom_at i ;;
      ps <- atoms_at rest ;;
      ret (p :: ps)
  end.

(** [FrozenMolecule._add_atom].  [self._atoms.index(atom)] finds the new
    object, the last of the list. *)
Definition _add_atom (atomic_number formal_charge : Z) (is_aromatic : bool)
    (stereochemistry name : option string) : method Molecule nat :=
  self <- get ;;
  let atom := Atom_init atomic_number formal_charge is_aromatic name stereochemistry in
  modify (set_atoms (mol_atoms self ++ [atom])) ;;
  modify _invalidate_cached_properties ;;
  ret (length (mol_atoms self)).

(** [Bond.__init__]: its assertions hold for two atoms of this molecule;
    the new bond is appended to both atoms' [_bonds]. *)
Definition Bond_init (a1 a2 : nat) (order : Z) (is_aromatic : bool)
    (fractional : option float) (stereochemistry : option string)
  : method Molecule Bond :=
  let bond := {| atom1 := a1; atom2 := a2; bond_order := order;
                 bond_is_aromatic := is_aromatic;
                 fractional_bond_order := fractional;
                 bond_stereochemistry := stereochemistry |} in
  modify (fun m => set_atoms (update_nth a1 (Atom_add_bond bond) (mol_atoms m)) m) ;;
  modify (fun m => set_atoms (update_nth a2 (Atom_add_bond bond) (mol_atoms m)) m) ;;
  ret bond.

(** [FrozenMolecule._add_bond], called with two integer indices. *)
Definition _add_bond (i1 i2 : Z) (order : Z) (is_aromatic : bool)
    (stereochemistry : option string) (fractional : option float)
  : method Molecule nat :=
  atom1_atom <- atom_at i1 ;;
  atom2_atom <- atom_at i2 ;;
  self <- get ;;
  match nth_error (mol_atoms self) atom1_atom with
  | None => raise (IndexError "list index out of range")
  | Some a =>
      match is_bonded_to atom1_atom a atom2_atom with
      | Raise e => raise e
      | Return true => raise (Exception "Bond already exists")
      | Return false =>
          bond <- Bond_init atom1_atom atom2_atom order is_aromatic fractional stereochemistry ;;
          modify (fun m => set_bonds (mol_bonds m ++ [bond]) m) ;;
          modify _invalidate_cached_properties ;;
          ret (length (mol_bonds self))
      end
  end.

(** [len(x)] of an array-valued argument. *)
Definition len (x : pynum) : method Molecule nat :=
  match pynum_shape x with
  | [] => raise (TypeError "len() of unsized object")
  | n :: _ => ret n
  end.

(** [(2. * rmin_half) / (2.**(1. / 6))]. *)
Definition sigma_from_rmin_half (rmin_half : pynum) : pynum :=
  match rmin_half with
  | Plain a => Plain (map_array sigma_of_rmin_half a)
  | WithUnit q =>
      WithUnit {| q_value := map_array sigma_of_rmin_half (q_value q);
                  q_unit := q_unit q |}
  end.

(** [VirtualSite.__init__], reached through [super().__init__] from the
    subclass whose attributes are [geometry]: first the part that checks and
    converts the arguments, which touches no object. *)
Definition VirtualSite_init_checks (atoms : list nat) (kw : vsite_kwargs)
    (geometry : vsite_geometry) : method Molecule VirtualSite :=
  match kw_charge_increments kw with
  | None => ret tt
  | Some ci =>
      n <- len ci ;;
      if Nat.eqb n (length atoms) then ret tt
      else raise (Exception "VirtualSite definition must have same number of charge_increments and atoms")
  end ;;
  sigma <- match kw_epsilon kw with
           | Some _ =>
               match kw_rmin_half kw, kw_sigma kw with
               | Some _, Some _ =>
                   raise (Exception "VirtualSite constructor given epsilon, rmin_half, and sigma")
               | None, None =>
                   raise (Exception "VirtualSite constructor given epsilon but not given rmin_half or sigma")
               | Some r, None => ret (Some (sigma_from_rmin_half r))
               | None, Some s => ret (Some s)
               end
           | None =>
               match kw_rmin_half kw, kw_sigma kw with
               | None, None => ret None
               | _, _ =>
                   raise (Exception "VirtualSite constructor given rmin_half or sigma, but not epsilon")
               end
           end ;;
  (if Nat.ltb (length atoms) 2 then raise (IndexError "list index out of range")
   else ret tt) ;;
  sigma' <- checked_in_units_of_opt angstrom sigma ;;
  epsilon' <- checked_in_units_of_opt kilojoule_per_mole (kw_epsilon kw) ;;
  increments' <- checked_in_units_of_opt elementary_charge (kw_charge_increments kw) ;;
  ret {| vs_atoms := atoms;
         vs_charge_increments := increments';
         vs_epsilon := epsilon';
         vs_sigma := sigma';
         vs_name := kw_name kw;
         vs_geometry := geometry |}.

(** [VirtualSite.__init__]: after the checks, the site is appended to the
    [_virtual_sites] of each of its atoms. *)
Definition VirtualSite_init (atoms : list nat) (kw : vsite_kwargs)
    (geometry : vsite_geometry) : method Molecule VirtualSite :=
  vsite <- VirtualSite_init_checks atoms kw geometry ;;
  for_each atoms (fun a =>
    modify (fun m => set_atoms (update_nth a (Atom_add_virtual_site vsite) (mol_atoms m)) m)) ;;
  ret vsite.

(** The tail shared by the four [_add_*_virtual_site] methods. *)
Definition append_virtual_site (vsite : VirtualSite) : method Molecule nat :=
  self <- get ;;
  modify (set_virtual_sites (mol_virtual_sites self ++ [vsite])) ;;
  modify _invalidate_cached_properties ;;
  ret (length (mol_virtual_sites self)).

(** [_add_bond_charge_virtual_site], with [BondChargeVirtualSite.__init__]. *)
Definition _add_bond_charge_virtual_site (atoms : list Z) (distance : pynum)
    (kw : vsite_kwargs) : method Molecule nat :=
  atom_list <- atoms_at atoms ;;
  d <- checked_in_units_of angstrom distance ;;
  vsite <- VirtualSite_init atom_list kw (BondChargeVirtualSite d) ;;
  append_virtual_site vsite.

(** [_add_monovalent_lone_pair_virtual_site], with
    [MonovalentLonePairVirtualSite.__init__]. *)
Definition _add_monovalent_lone_pair_virtual_site (atoms : list Z)
    (distance out_of_plane_angle in_plane_angle : pynum) (kw : vsite_kwargs)
  : method Molecule nat :=
  atom_list <- atoms_at atoms ;;
  d <- checked_in_units_of angstrom distance ;;
  inp <- checked_in_units_of degree in_plane_angle ;;
  outp <- checked_in_units_of degree out_of_plane_angle ;;
  assert (Nat.eqb (length atom_list) 3) ;;
  vsite <- VirtualSite_init atom_list kw (MonovalentLonePairVirtualSite d outp inp) ;;
  append_virtual_site vsite.

(** [_add_divalent_lone_pair_virtual_site], with
    [DivalentLonePairVirtualSite.__init__]. *)
Definition _add_divalent_lone_pair_virtual_site (atoms : list Z)
    (distance out_of_plane_angle in_plane_angle : pynum) (kw : vsite_kwargs)
  : method Molecule nat :=
  atom_list <- atoms_at atoms ;;
  d <- checked_in_units_of angstrom distance ;;
  inp <- checked_in_units_of degree in_plane_angle ;;
  outp <- checked_in_units_of degree out_of_plane_angle ;;
  assert (Nat.eqb (length atom_list) 3) ;;
  vsite <- VirtualSite_init atom_list kw (DivalentLonePairVirtualSite d outp inp) ;;
  append_virtual_site vsite.

(** [_add_trivalent_lone_pair_virtual_site], with
    [TrivalentLonePairVirtualSite.__init__]. *)
Definition _add_trivalent_lone_pair_virtual_site (atoms : list Z)
    (distance out_of_plane_angle in_plane_angle : pynum) (kw : vsite_kwargs)
  : method Molecule nat :=
  atom_list <- atoms_at atoms ;;
  assert (Nat.eqb (length atom_list) 4) ;;
  d <- checked_in_units_of angstrom distance ;;
  inp <- checked_in_units_of degree in_plane_angle ;;
  outp <- checked_in_units_of degree out_of_plane_angle ;;
  vsite <- VirtualSite_init atom_list kw (TrivalentLonePairVirtualSite d outp inp) ;;
  append_virtual_site vsite.

(** [FrozenMolecule._add_conformer].  The item assignment
    [new_conf[:] = coordinates] raises [AttributeError] for an array without
    units, which the source turns into [Exception], and [TypeError] for a
    unit that is not a length, which it does not catch. *)
Definition _add_conformer (coordinates : pynum) : method Molecule nat :=
  self <- get ;;
  let new_conf_shape := [n_atoms self; 3] in
  if negb (shape_eqb new_conf_shape (pynum_shape coordinates)) then
    raise (Exception "molecule.add_conformer given input of the wrong shape")
  else
    new_conf <- match coordinates with
                | Plain _ =>
                    raise (Exception "Coordinates passed to Molecule._add_conformer without units")
                | WithUnit q =>
                    if is_compatible angstrom (q_unit q) then ret (in_units_of angstrom q)
                    else raise (TypeError "Unit is not compatible with angstrom")
                end ;;
    let conformers := match mol_conformers self with
                      | None => []
                      | Some confs => confs
                      end in
    modify (set_conformers (Some (conformers ++ [new_conf]))) ;;
    ret (length (conformers ++ [new_conf])).

(** The [partial_charges] setter. *)
Definition set_partial_charges_property (charges : pynum) : method Molecule unit :=
  self <- get ;;
  match charges with
  | Plain _ => raise AssertionError
  | WithUnit q =>
      assert (is_compatible elementary_charge (q_unit q)) ;;
      assert (shape_eqb (shape (q_value q)) [n_atoms self]) ;;
      modify (set_partial_charges (Some (in_units_of elementary_charge q)))
  end.

(** The [name] setter. *)
Definition set_name_property (other : pyobject) : method Molecule unit :=
  match other with
  | PyNone => modify (set_name "")
  | PyStr s => modify (set_name s)
  | _ => raise (Exception "Molecule name must be a string")
  end.

(** [molecule.properties[key] = value], on the dictionary that the
    [properties] property hands out. *)
Definition properties_setitem (key : string) (value : pyobject) : method Molecule unit :=
  modify (fun m => set_properties (dict_setitem String.eqb key value (mol_properties m)) m).

(** The public methods of [Molecule] delegate to the private ones; [kw] is
    what the public method hands to the private one.  The public
    [add_bond_charge_virtual_site] has the default [name=''], so a caller
    who gives no name has [kw_name = Some ""] there; the three lone-pair
    methods forward [**kwargs], so a name that is not given stays [None]. *)
Definition add_atom := _add_atom.
Definition add_bond := _add_bond.
Definition add_bond_charge_virtual_site := _add_bond_charge_virtual_site.
Definition add_monovalent_lone_pair_virtual_site := _add_monovalent_lone_pair_virtual_site.
Definition add_divalent_lone_pair_virtual_site := _add_divalent_lone_pair_virtual_site.
Definition add_trivalent_lone_pair_virtual_site := _add_trivalent_lone_pair_virtual_site.
Definition add_conformer := _add_conformer.

End MoleculeMethods.

(** ** Derived topology: bonded neighbours, angles and torsions *)

Definition angle_eqb (x y : angle) : bool :=
  match x, y with
  | (a, b, c), (a', b', c') => Nat.eqb a a' && Nat.eqb b b' && Nat.eqb c c'
  end.

Definition torsion_eqb (x y : torsion) : bool :=
  match x, y with
  | (a, b, c, d), (a', b', c', d') =>
      Nat.eqb a a' && Nat.eqb b b' && Nat.eqb c c' && Nat.eqb d d'
  end.

(** The dictionary that [_construct_bonded_atoms_list] builds, keyed by the
    atoms present when it runs: the set for the atom at position [i] is at
    position [i]. *)
Definition bonded_atoms_dict (n : nat) (bonds : list Bond) : list (list nat) :=
  fold_left
    (fun d bond =>
       update_nth (atom2 bond) (set_add Nat.eqb (atom1 bond))
         (update_nth (atom1 bond) (set_add Nat.eqb (atom2 bond)) d))
    bonds (repeat [] n).

(** [_construct_bonded_atoms_list]. *)
Definition _construct_bonded_atoms_list : method Molecule unit :=
  self <- get ;;
  match mol_bondedAtoms self with
  | Some _ => ret tt
  | None =>
      modify (set_bondedAtoms (Some (bonded_atoms_dict (n_atoms self) (mol_bonds self))))
  end.

(** [self._bondedAtoms[atom]]. *)
Definition bondedAtoms_getitem (atom : nat) : method Molecule (list nat) :=
  self <- get ;;
  match mol_bondedAtoms self with
  | None => raise AttributeError
  | Some d =>
      match nth_error d atom with
      | Some s => ret s
      | None => raise KeyError
      end
  end.

Definition angles_add (a : angle) : method Molecule unit :=
  modify (fun m =>
    match mol_angles m with
    | Some s => set_angles (Some (set_add angle_eqb a s)) m
    | None => m
    end).

Definition propers_add (t : torsion) : method Molecule unit :=
  modify (fun m =>
    match mol_propers m with
    | Some (Some s) => set_propers (Some (Some (set_add torsion_eqb t s))) m
    | _ => m
    end).

Definition impropers_add (t : torsion) : method Molecule unit :=
  modify (fun m =>
    match mol_impropers m with
    | Some (Some s) => set_impropers (Some (Some (set_add torsion_eqb t s))) m
    | _ => m
    end).

(** [_construct_angles]. *)
Definition _construct_angles : method Molecule unit :=
  self <- get ;;
  match mol_angles self with
  | Some _ => ret tt
  | None =>
      _construct_bonded_atoms_list ;;
      modify (set_angles (Some [])) ;;
      for_each (seq 0 (n_atoms self)) (fun atom1 =>
        bonded1 <- bondedAtoms_getitem atom1 ;;
        for_each bonded1 (fun atom2 =>
          bonded2 <- bondedAtoms_getitem atom2 ;;
          for_each bonded2 (fun atom3 =>
            if Nat.eqb atom1 atom3 then ret tt
            else if Nat.ltb atom1 atom3 then angles_add (atom1, atom2, atom3)
            else angles_add (atom3, atom2, atom1))))
  end.

(** [_construct_torsions]. *)
Definition _construct_torsions : method Molecule unit :=
  self <- get ;;
  match mol_torsions self with
  | Some _ => ret tt
  | None =>
      _construct_bonded_atoms_list ;;
      modify (set_propers (Some (Some []))) ;;
      modify (set_impropers (Some (Some []))) ;;
      for_each (seq 0 (n_atoms self)) (fun atom1 =>
        bonded1 <- bondedAtoms_getitem atom1 ;;
        for_each bonded1 (fun atom2 =>
          bonded2 <- bondedAtoms_getitem atom2 ;;
          for_each bonded2 (fun atom3 =>
            if Nat.eqb atom1 atom3 then ret tt
            else
              bonded3 <- bondedAtoms_getitem atom3 ;;
              for_each bonded3 (fun atom4 =>
                if Nat.eqb atom4 atom2 then ret tt
                else if Nat.eqb atom1 atom4 then ret tt
                else if Nat.ltb atom1 atom4 then propers_add (atom1, atom2, atom3, atom4)
                else propers_add (atom4, atom3, atom2, atom1)) ;;
              for_each bonded2 (fun atom3i =>
                if Nat.eqb atom3i atom3 then ret tt
                else if Nat.eqb atom3i atom1 then ret tt
                else impropers_add (atom1, atom2, atom3, atom3i))))) ;;
      modify (fun m =>
        match mol_propers m, mol_impropers m with
        | Some (Some p), Some (Some i) => set_torsions (Some (set_union torsion_eqb p i)) m
        | _, _ => m
        end)
  end.

(** The [angles] property. *)
Definition angles : method Molecule (list angle) :=
  _construct_angles ;;
  self <- get ;;
  match mol_angles self with
  | Some s => ret s
  | None => raise AttributeError
  end.

(** The [propers] property: the value of [_propers], which can be Python's
    [None]. *)
Definition propers : method Molecule (option (list torsion)) :=
  _construct_torsions ;;
  self <- get ;;
  match mol_propers self with
  | Some p => ret p
  | None => raise AttributeError
  end.

(** The [impropers] property. *)
Definition impropers : method Molecule (option (list torsion)) :=
  _construct_torsions ;;
  self <- get ;;
  match mol_impropers self with
  | Some p => ret p
  | None => raise AttributeError
  end.

(** The [torsions] property. *)
Definition torsions : method Molecule (list torsion) :=
  _construct_torsions ;;
  self <- get ;;
  match mol_torsions self with
  | Some s => ret s
  | None => raise AttributeError
  end.

(** [n_angles], [n_propers] and [n_impropers]: [len] of Python's [None]
    raises [TypeError]. *)
Definition n_angles : method Molecule nat :=
  s <- angles ;; ret (length s).

Definition n_propers : method Molecule nat :=
  p <- propers ;;
  match p with
  | Some s => ret (length s)
  | None => raise (TypeError "object of type 'NoneType' has no len()")
  end.

Definition n_impropers : method Molecule nat :=
  p <- impropers ;;
  match p with
  | Some s => ret (length s)
  | None => raise (TypeError "object of type 'NoneType' has no len()")
  end.

(** ** An instance of the external functions

    Used to run the embedding on concrete molecules.  It is a stand-in, not
    the libraries: conversions between units leave the stored float
    unchanged (the libraries rescale), a quantity is printed as itself, an
    array is serialized as its list of elements, and the element table
    covers the atomic numbers 1 to 111. *)

Definition sample_element_symbol (z : Z) : option string :=
  match z with
  | 1 => Some "H" | 2 => Some "He" | 3 => Some "Li" | 4 => Some "Be"
  | 5 => Some "B" | 6 => Some "C" | 7 => Some "N" | 8 => Some "O"
  | 9 => Some "F" | 10 => Some "Ne" | 11 => Some "Na" | 12 => Some "Mg"
  | 13 => Some "Al" | 14 => Some "Si" | 15 => Some "P" | 16 => Some "S"
  | 17 => Some "Cl" | 18 => Some "Ar" | 19 => Some "K" | 20 => Some "Ca"
  | 21 => Some "Sc" | 22 => Some "Ti" | 23 => Some "V" | 24 => Some "Cr"
  | 25 => Some "Mn" | 26 => Some "Fe" | 27 => Some "Co" | 28 => Some "Ni"
  | 29 => Some "Cu" | 30 => Some "Zn" | 31 => Some "Ga" | 32 => Some "Ge"
  | 33 => Some "As" | 34 => Some "Se" | 35 => Some "Br" | 36 => Some "Kr"
  | 37 => Some "Rb" | 38 => Some "Sr" | 39 => Some "Y" | 40 => Some "Zr"
  | 41 => Some "Nb" | 42 => Some "Mo" | 43 => Some "Tc" | 44 => Some "Ru"
  | 45 => Some "Rh" | 46 => Some "Pd" | 47 => Some "Ag" | 48 => Some "Cd"
  | 49 => Some "In" | 50 => Some "Sn" | 51 => Some "Sb" | 52 => Some "Te"
  | 53 => Some "I" | 54 => Some "Xe" | 55 => Some "Cs" | 56 => Some "Ba"
  | 57 => Some "La" | 58 => Some "Ce" | 59 => Some "Pr" | 60 => Some "Nd"
  | 61 => Some "Pm" | 62 => Some "Sm" | 63 => Some "Eu" | 64 => Some "Gd"
  | 65 => Some "Tb" | 66 => Some "Dy" | 67 => Some "Ho" | 68 => Some "Er"
  | 69 => Some "Tm" | 70 => Some "Yb" | 71 => Some "Lu" | 72 => Some "Hf"
  | 73 => Some "Ta" | 74 => Some "W" | 75 => Some "Re" | 76 => Some "Os"
  | 77 => Some "Ir" | 78 => Some "Pt" | 79 => Some "Au" | 80 => Some "Hg"
  | 81 => Some "Tl" | 82 => Some "Pb" | 83 => Some "Bi" | 84 => Some "Po"
  | 85 => Some "At" | 86 => Some "Rn" | 87 => Some "Fr" | 88 => Some "Ra"
  | 89 => Some "Ac" | 90 => Some "Th" | 91 => Some "Pa" | 92 => Some "U"
  | 93 => Some "Np" | 94 => Some "Pu" | 95 => Some "Am" | 96 => Some "Cm"
  | 97 => Some "Bk" | 98 => Some "Cf" | 99 => Some "Es" | 100 => Some "Fm"
  | 101 => Some "Md" | 102 => Some "No" | 103 => Some "Lr" | 104 => Some "Rf"
  | 105 => Some "Db" | 106 => Some "Sg" | 107 => Some "Bh" | 108 => Some "Hs"
  | 109 => Some "Mt" | 110 => Some "Ds" | 111 => Some "Rg"
  | _ => None
  end%Z.

Definition sample_externals : Externals :=
  {| conversion := fun _ _ x => x;
     sigma_of_rmin_half := fun x => x;
     quantity_str := Quantity;
     print_quantity := fun q => q;
     parse_quantity := fun s => WithUnit s;
     buffer := list float;
     serialize_numpy := fun a => (data a, shape a);
     deserialize_numpy := fun b shp => {| shape := shp; data := b |};
     element_symbol := sample_element_symbol |}.

(** ** The calls a client can make on a [Molecule] *)

Inductive client_call : Type :=
| Call_add_atom (atomic_number formal_charge : Z) (is_aromatic : bool)
    (stereochemistry name : option string)
| Call_add_bond (atom1 atom2 : Z) (bond_order : Z) (is_aromatic : bool)
    (stereochemistry : option string) (fractional_bond_order : option float)
| Call_add_bond_charge_virtual_site (atoms : list Z) (distance : pynum) (kw : vsite_kwargs)
| Call_add_monovalent_lone_pair_virtual_site (atoms : list Z)
    (distance out_of_plane_angle in_plane_angle : pynum) (kw : vsite_kwargs)
| Call_add_divalent_lone_pair_virtual_site (atoms : list Z)
    (distance out_of_plane_angle in_plane_angle : pynum) (kw : vsite_kwargs)
| Call_add_trivalent_lone_pair_virtual_site (atoms : list Z)
    (distance out_of_plane_angle in_plane_angle : pynum) (kw : vsite_kwargs)
| Call_add_conformer (coordinates : pynum)
| Call_set_partial_charges (charges : pynum)
| Call_set_name (name : pyobject)
| Call_set_property (key : string) (value : pyobject)
| Call_angles
| Call_propers
| Call_impropers
| Call_torsions.

Section Calls.
Context {E : Externals}.

Definition discard {A} (m : method Molecule A) : method Molecule unit :=
  m ;; ret tt.

(** The molecule after a call, whether the call returned or raised. *)
Definition perform (c : client_call) (self : Molecule) : Molecule :=
  snd (match c with
       | Call_add_atom z q ar st nm => discard (add_atom z q ar st nm)
       | Call_add_bond i j o ar st fr => discard (add_bond i j o ar st fr)
       | Call_add_bond_charge_virtual_site ats d kw =>
           discard (add_bond_charge_virtual_site ats d kw)
       | Call_add_monovalent_lone_pair_virtual_site ats d o i kw =>
           discard (add_monovalent_lone_pair_virtual_site ats d o i kw)
       | Call_add_divalent_lone_pair_virtual_site ats d o i kw =>
           discard (add_divalent_lone_pair_virtual_site ats d o i kw)
       | Call_add_trivalent_lone_pair_virtual_site ats d o i kw =>
           discard (add_trivalent_lone_pair_virtual_site ats d o i kw)
       | Call_add_conformer c => discard (add_conformer c)
       | Call_set_partial_charges c => set_partial_charges_property c
       | Call_set_name n => set_name_property n
       | Call_set_property k v => properties_setitem k v
       | Call_angles => discard angles
       | Call_propers => discard propers
       | Call_impropers => discard impropers
       | Call_torsions => discard torsions
       end self).

(** The molecules a client can build: [Molecule()] followed by any calls. *)
Inductive built : Molecule -> Prop :=
| built_new : built new_Molecule
| built_call : forall m c, built m -> built (perform c m).

End Calls.

(** ** The dictionary representation: [to_dict] and [from_dict] *)

(** [Atom.to_dict]. *)
Record atom_dict : Type := {
  ad_atomic_number : Z;
  ad_formal_charge : Z;
  ad_is_aromatic : bool;
  ad_stereochemistry : option string;
  ad_name : string
}.

(** [Bond.to_dict]. *)
Record bond_dict : Type := {
  bd_atom1 : Z;
  bd_atom2 : Z;
  bd_bond_order : Z;
  bd_is_aromatic : bool;
  bd_stereochemistry : option string;
  bd_fractional_bond_order : option float
}.

Definition Atom_to_dict (a : Atom) : atom_dict :=
  {| ad_atomic_number := atomic_number a;
     ad_formal_charge := formal_charge a;
     ad_is_aromatic := atom_is_aromatic a;
     ad_stereochemistry := atom_stereochemistry a;
     ad_name := atom_name a |}.

(** [bond.atom1.molecule_atom_index] is the position of the atom. *)
Definition Bond_to_dict (b : Bond) : bond_dict :=
  {| bd_atom1 := Z.of_nat (atom1 b);
     bd_atom2 := Z.of_nat (atom2 b);
     bd_bond_order := bond_order b;
     bd_is_aromatic := bond_is_aromatic b;
     bd_stereochemistry := bond_stereochemistry b;
     bd_fractional_bond_order := fractional_bond_order b |}.

Section Serialization.
Context {E : Externals}.

(** Modelled from the spec: [openforcefield.utils.quantity_to_string] and
    [string_to_quantity] are not in the sources at hand.  A quantity is
    written as the string "<value> <unit-string>" ([print_quantity]) and
    read back by [parse_quantity]; Python's [None], which the molecule code
    passes for an absent parameter, is handed through. *)
Definition quantity_to_string (q : option Quantity) : option quantity_str :=
  option_map print_quantity q.

Definition string_to_quantity (s : option quantity_str) : option pynum :=
  option_map parse_quantity s.

(** The dictionary of a virtual site.  The two angle keys exist only in the
    dictionary of a lone-pair site: [None] says that the key is absent. *)
Record vsite_dict : Type := {
  vd_name : option string;
  vd_atoms : list Z;
  vd_charge_increments : option quantity_str;
  vd_epsilon : option quantity_str;
  vd_sigma : option quantity_str;
  vd_distance : option quantity_str;
  vd_out_of_plane_angle : option quantity_str;
  vd_in_plane_angle : option quantity_str;
  vd_vsite_type : string
}.

(** [to_dict] of the four virtual-site classes. *)
Definition VirtualSite_to_dict (v : VirtualSite) : vsite_dict :=
  let base distance out_of_plane in_plane :=
    {| vd_name := vs_name v;
       vd_atoms := map Z.of_nat (vs_atoms v);
       vd_charge_increments := quantity_to_string (vs_charge_increments v);
       vd_epsilon := quantity_to_string (vs_epsilon v);
       vd_sigma := quantity_to_string (vs_sigma v);
       vd_distance := quantity_to_string (Some distance);
       vd_out_of_plane_angle := quantity_to_string out_of_plane;
       vd_in_plane_angle := quantity_to_string in_plane;
       vd_vsite_type := vsite_type (vs_geometry v) |} in
  match vs_geometry v with
  | BondChargeVirtualSite d => base d None None
  | MonovalentLonePairVirtualSite d o i => base d (Some o) (Some i)
  | DivalentLonePairVirtualSite d o i => base d (Some o) (Some i)
  | TrivalentLonePairVirtualSite d o i => base d (Some o) (Some i)
  end.

(** The dictionary of a molecule.  [_cached_properties] is never set by the
    molecule code, so the key [cached_properties] is never written. *)
Record molecule_dict : Type := {
  md_name : string;
  md_atoms : list atom_dict;
  md_virtual_sites : list vsite_dict;
  md_bonds : list bond_dict;
  md_properties : list (string * pyobject);
  md_conformers : option (list buffer);
  md_conformers_unit : option string;
  md_partial_charges : option buffer;
  md_partial_charges_unit : option string
}.

(** [q / u] for a quantity [q] and a compatible unit [u]: the bare array. *)
Definition value_in_unit (u : unit_t) (q : Quantity) : ndarray :=
  q_value (in_units_of u q).

(** [FrozenMolecule.to_dict]. *)
Definition to_dict (self : Molecule) : molecule_dict :=
  {| md_name := mol_name self;
     md_atoms := map Atom_to_dict (mol_atoms self);
     md_virtual_sites := map VirtualSite_to_dict (mol_virtual_sites self);
     md_bonds := map Bond_to_dict (mol_bonds self);
     md_properties := mol_properties self;
     md_conformers :=
       option_map (map (fun conf => fst (serialize_numpy (value_in_unit angstrom conf))))
                  (mol_conformers self);
     md_conformers_unit :=
       match mol_conformers self with
       | None => None
       | Some _ => Some "angstrom"
       end;
     md_partial_charges :=
       option_map (fun q => fst (serialize_numpy (value_in_unit elementary_charge q)))
                  (mol_partial_charges self);
     md_partial_charges_unit :=
       match mol_partial_charges self with
       | None => None
       | Some _ => Some "elementary_charge"
       end |}.

(** [FrozenMolecule._initialize]; the cached attributes are not reset. *)
Definition _initialize (m : Molecule) : Molecule :=
  {| mol_name := ""; mol_atoms := [];
     mol_virtual_sites := []; mol_bonds := [];
     mol_properties := [];
     mol_partial_charges := None;
     mol_conformers := None;
     mol_cached_smiles := mol_cached_smiles m;
     mol_propers := mol_propers m; mol_impropers := mol_impropers m;
     mol_angles := mol_angles m; mol_torsions := mol_torsions m;
     mol_bondedAtoms := mol_bondedAtoms m |}.

(** [vsite_dict[key]] for a key that may be absent. *)
Definition vsite_dict_getitem (x : option quantity_str) : method Molecule pynum :=
  match x with
  | None => raise KeyError
  | Some s => ret (parse_quantity s)
  end.

(** One turn of the virtual-site loop of [_initialize_from_dict]. *)
Definition add_virtual_site_from_dict (d : vsite_dict) : method Molecule unit :=
  let kw := {| kw_charge_increments := string_to_quantity (vd_charge_increments d);
               kw_epsilon := string_to_quantity (vd_epsilon d);
               kw_sigma := string_to_quantity (vd_sigma d);
               kw_rmin_half := None;
               kw_name := vd_name d |} in
  let unexpected_angles :=
    match vd_out_of_plane_angle d, vd_in_plane_angle d with
    | None, None => false
    | _, _ => true
    end in
  if String.eqb (vd_vsite_type d) "BondChargeVirtualSite" then
    distance <- vsite_dict_getitem (vd_distance d) ;;
    if unexpected_angles then
      (* the atoms are looked up before the constructor refuses the angles *)
      atoms_at (vd_atoms d) ;;
      raise (TypeError "unexpected keyword argument")
    else discard (_add_bond_charge_virtual_site (vd_atoms d) distance kw)
  else if String.eqb (vd_vsite_type d) "MonovalentLonePairVirtualSite" then
    distance <- vsite_dict_getitem (vd_distance d) ;;
    in_plane <- vsite_dict_getitem (vd_in_plane_angle d) ;;
    out_of_plane <- vsite_dict_getitem (vd_out_of_plane_angle d) ;;
    discard (_add_monovalent_lone_pair_virtual_site (vd_atoms d) distance out_of_plane in_plane kw)
  else if String.eqb (vd_vsite_type d) "DivalentLonePairVirtualSite" then
    distance <- vsite_dict_getitem (vd_distance d) ;;
    in_plane <- vsite_dict_getitem (vd_in_plane_angle d) ;;
    out_of_plane <- vsite_dict_getitem (vd_out_of_plane_angle d) ;;
    discard (_add_divalent_lone_pair_virtual_site (vd_atoms d) distance out_of_plane in_plane kw)
  else if String.eqb (vd_vsite_type d) "TrivalentLonePairVirtualSite" then
    distance <- vsite_dict_getitem (vd_distance d) ;;
    in_plane <- vsite_dict_getitem (vd_in_plane_angle d) ;;
    out_of_plane <- vsite_dict_getitem (vd_out_of_plane_angle d) ;;
    discard (_add_trivalent_lone_pair_virtual_site (vd_atoms d) distance out_of_plane in_plane kw)
  else raise (Exception "Vsite type not recognized").

(** [getattr(unit, molecule_dict[key])]. *)
Definition unit_from_dict (name : option string) : method Molecule unit_t :=
  match name with
  | None => raise KeyError
  | Some n =>
      match unit_of_name n with
      | Some u => ret u
      | None => raise AttributeError
      end
  end.

(** [FrozenMolecule._initialize_from_dict]. *)
Definition _initialize_from_dict (d : molecule_dict) : method Molecule unit :=
  modify _initialize ;;
  set_name_property (PyStr (md_name d)) ;;
  for_each (md_atoms d) (fun ad =>
    discard (_add_atom (ad_atomic_number ad) (ad_formal_charge ad) (ad_is_aromatic ad)
                       (ad_stereochemistry ad) (Some (ad_name ad)))) ;;
  for_each (md_virtual_sites d) add_virtual_site_from_dict ;;
  for_each (md_bonds d) (fun bd =>
    discard (_add_bond (bd_atom1 bd) (bd_atom2 bd) (bd_bond_order bd) (bd_is_aromatic bd)
                       (bd_stereochemistry bd) (bd_fractional_bond_order bd))) ;;
  match md_partial_charges d with
  | None => modify (set_partial_charges None)
  | Some buf =>
      self <- get ;;
      let unitless := deserialize_numpy buf [n_atoms self] in
      pc_unit <- unit_from_dict (md_partial_charges_unit d) ;;
      modify (set_partial_charges (Some {| q_value := unitless; q_unit := pc_unit |}))
  end ;;
  match md_conformers d with
  | None => modify (set_conformers None)
  | Some bufs =>
      modify (set_conformers (Some [])) ;;
      for_each bufs (fun buf =>
        self <- get ;;
        let unitless := deserialize_numpy buf [n_atoms self; 3] in
        c_unit <- unit_from_dict (md_conformers_unit d) ;;
        let conformer := {| q_value := unitless; q_unit := c_unit |} in
        modify (fun m =>
          match mol_conformers m with
          | Some confs => set_conformers (Some (confs ++ [conformer])) m
          | None => m
          end))
  end ;;
  modify (set_properties (md_properties d)).

(** [FrozenMolecule.from_dict], the class method. *)
Definition from_dict (d : molecule_dict) : outcome Molecule :=
  match _initialize_from_dict d new_Molecule with
  | (Return _, mol) => Return mol
  | (Raise e, _) => Raise e
  end.

End Serialization.

(** ** [remap] *)

Section Remap.
Context {E : Externals}.

(** [x[key]] where a missing item raises [e]. *)
Definition getitem_or {S A} (e : exn) (x : option A) : method S A :=
  match x with
  | Some a => ret a
  | None => raise e
  end.

(** [dict(zip(mapping_dict.values(), mapping_dict.keys()))]. *)
Definition inverted (mapping_dict : list (Z * Z)) : list (Z * Z) :=
  dict_of_items Z.eqb (map (fun kv => (snd kv, fst kv)) mapping_dict).

(** [range(n)]. *)
Definition range (n : nat) : list Z := map Z.of_nat (seq 0 n).

(** The order of [operator.attrgetter('atom1_index', 'atom2_index')]. *)
Definition bond_key_leb (b c : Bond) : bool :=
  Nat.ltb (atom1 b) (atom1 c)
  || (Nat.eqb (atom1 b) (atom1 c) && Nat.leb (atom2 b) (atom2 c)).

(** The atom loop of [remap], inside its [try]: a [KeyError] or an
    [IndexError] is re-raised as [IndexError]. *)
Definition remap_atoms (self : Molecule) (new_to_cur : list (Z * Z))
  : method Molecule unit :=
  for_each (range (n_atoms self)) (fun i =>
    match dict_getitem Z.eqb i new_to_cur with
    | None => raise (IndexError "The mapping supplied is missing a relation")
    | Some cur =>
        match py_getitem (mol_atoms self) cur with
        | None => raise (IndexError "The mapping supplied is missing a relation")
        | Some old_atom =>
            let d := Atom_to_dict old_atom in
            discard (add_atom (ad_atomic_number d) (ad_formal_charge d) (ad_is_aromatic d)
                              (ad_stereochemistry d) (Some (ad_name d)))
        end
    end).

(** The bond loop of [remap]. *)
Definition remap_bonds (self : Molecule) (cur_to_new : list (Z * Z))
  : method Molecule unit :=
  for_each (mol_bonds self) (fun bond =>
    new1 <- getitem_or KeyError (dict_getitem Z.eqb (Z.of_nat (atom1 bond)) cur_to_new) ;;
    new2 <- getitem_or KeyError (dict_getitem Z.eqb (Z.of_nat (atom2 bond)) cur_to_new) ;;
    let d := Bond_to_dict bond in
    discard (add_bond (Z.min new1 new2) (Z.max new1 new2) (bd_bond_order d)
                      (bd_is_aromatic d) (bd_stereochemistry d)
                      (bd_fractional_bond_order d))).

(** The charge loop of [remap], filling the local array [new_charges].
    [self.partial_charges] is subscripted whether or not it is [None]. *)
Definition remap_charges (self : Molecule) (new_to_cur : list (Z * Z))
  : method ndarray unit :=
  for_each (seq 0 (n_atoms self)) (fun i =>
    cur <- getitem_or KeyError (dict_getitem Z.eqb (Z.of_nat i) new_to_cur) ;;
    match mol_partial_charges self with
    | None => raise (TypeError "'NoneType' object is not subscriptable")
    | Some charges =>
        item <- getitem_or (IndexError "index out of bounds")
                           (array_getitem (q_value charges) cur) ;;
        match shape item with
        | [] =>
            modify (array_setitem i
                      (map_array (conversion (q_unit charges) elementary_charge) item))
        | _ => raise (ValueError "setting an array element with a sequence")
        end
    end).

(** The inner loop of the conformer loop of [remap], filling the local
    array [new_conformer]. *)
Definition remap_conformer (self : Molecule) (new_to_cur : list (Z * Z))
    (conformer : Quantity) : method ndarray unit :=
  for_each (seq 0 (n_atoms self)) (fun i =>
    cur <- getitem_or KeyError (dict_getitem Z.eqb (Z.of_nat i) new_to_cur) ;;
    item <- getitem_or (IndexError "index out of bounds")
                       (array_getitem (q_value conformer) cur) ;;
    if shape_eqb (shape item) [3] then
      modify (array_setitem i (map_array (conversion (q_unit conformer) angstrom) item))
    else raise (ValueError "could not broadcast input array")).

(** The result of a loop that fills a local array. *)
Definition filled {S} (fill : method ndarray unit) (start : ndarray) : method S ndarray :=
  match fill start with
  | (Return _, a) => ret a
  | (Raise e, _) => raise e
  end.

(** [FrozenMolecule.remap]: the new molecule, or the exception raised. *)
Definition remap (self : Molecule) (mapping_dict : list (Z * Z)) (current_to_new : bool)
  : outcome Molecule :=
  if negb (Nat.eqb (n_virtual_sites self) 0) then
    Raise (NotImplementedError "We can not remap virtual sites yet!")
  else if negb (Nat.eqb (length mapping_dict) (n_atoms self)) then
    Raise (ValueError "The number of mapping indices does not match the number of atoms")
  else
    let cur_to_new := if current_to_new then mapping_dict else inverted mapping_dict in
    let new_to_cur := if current_to_new then inverted mapping_dict else mapping_dict in
    let build : method Molecule unit :=
      set_name_property (PyStr (mol_name self)) ;;
      remap_atoms self new_to_cur ;;
      remap_bonds self cur_to_new ;;
      modify (fun m => set_bonds (sorted bond_key_leb (mol_bonds m)) m) ;;
      new_charges <- filled (remap_charges self new_to_cur) (zeros [n_atoms self]) ;;
      set_partial_charges_property
        (WithUnit {| q_value := new_charges; q_unit := elementary_charge |}) ;;
      match mol_conformers self with
      | None => ret tt
      | Some conformers =>
          for_each conformers (fun conformer =>
            new_conformer <- filled (remap_conformer self new_to_cur conformer)
                                    (zeros [n_atoms self; 3]) ;;
            discard (add_conformer
                       (WithUnit {| q_value := new_conformer; q_unit := angstrom |})))
      end ;;
      modify (set_properties (mol_properties self)) in
    match build new_Molecule with
    | (Return _, new_molecule) => Return new_molecule
    | (Raise e, _) => Raise e
    end.

End Remap.

(** ** Hill formula *)


(** [str(n)] for a count. *)
Definition str_of_nat (n : nat) : string := NilZero.string_of_uint (Nat.to_uint n).

(** [collections.Counter]: one more occurrence of [key]. *)
Definition counter_add (key : string) (c : list (string * nat)) : list (string * nat) :=
  match dict_getitem String.eqb key c with
  | Some n => dict_setitem String.eqb key (S n) c
  | None => dict_setitem String.eqb key 1 c
  end.

Definition Counter (keys : list string) : list (string * nat) :=
  fold_left (fun c key => counter_add key c) keys [].

(** What one element contributes to the formula: [formula.append(el)] and,
    for a count above one, [formula.append(str(count))]. *)
Definition formula_entry (el : string) (count : nat) : string :=
  el ++ (if Nat.ltb 1 count then str_of_nat count else "").

Section Isomorphism.
Context {E : Externals}.

(** [Element.getByAtomicNumber(atom_num).symbol] over the atoms, stopping
    at the first atomic number that is not an element. *)
Fixpoint symbols_of (atom_nums : list Z) : outcome (list string) :=
  match atom_nums with
  | [] => Return []
  | z :: rest =>
      match element_symbol z with
      | None => Raise KeyError
      | Some s =>
          match symbols_of rest with
          | Return ss => Return (s :: ss)
          | Raise e => Raise e
          end
      end
  end.

(** The two loops of [to_hill_formula] over a counter: carbon and hydrogen
    first, the other elements in alphabetical order. *)
Definition hill_entries (counts : list (string * nat)) : list string :=
  let step (acc : list string * list (string * nat)) (el : string) :=
    match dict_getitem String.eqb el (snd acc) with
    | Some count =>
        (fst acc ++ [formula_entry el count], dict_remove String.eqb el (snd acc))
    | None => acc
    end in
  let after_CH := fold_left step ["C"; "H"] ([], counts) in
  fst (fold_left step (sorted String.leb (map fst (snd after_CH))) after_CH).

(** [FrozenMolecule.to_hill_formula], for a [FrozenMolecule]. *)
Definition to_hill_formula (molecule : Molecule) : outcome string :=
  match symbols_of (map atomic_number (mol_atoms molecule)) with
  | Raise e => Raise e
  | Return symbols => Return (String.concat "" (hill_entries (Counter symbols)))
  end.

(** ** Graphs and isomorphism *)

(** The attributes [to_networkx] gives to a node and to an edge. *)
Record node_attrs : Type := {
  node_atomic_number : Z;
  node_is_aromatic : bool;
  node_stereochemistry : option string;
  node_formal_charge : Z
}.

Record edge_attrs : Type := {
  edge_bond_order : Z;
  edge_is_aromatic : bool;
  edge_stereochemistry : option string
}.

(** A [networkx.Graph]: its nodes with their attributes, and its undirected
    edges with theirs. *)
Record Graph : Type := {
  nodes : list (nat * node_attrs);
  edges : list (nat * nat * edge_attrs)
}.

Definition same_edge (u v : nat) (e : nat * nat * edge_attrs) : bool :=
  let '(a, b, _) := e in
  (Nat.eqb a u && Nat.eqb b v) || (Nat.eqb a v && Nat.eqb b u).

(** [G.add_node(k, **attrs)]. *)
Definition add_node (k : nat) (attrs : node_attrs) (G : Graph) : Graph :=
  {| nodes := dict_setitem Nat.eqb k attrs (nodes G); edges := edges G |}.

(** [G.add_edge(u, v, **attrs)] between two nodes of the graph: an edge
    that exists gets the new attributes.  ([to_networkx] adds a node for
    every atom before it adds edges, and the ends of a bond are atoms of the
    molecule, so [add_edge] has no node to create.) *)
Definition add_edge (u v : nat) (attrs : edge_attrs) (G : Graph) : Graph :=
  {| nodes := nodes G;
     edges := if existsb (same_edge u v) (edges G)
              then map (fun e => if same_edge u v e then (fst (fst e), snd (fst e), attrs) else e)
                       (edges G)
              else edges G ++ [(u, v, attrs)] |}.

(** [G.nodes[k]] and [G.edges[u, v]]. *)
Definition node_getitem (G : Graph) (k : nat) : option node_attrs :=
  dict_getitem Nat.eqb k (nodes G).

Definition edge_getitem (G : Graph) (u v : nat) : option edge_attrs :=
  option_map snd (find (same_edge u v) (edges G)).

(** The attributes [to_networkx] reads from an atom and from a bond. *)
Definition atom_node_attrs (a : Atom) : node_attrs :=
  {| node_atomic_number := atomic_number a;
     node_is_aromatic := atom_is_aromatic a;
     node_stereochemistry := atom_stereochemistry a;
     node_formal_charge := formal_charge a |}.

Definition bond_edge_attrs (b : Bond) : edge_attrs :=
  {| edge_bond_order := bond_order b;
     edge_is_aromatic := bond_is_aromatic b;
     edge_stereochemistry := bond_stereochemistry b |}.

(** [FrozenMolecule.to_networkx]. *)
Definition to_networkx (self : Molecule) : Graph :=
  let with_nodes :=
    fold_left
      (fun G ia => add_node (fst ia) (atom_node_attrs (snd ia)) G)
      (combine (seq 0 (n_atoms self)) (mol_atoms self))
      {| nodes := []; edges := [] |} in
  fold_left
    (fun G bond => add_edge (atom1 bond) (atom2 bond) (bond_edge_attrs bond) G)
    (mol_bonds self) with_nodes.

(** All orderings of a list. *)
Fixpoint insert_everywhere {A} (x : A) (l : list A) : list (list A) :=
  match l with
  | [] => [[x]]
  | y :: l' => (x :: l) :: map (cons y) (insert_everywhere x l')
  end.

Fixpoint permutations {A} (l : list A) : list (list A) :=
  match l with
  | [] => [[]]
  | x :: l' => flat_map (insert_everywhere x) (permutations l')
  end.

(** Whether the pairs [f], read as a map from nodes of [G1] to nodes of
    [G2], keep adjacency and satisfy [node_match] on every node and
    [edge_match] on every edge. *)
Definition is_isomorphism (G1 G2 : Graph)
    (node_match : node_attrs -> node_attrs -> bool)
    (edge_match : option (edge_attrs -> edge_attrs -> bool))
    (f : list (nat * nat)) : bool :=
  forallb (fun p =>
             match node_getitem G1 (fst p), node_getitem G2 (snd p) with
             | Some x, Some y => node_match x y
             | _, _ => false
             end) f
  && forallb (fun p =>
       forallb (fun q =>
                  match edge_getitem G1 (fst p) (fst q), edge_getitem G2 (snd p) (snd q) with
                  | Some x, Some y =>
                      match edge_match with
                      | Some matches => matches x y
                      | None => true
                      end
                  | None, None => true
                  | _, _ => false
                  end) f) f.

(** Stand-in for [networkx]'s [GraphMatcher.isomorphisms_iter]: networkx
    searches with VF2, the stand-in tries every bijection between the node
    sets.  Both find the same set of isomorphisms; the order in which
    networkx yields them is not specified. *)
Definition isomorphisms_iter (G1 G2 : Graph)
    (node_match : node_attrs -> node_attrs -> bool)
    (edge_match : option (edge_attrs -> edge_attrs -> bool))
  : list (list (nat * nat)) :=
  if Nat.eqb (length (nodes G1)) (length (nodes G2)) then
    filter (is_isomorphism G1 G2 node_match edge_match)
           (map (combine (map fst (nodes G1))) (permutations (map fst (nodes G2))))
  else [].

(** Stand-in for [networkx.is_isomorphic]. *)
Definition nx_is_isomorphic (G1 G2 : Graph)
    (node_match : node_attrs -> node_attrs -> bool)
    (edge_match : option (edge_attrs -> edge_attrs -> bool)) : bool :=
  match isomorphisms_iter G1 G2 node_match edge_match with
  | [] => false
  | _ :: _ => true
  end.

(** The matching flags of [are_isomorphic]. *)
Record matching_flags : Type := {
  aromatic_matching : bool;
  formal_charge_matching : bool;
  bond_order_matching : bool;
  atom_stereochemistry_matching : bool;
  bond_stereochemistry_matching : bool
}.

Definition default_flags : matching_flags :=
  {| aromatic_matching := true;
     formal_charge_matching := true;
     bond_order_matching := true;
     atom_stereochemistry_matching := true;
     bond_stereochemistry_matching := true |}.

Definition option_string_eqb (s t : option string) : bool :=
  match s, t with
  | None, None => true
  | Some a, Some b => String.eqb a b
  | _, _ => false
  end.

(** [node_match_func]. *)
Definition node_match_func (flags : matching_flags) (x y : node_attrs) : bool :=
  let is_equal := Z.eqb (node_atomic_number x) (node_atomic_number y) in
  let is_equal :=
    if aromatic_matching flags
    then is_equal && Bool.eqb (node_is_aromatic x) (node_is_aromatic y)
    else is_equal in
  let is_equal :=
    if formal_charge_matching flags
    then is_equal && Z.eqb (node_formal_charge x) (node_formal_charge y)
    else is_equal in
  if atom_stereochemistry_matching flags
  then is_equal && option_string_eqb (node_stereochemistry x) (node_stereochemistry y)
  else is_equal.

(** [edge_match_func], or [None] when no flag asks for bond matching.  The
    local [is_equal] of the source is Python's [None] until a flag sets it;
    a [None] that would be returned counts as false. *)
Definition edge_match_func (flags : matching_flags)
  : option (edge_attrs -> edge_attrs -> bool) :=
  if aromatic_matching flags || bond_order_matching flags
     || bond_stereochemistry_matching flags
  then
    Some (fun x y =>
      let is_equal : option bool :=
        if aromatic_matching flags && bond_order_matching flags then
          Some (Bool.eqb (edge_is_aromatic x) (edge_is_aromatic y)
                || Z.eqb (edge_bond_order x) (edge_bond_order y))
        else if aromatic_matching flags then
          Some (Bool.eqb (edge_is_aromatic x) (edge_is_aromatic y))
        else if bond_order_matching flags then
          Some (Z.eqb (edge_bond_order x) (edge_bond_order y))
        else None in
      let stereo_equal :=
        option_string_eqb (edge_stereochemistry x) (edge_stereochemistry y) in
      let is_equal :=
        if bond_stereochemistry_matching flags then
          match is_equal with
          | None => Some stereo_equal
          | Some b => Some (b && stereo_equal)
          end
        else is_equal in
      match is_equal with
      | Some b => b
      | None => false
      end)
  else None.

(** [FrozenMolecule.are_isomorphic] on two molecules: the boolean and, when
    asked for and found, an atom map ordered by the index in [mol1]. *)
Definition are_isomorphic (mol1 mol2 : Molecule) (return_atom_map : bool)
    (flags : matching_flags) : outcome (bool * option (list (nat * nat))) :=
  match to_hill_formula mol1 with
  | Raise e => Raise e
  | Return formula1 =>
      match to_hill_formula mol2 with
      | Raise e => Raise e
      | Return formula2 =>
          if negb (String.eqb formula1 formula2) then Return (false, None)
          else
            let mol1_netx := to_networkx mol1 in
            let mol2_netx := to_networkx mol2 in
            let node_match := node_match_func flags in
            let edge_match := edge_match_func flags in
            let isomorphic := nx_is_isomorphic mol1_netx mol2_netx node_match edge_match in
            if isomorphic && return_atom_map then
              match isomorphisms_iter mol1_netx mol2_netx node_match edge_match with
              | mapping :: _ =>
                  Return (isomorphic,
                          Some (sorted (fun p q => Nat.leb (fst p) (fst q)) mapping))
              | [] => Raise (Exception "unreachable: isomorphic graphs have an isomorphism")
              end
            else Return (isomorphic, None)
      end
  end.

(** The first component of the result: [are_isomorphic(...)[0]]. *)
Definition molecules_are_isomorphic (r : outcome (bool * option (list (nat * nat))))
  : outcome bool :=
  match r with
  | Return (isomorphic, _) => Return isomorphic
  | Raise e => Raise e
  end.

(** [FrozenMolecule._copy_initializer] on a fresh object: the deep copy
    that [Molecule(other)] makes.  [copy.deepcopy(other)] goes the same
    way, through [__getstate__] ([to_dict]) and [__setstate__]
    ([_initialize_from_dict]). *)
Definition _copy_initializer (other : Molecule) : method Molecule unit :=
  _initialize_from_dict (to_dict other).

Definition deepcopy (other : Molecule) : outcome Molecule :=
  match _copy_initializer other new_Molecule with
  | (Return _, mol) => Return mol
  | (Raise e, _) => Raise e
  end.

(** The pairs of an atom map, read from the second molecule to the first. *)
Definition swap_pair (p : nat * nat) : nat * nat := (snd p, fst p).

End Isomorphism.

(** ** The toolkit registry *)

Section ToolkitRegistry.

(** The arguments and the results of toolkit methods, the exception objects
    they raise, and the exception classes defined below [Exception]. *)
Variables args result pyexception exception_class : Type.

(** [isinstance(e, cls)] for a class [cls] below [Exception]. *)
Variable instance_of : pyexception -> exception_class -> bool.

(** An entry of [raise_exception_types]: [Exception] itself or a subclass. *)
Inductive exception_type : Type :=
| ExceptionBase
| ExceptionSubclass (cls : exception_class).

(** [isinstance(e, exception_type)] for an [e] caught by
    [except Exception as e]. *)
Definition isinstance (e : pyexception) (t : exception_type) : bool :=
  match t with
  | ExceptionBase => true
  | ExceptionSubclass cls => instance_of e cls
  end.

(** A toolkit wrapper: its name and the methods it has.  A method, called
    on arguments, returns a result or raises. *)
Record ToolkitWrapper : Type := {
  toolkit_name : string;
  getattr : string -> option (args -> result + pyexception)
}.

(** [hasattr(toolkit, method_name)]. *)
Definition hasattr (toolkit : ToolkitWrapper) (method_name : string) : bool :=
  match getattr toolkit method_name with
  | Some _ => true
  | None => false
  end.

(** [ToolkitRegistry]: the wrappers in order of precedence. *)
Record ToolkitRegistry : Type := {
  _toolkits : list ToolkitWrapper
}.

(** How [call] ends: with the result of a wrapper, with the exception of a
    wrapper raised again, or with the [ValueError] whose message lists each
    wrapper that was tried with the exception it raised. *)
Inductive call_outcome : Type :=
| Returned (r : result)
| Reraised (e : pyexception)
| RaisedValueError (errors : list (ToolkitWrapper * pyexception)).

(** [ToolkitRegistry.resolve]; [None] where it raises [NotImplementedError]. *)
Definition resolve (self : ToolkitRegistry) (method_name : string)
  : option (args -> result + pyexception) :=
  match find (fun toolkit => hasattr toolkit method_name) (_toolkits self) with
  | Some toolkit => getattr toolkit method_name
  | None => None
  end.

(** The loop of [ToolkitRegistry.call] over the wrappers that remain, with
    the [errors] recorded so far.  Beside the outcome it gives the wrappers
    whose method was invoked, in the order of the invocations. *)
Fixpoint call_loop (toolkits : list ToolkitWrapper) (method_name : string) (a : args)
    (raise_exception_types : list exception_type)
    (errors : list (ToolkitWrapper * pyexception))
  : list ToolkitWrapper * call_outcome :=
  match toolkits with
  | [] => ([], RaisedValueError errors)
  | toolkit :: rest =>
      match getattr toolkit method_name with
      | None => call_loop rest method_name a raise_exception_types errors
      | Some method =>
          match method a with
          | inl r => ([toolkit], Returned r)
          | inr e =>
              if existsb (isinstance e) raise_exception_types
              then ([toolkit], Reraised e)
              else
                let (invoked, out) :=
                  call_loop rest method_name a raise_exception_types
                            (errors ++ [(toolkit, e)]) in
                (toolkit :: invoked, out)
          end
      end
  end.

(** [ToolkitRegistry.call]; [raise_exception_types=None] stands for
    [[Exception]]. *)
Definition call (self : ToolkitRegistry) (method_name : string) (a : args)
    (raise_exception_types : option (list exception_type))
  : list ToolkitWrapper * call_outcome :=
  let types := match raise_exception_types with
               | None => [ExceptionBase]
               | Some ts => ts
               end in
  call_loop (_toolkits self) method_name a types [].

End ToolkitRegistry.

Arguments Returned {args result pyexception} r.
Arguments Reraised {args result pyexception} e.
Arguments RaisedValueError {args result pyexception} errors.

(** ** Well-formed molecules

    The invariant that the calls of a client maintain; the theorems about
    built molecules go through it. *)

(** The bonds and the virtual sites that name the atom at position [p]:
    what [Bond.__init__] and [VirtualSite.__init__] have appended to the
    atom's [_bonds] and [_virtual_sites]. *)
Definition touches (p : nat) (b : Bond) : bool :=
  Nat.eqb (atom1 b) p || Nat.eqb (atom2 b) p.

Definition bonds_of (p : nat) (bonds : list Bond) : list Bond :=
  filter (touches p) bonds.

Definition virtual_sites_of (p : nat) (vsites : list VirtualSite) : list VirtualSite :=
  flat_map (fun v => repeat v (count_occ Nat.eq_dec (vs_atoms v) p)) vsites.

(** [b] is a bond between the atoms at positions [p] and [q]. *)
Definition connects (p q : nat) (b : Bond) : Prop :=
  (atom1 b = p /\ atom2 b = q) \/ (atom1 b = q /\ atom2 b = p).

Definition bonded (m : Molecule) (p q : nat) : Prop :=
  exists b, In b (mol_bonds m) /\ connects p q b.

(** A bond that may follow the bonds [earlier] in a molecule of [n] atoms. *)
Definition bond_ok (n : nat) (earlier : list Bond) (b : Bond) : Prop :=
  atom1 b < n /\ atom2 b < n /\ atom1 b <> atom2 b
  /\ forall c, In c earlier -> ~ connects (atom1 b) (atom2 b) c.

Inductive bonds_ok (n : nat) : list Bond -> Prop :=
| bonds_ok_nil : bonds_ok n []
| bonds_ok_snoc : forall l b, bonds_ok n l -> bond_ok n l b -> bonds_ok n (l ++ [b]).

Definition unit_is (u : unit_t) (q : option Quantity) : Prop :=
  forall x, q = Some x -> q_unit x = u.

Definition geometry_ok (arity : nat) (g : vsite_geometry) : Prop :=
  match g with
  | BondChargeVirtualSite d => q_unit d = angstrom
  | MonovalentLonePairVirtualSite d o i
  | DivalentLonePairVirtualSite d o i =>
      arity = 3 /\ q_unit d = angstrom /\ q_unit o = degree /\ q_unit i = degree
  | TrivalentLonePairVirtualSite d o i =>
      arity = 4 /\ q_unit d = angstrom /\ q_unit o = degree /\ q_unit i = degree
  end.

Definition vsite_ok (n : nat) (v : VirtualSite) : Prop :=
  Forall (fun p => p < n) (vs_atoms v)
  /\ 2 <= length (vs_atoms v)
  /\ geometry_ok (length (vs_atoms v)) (vs_geometry v)
  /\ unit_is elementary_charge (vs_charge_increments v)
  /\ (forall q, vs_charge_increments v = Some q ->
        exists rest, shape (q_value q) = length (vs_atoms v) :: rest)
  /\ unit_is kilojoule_per_mole (vs_epsilon v)
  /\ unit_is angstrom (vs_sigma v)
  /\ (vs_epsilon v = None <-> vs_sigma v = None).

(** The atom objects of a molecule, given what [Atom.to_dict] keeps of them
    and the bonds and virtual sites of the molecule: the back-references of
    the atom at position [p] are the bonds and the sites that name [p]. *)
Definition canonical_atom (vsites : list VirtualSite) (bonds : list Bond)
    (p : nat) (d : atom_dict) : Atom :=
  {| atomic_number := ad_atomic_number d;
     formal_charge := ad_formal_charge d;
     atom_is_aromatic := ad_is_aromatic d;
     atom_stereochemistry := ad_stereochemistry d;
     atom_name := ad_name d;
     atom_bonds := bonds_of p bonds;
     atom_virtual_sites := virtual_sites_of p vsites |}.

Fixpoint canonical_atoms_from (start : nat) (ds : list atom_dict)
    (vsites : list VirtualSite) (bonds : list Bond) : list Atom :=
  match ds with
  | [] => []
  | d :: rest =>
      canonical_atom vsites bonds start d
      :: canonical_atoms_from (S start) rest vsites bonds
  end.

Definition canonical_atoms (ds : list atom_dict) (vsites : list VirtualSite)
    (bonds : list Bond) : list Atom :=
  canonical_atoms_from 0 ds vsites bonds.

Record well_formed (m : Molecule) : Prop := {
  wf_backrefs :
    mol_atoms m
    = canonical_atoms (map Atom_to_dict (mol_atoms m)) (mol_virtual_sites m) (mol_bonds m);
  wf_bonds : bonds_ok (n_atoms m) (mol_bonds m);
  wf_virtual_sites : Forall (vsite_ok (n_atoms m)) (mol_virtual_sites m);
  wf_partial_charges :
    forall q, mol_partial_charges m = Some q ->
      q_unit q = elementary_charge /\ shape (q_value q) = [n_atoms m];
  wf_conformers :
    forall confs, mol_conformers m = Some confs ->
      Forall (fun c => q_unit c = angstrom /\ shape (q_value c) = [n_atoms m; 3]) confs
}.

(** ** Concrete wrappers and molecules for the examples *)

Definition failing_wrapper : ToolkitWrapper unit nat string :=
  {| toolkit_name := "W1";
     getattr := fun name =>
       if String.eqb name "assign_partial_charges"
       then Some (fun _ => inr "ChargeCalculationError")
       else None |}.

Definition working_wrapper : ToolkitWrapper unit nat string :=
  {| toolkit_name := "W2";
     getattr := fun name =>
       if String.eqb name "assign_partial_charges"
       then Some (fun _ => inl 7)
       else None |}.

(** What a molecule owns, without the cached attributes. *)
Definition persistent (m : Molecule) :=
  (mol_name m, mol_atoms m, mol_virtual_sites m, mol_bonds m,
   mol_properties m, mol_partial_charges m, mol_conformers m).

(** The object [_initialize_from_dict] works on, once it has added the
    atoms [ds], the virtual sites [vs] and the bonds [bs]. *)
Definition rebuilt (name : string) (ds : list atom_dict) (vs : list VirtualSite)
    (bs : list Bond) (s : Molecule) : Prop :=
  persistent s = (name, canonical_atoms ds vs bs, vs, bs, [], None, None).

(** A method that leaves the object as it is and whose outcome does not
    depend on the object. *)
Definition pure_method {S A} (c : method S A) : Prop :=
  forall s s', c s = (fst (c s'), s).

(** The molecule after [VirtualSite.__init__] has appended the site [v] to
    its atoms, and after [_add_*_virtual_site] has appended it to the
    molecule and invalidated the cached properties. *)
Definition add_virtual_site_backrefs (v : VirtualSite) (atoms : list nat) (m : Molecule)
  : Molecule :=
  fold_left
    (fun m a => set_atoms (update_nth a (Atom_add_virtual_site v) (mol_atoms m)) m)
    atoms m.

Definition virtual_site_added (v : VirtualSite) (m : Molecule) : Molecule :=
  _invalidate_cached_properties
    (set_virtual_sites (mol_virtual_sites m ++ [v])
       (add_virtual_site_backrefs v (vs_atoms v) m)).

(** [Atom.add_virtual_site], several times. *)
Definition Atom_add_virtual_sites (vsites : list VirtualSite) (a : Atom) : Atom :=
  {| atomic_number := atomic_number a;
     formal_charge := formal_charge a;
     atom_is_aromatic := atom_is_aromatic a;
     atom_stereochemistry := atom_stereochemistry a;
     atom_name := atom_name a;
     atom_bonds := atom_bonds a;
     atom_virtual_sites := atom_virtual_sites a ++ vsites |}.

(** Water without its second bond, and with it: three atoms (O, H, H) and
    the bond O-H, built by the public calls. *)
Definition partial_water : Molecule :=
  snd ((add_atom 8 0 false None None ;;
        add_atom 1 0 false None None ;;
        add_atom 1 0 false None None ;;
        add_bond 0 1 1 false None None) new_Molecule).

Definition water : Molecule :=
  snd (add_bond 0 2 1 false None None partial_water).

(** A hydrogen atom alone. *)
Definition hydrogen_atom : Molecule :=
  snd (add_atom 1 0 false None None new_Molecule).

(** Coordinates for the three atoms of water, in nanometers, and an
    angstrom distance. *)
Definition water_coordinates : pynum :=
  WithUnit {| q_value := {| shape := [3; 3];
                            data := [0; 0; 0; 1; 0; 0; 0; 1; 0]%Z |};
              q_unit := nanometer |}.

Definition one_angstrom : pynum :=
  WithUnit {| q_value := scalar 1%Z; q_unit := angstrom |}.

Definition ninety_degrees : pynum :=
  WithUnit {| q_value := scalar 90%Z; q_unit := degree |}.

(** Partial charges for the three atoms of water. *)
Definition water_charges : pynum :=
  WithUnit {| q_value := {| shape := [3]; data := [-8; 4; 4]%Z |};
              q_unit := elementary_charge |}.

(** Water with a bond-charge site on its first bond, one conformer, partial
    charges, a name and a property. *)
Definition annotated_water : Molecule :=
  @perform sample_externals (Call_set_property "source" (PyStr "example"))
    (@perform sample_externals (Call_set_name (PyStr "water"))
       (@perform sample_externals (Call_set_partial_charges water_charges)
          (@perform sample_externals (Call_add_conformer water_coordinates)
             (@perform sample_externals
                (Call_add_bond_charge_virtual_site [0; 1]%Z one_angstrom no_kwargs)
                water)))).

(** ** More of the molecule: lookups and atom names *)

(** [Atom.bonded_atoms]: the atoms at the other end of the bonds of [self],
    in the order of the bonds. *)
Definition bonded_atoms (self_index : nat) (self : Atom) : list nat :=
  flat_map
    (fun bond => filter (fun atom => negb (Nat.eqb atom self_index)) [atom1 bond; atom2 bond])
    (atom_bonds self).

(** How [get_bond_between] ends: with a bond, with the [IndexError] of
    [self._atoms[i]], or with [NotBondedError]. *)
Inductive bond_lookup : Type :=
| FoundBond (bond : Bond)
| LookupIndexError
| LookupNotBondedError.

(** [FrozenMolecule.get_bond_between], called with two integer indices:
    the first bond of [atom_i] one of whose atoms is not [atom_i] and is
    [atom_j]. *)
Definition get_bond_between (self : Molecule) (i j : Z) : bond_lookup :=
  match py_position (n_atoms self) i with
  | None => LookupIndexError
  | Some pi =>
      match py_position (n_atoms self) j with
      | None => LookupIndexError
      | Some pj =>
          match nth_error (mol_atoms self) pi with
          | None => LookupIndexError
          | Some atom_i =>
              match find (fun bond =>
                            existsb (fun atom => negb (Nat.eqb atom pi) && Nat.eqb atom pj)
                                    [atom1 bond; atom2 bond])
                         (atom_bonds atom_i) with
              | Some bond => FoundBond bond
              | None => LookupNotBondedError
              end
          end
      end
  end.

(** [FrozenMolecule.has_unique_atom_names]: the [set] of the names has as
    many elements as there are atoms. *)
Definition has_unique_atom_names (self : Molecule) : bool :=
  let unique_atom_names := set_union String.eqb [] (map atom_name (mol_atoms self)) in
  if Nat.ltb (length unique_atom_names) (n_atoms self) then false else true.

(** The edge [to_networkx] adds for a bond. *)
Definition bond_edge (b : Bond) : nat * nat * edge_attrs :=
  (atom1 b, atom2 b, bond_edge_attrs b).

(** ** More of the toolkit registry: registration *)

Section ToolkitRegistration.
Variables args result pyexception : Type.

(** The subclasses of [ToolkitWrapper], [type(toolkit)], the constructor of
    a class ([None] where it raises [ToolkitUnavailableException]) and the
    [==] of two wrapper objects, which is their identity. *)
Variable wrapper_class : Type.
Variable class_eqb : wrapper_class -> wrapper_class -> bool.
Variable type_of : ToolkitWrapper args result pyexception -> wrapper_class.
Variable instantiate : wrapper_class -> option (ToolkitWrapper args result pyexception).
Variable same_object :
  ToolkitWrapper args result pyexception -> ToolkitWrapper args result pyexception -> bool.

(** How a method that changes the registry ends: with the registry after
    the call, or with [ToolkitUnavailableException] and the registry as it
    was. *)
Inductive registration : Type :=
| Registered (registry : ToolkitRegistry args result pyexception)
| RaisedToolkitUnavailable.

(** [ToolkitRegistry.register_toolkit], given a class or an instance. *)
Definition register_toolkit (self : ToolkitRegistry args result pyexception)
    (toolkit_wrapper : wrapper_class + ToolkitWrapper args result pyexception)
    (exception_if_unavailable : bool) : registration :=
  match toolkit_wrapper with
  | inl cls =>
      match instantiate cls with
      | Some toolkit => Registered {| _toolkits := _toolkits self ++ [toolkit] |}
      | None =>
          if exception_if_unavailable then RaisedToolkitUnavailable
          else Registered self
      end
  | inr toolkit => Registered {| _toolkits := _toolkits self ++ [toolkit] |}
  end.

(** [ToolkitRegistry.__init__] with [_register_imported_toolkit_wrappers]
    left at [False]: the loop over [toolkit_precedence]. *)
Fixpoint register_all (self : ToolkitRegistry args result pyexception)
    (toolkits_to_register : list (wrapper_class + ToolkitWrapper args result pyexception))
    (exception_if_unavailable : bool) : registration :=
  match toolkits_to_register with
  | [] => Registered self
  | toolkit :: rest =>
      match register_toolkit self toolkit exception_if_unavailable with
      | Registered self' => register_all self' rest exception_if_unavailable
      | RaisedToolkitUnavailable => RaisedToolkitUnavailable
      end
  end.

Definition ToolkitRegistry_init
    (toolkit_precedence : list (wrapper_class + ToolkitWrapper args result pyexception))
    (exception_if_unavailable : bool) : registration :=
  register_all {| _toolkits := [] |} toolkit_precedence exception_if_unavailable.

(** [list.remove(x)]: the list without the first item equal to [x]. *)
Fixpoint list_remove (x : ToolkitWrapper args result pyexception)
    (l : list (ToolkitWrapper args result pyexception))
  : list (ToolkitWrapper args result pyexception) :=
  match l with
  | [] => []
  | y :: l' => if same_object y x then l' else y :: list_remove x l'
  end.

(** [ToolkitRegistry.deregister_toolkit], given a class or an instance. *)
Definition deregister_toolkit (self : ToolkitRegistry args result pyexception)
    (toolkit_wrapper : wrapper_class + ToolkitWrapper args result pyexception)
  : registration :=
  match (match toolkit_wrapper with
         | inl cls => instantiate cls
         | inr toolkit => Some toolkit
         end) with
  | None => RaisedToolkitUnavailable
  | Some wrapper =>
      let toolkits_to_remove :=
        filter (fun toolkit => class_eqb (type_of toolkit) (type_of wrapper))
               (_toolkits self) in
      match toolkits_to_remove with
      | [] => RaisedToolkitUnavailable
      | _ :: _ =>
          Registered
            {| _toolkits :=
                 fold_left (fun toolkits toolkit_to_remove =>
                              list_remove toolkit_to_remove toolkits)
                           toolkits_to_remove (_toolkits self) |}
      end
  end.

End ToolkitRegistration.

Arguments Registered {args result pyexception} registry.
Arguments RaisedToolkitUnavailable {args result pyexception}.

(** The oxygen atom of water, and two named wrappers for the examples of
    the registry. *)
Definition water_oxygen : Atom :=
  nth 0 (mol_atoms water) (Atom_init 0 0 false None None).

Definition same_named (W W' : ToolkitWrapper unit nat string) : bool :=
  String.eqb (toolkit_name W) (toolkit_name W').

(** A molecule with one atom whose atomic number, 0, is not that of an
    element. *)
Definition unknown_element_atom : Molecule :=
  snd (add_atom 0 0 false None None new_Molecule).

(** * Theorems *)

Unset Implicit Arguments.

Lemma sample_externals_ok : ExternalsOk sample_externals.
Proof.
  constructor; simpl.
  - reflexivity.
  - reflexivity.
  - intros [shp d]. reflexivity.
Qed.

(** ** The toolkit registry: precedence and fallback *)

Section RegistryFacts.
Variables args result pyexception exception_class : Type.
Variable instance_of : pyexception -> exception_class -> bool.

Abbreviation Wrapper := (ToolkitWrapper args result pyexception).

Lemma hasattr_false_getattr (W : Wrapper) (name : string) :
  hasattr W name = false -> getattr W name = None.
Proof.
  unfold hasattr. destruct (getattr W name); [discriminate | reflexivity].
Qed.

(** Wrappers without the method are passed over. *)
Lemma call_loop_skip (pre rest : list Wrapper) name a types errors :
  (forall W, In W pre -> hasattr W name = false) ->
  call_loop instance_of (pre ++ rest) name a types errors
  = call_loop instance_of rest name a types errors.
Proof.
  induction pre as [|W pre IH]; intros Hpre; simpl.
  - reflexivity.
  - rewrite (hasattr_false_getattr W name) by (apply Hpre; left; reflexivity).
    apply IH. intros W' HW'. apply Hpre. right. exact HW'.
Qed.

(** When every wrapper that has the method raises an exception that is not
    listed, the loop ends in the aggregate error: one entry per wrapper that
    has the method, in order, after the errors recorded before. *)
Lemma call_loop_all_fail (toolkits : list Wrapper) name a types :
  (forall W f, In W toolkits -> getattr W name = Some f ->
     exists e, f a = inr e /\ existsb (isinstance instance_of e) types = false) ->
  forall errors0, exists errors,
    call_loop instance_of toolkits name a types errors0
    = (map fst errors, RaisedValueError (errors0 ++ errors))
    /\ map fst errors = filter (fun W => hasattr W name) toolkits
    /\ Forall (fun We => exists f, getattr (fst We) name = Some f /\ f a = inr (snd We)) errors.
Proof.
  induction toolkits as [|W rest IH]; intros Hall errors0; simpl.
  - exists []. rewrite app_nil_r. repeat split. constructor.
  - unfold hasattr at 1. destruct (getattr W name) as [f|] eqn:Hf.
    + destruct (Hall W f (or_introl eq_refl) Hf) as [e [Hfa Hnot]].
      rewrite Hfa, Hnot.
      destruct (IH (fun W' f' HW' => Hall W' f' (or_intror HW')) (errors0 ++ [(W, e)]))
        as [errors [Hcall [Hmap Hforall]]].
      exists ((W, e) :: errors). rewrite Hcall. simpl.
      rewrite <- app_assoc. simpl. repeat split.
      * rewrite Hmap. reflexivity.
      * constructor; [|exact Hforall]. exists f. simpl. split; assumption.
    + apply IH. intros W' f' HW'. apply Hall. right. exact HW'.
Qed.

(** C4. In a registry where [W1] is the first wrapper that provides the
    capability [X] and [W2] the next one, [call] invokes [W1] first; an
    exception of [W1] whose type is listed in [raise_exception_types] (by
    default every exception) is raised again at once, without trying [W2];
    an exception that is not listed (as with the empty list) is recorded,
    [W2] is tried and its result returned; and in any registry where every
    wrapper providing [X] raises an exception that is not listed, [call]
    raises the single aggregate [ValueError] that enumerates each wrapper
    tried with its exception. *)
Theorem call_precedence_and_fallback
    (pre mid post : list Wrapper) (W1 W2 : Wrapper) (X : string) (a : args)
    (f1 f2 : args -> result + pyexception) :
  (forall W, In W pre -> hasattr W X = false) ->
  (forall W, In W mid -> hasattr W X = false) ->
  getattr W1 X = Some f1 ->
  getattr W2 X = Some f2 ->
  let registry := {| _toolkits := pre ++ W1 :: mid ++ W2 :: post |} in
  (forall types, exists others,
      fst (call instance_of registry X a types) = W1 :: others)
  /\ (forall e, f1 a = inr e ->
        call instance_of registry X a None = ([W1], Reraised e))
  /\ (forall types e, f1 a = inr e ->
        existsb (isinstance instance_of e) types = true ->
        call instance_of registry X a (Some types) = ([W1], Reraised e))
  /\ (forall types e r, f1 a = inr e ->
        existsb (isinstance instance_of e) types = false ->
        f2 a = inl r ->
        call instance_of registry X a (Some types) = ([W1; W2], Returned r))
  /\ (forall e r, f1 a = inr e -> f2 a = inl r ->
        call instance_of registry X a (Some []) = ([W1; W2], Returned r))
  /\ (forall (toolkits : list Wrapper) types,
        (forall W f, In W toolkits -> getattr W X = Some f ->
           exists e, f a = inr e /\ existsb (isinstance instance_of e) types = false) ->
        exists errors,
          call instance_of {| _toolkits := toolkits |} X a (Some types)
          = (map fst errors, RaisedValueError errors)
          /\ map fst errors = filter (fun W => hasattr W X) toolkits
          /\ Forall (fun We => exists f, getattr (fst We) X = Some f
                                         /\ f a = inr (snd We)) errors).
Proof.
  intros Hpre Hmid H1 H2 registry.
  assert (Hfallback : forall types e r, f1 a = inr e ->
            existsb (isinstance instance_of e) types = false ->
            f2 a = inl r ->
            call instance_of registry X a (Some types) = ([W1; W2], Returned r)).
  { intros types e r He Hnot Hr. unfold call, registry. simpl.
    rewrite call_loop_skip by exact Hpre. simpl.
    rewrite H1, He, Hnot.
    rewrite call_loop_skip by exact Hmid. simpl.
    rewrite H2, Hr. reflexivity. }
  repeat split.
  - intros types. unfold call, registry. simpl.
    rewrite call_loop_skip by exact Hpre. simpl. rewrite H1.
    destruct (f1 a) as [r|e].
    + exists []. reflexivity.
    + destruct (existsb _ _).
      * exists []. reflexivity.
      * destruct (call_loop _ _ _ _ _ _) as [invoked out]. exists invoked. reflexivity.
  - intros e He. unfold call, registry. simpl.
    rewrite call_loop_skip by exact Hpre. simpl. rewrite H1, He. reflexivity.
  - intros types e He Hin. unfold call, registry. simpl.
    rewrite call_loop_skip by exact Hpre. simpl. rewrite H1, He, Hin. reflexivity.
  - exact Hfallback.
  - intros e r He Hr. apply (Hfallback [] e r He eq_refl Hr).
  - intros toolkits types Hall.
    destruct (call_loop_all_fail toolkits X a types Hall []) as [errors H].
    exists errors. exact H.
Qed.

End RegistryFacts.

(** The theorem at a registry of two wrappers, the first of which raises. *)
Lemma call_precedence_and_fallback_witness :
  call String.eqb {| _toolkits := [failing_wrapper; working_wrapper] |}
       "assign_partial_charges" tt None
  = ([failing_wrapper], Reraised "ChargeCalculationError")
  /\ call String.eqb {| _toolkits := [failing_wrapper; working_wrapper] |}
          "assign_partial_charges" tt (Some [])
     = ([failing_wrapper; working_wrapper], Returned 7).
Proof.
  pose proof (call_precedence_and_fallback unit nat string string String.eqb
                [] [] [] failing_wrapper working_wrapper
                "assign_partial_charges" tt
                (fun _ => inr "ChargeCalculationError") (fun _ => inl 7)
                (fun W (H : In W []) => match H with end)
                (fun W (H : In W []) => match H with end)
                eq_refl eq_refl) as H.
  simpl in H.
  destruct H as (_ & Hdefault & _ & _ & Hempty & _).
  split.
  - apply (Hdefault "ChargeCalculationError"). reflexivity.
  - apply (Hempty "ChargeCalculationError" 7); reflexivity.
Defined.

(** ** Methods: generic facts *)

Section MethodFacts.
Context {S : Type}.

(** A property of the object that every step keeps holds after a bind and
    after a loop, whether they return or raise. *)
Lemma bind_preserves {A B} (P : S -> Prop) (m : method S A) (k : A -> method S B) s :
  P (snd (m s)) ->
  (forall a s', P s' -> P (snd (k a s'))) ->
  P (snd (bind m k s)).
Proof.
  intros Hm Hk. unfold bind. destruct (m s) as [[a|e] s']; simpl in *.
  - apply Hk. exact Hm.
  - exact Hm.
Qed.

Lemma for_each_preserves {A} (P : S -> Prop) (xs : list A) (body : A -> method S unit) :
  (forall x s, P s -> P (snd (body x s))) ->
  forall s, P s -> P (snd (for_each xs body s)).
Proof.
  intros Hbody. induction xs as [|x xs IH]; intros s Hs; simpl.
  - exact Hs.
  - apply bind_preserves.
    + apply Hbody. exact Hs.
    + intros _ s' Hs'. apply IH. exact Hs'.
Qed.

Lemma modify_preserves (P : S -> Prop) (f : S -> S) s :
  P (f s) -> P (snd (modify f s)).
Proof. intro H. exact H. Qed.

Lemma ret_preserves {A} (P : S -> Prop) (a : A) s : P s -> P (snd (ret a s)).
Proof. intro H. exact H. Qed.

Lemma raise_preserves {A} (P : S -> Prop) e s : P s -> P (snd (@raise S A e s)).
Proof. intro H. exact H. Qed.

Lemma bind_returns {A B} (m : method S A) (k : A -> method S B) s b s2 :
  bind m k s = (Return b, s2) ->
  exists a s1, m s = (Return a, s1) /\ k a s1 = (Return b, s2).
Proof.
  unfold bind. destruct (m s) as [[a|e] s1]; intro H.
  - exists a, s1. split; [reflexivity | exact H].
  - discriminate.
Qed.

Lemma pure_ret {A} (a : A) : pure_method (@ret S A a).
Proof. intros s s'. reflexivity. Qed.

Lemma pure_raise {A} e : pure_method (@raise S A e).
Proof. intros s s'. reflexivity. Qed.

Lemma pure_assert b : pure_method (@assert S b).
Proof. intros s s'. unfold assert. destruct b; reflexivity. Qed.

Lemma pure_bind {A B} (m : method S A) (k : A -> method S B) :
  pure_method m -> (forall a, pure_method (k a)) -> pure_method (bind m k).
Proof.
  intros Hm Hk s s'. unfold bind.
  rewrite (Hm s s'). destruct (m s') as [[a|e] s1]; simpl.
  - apply Hk.
  - reflexivity.
Qed.

Lemma pure_state {A} (c : method S A) s : pure_method c -> snd (c s) = s.
Proof. intro H. rewrite (H s s). reflexivity. Qed.

Lemma for_each_modify {A} (xs : list A) (f : A -> S -> S) s :
  for_each xs (fun x => modify (f x)) s
  = (Return tt, fold_left (fun s x => f x s) xs s).
Proof.
  revert s. induction xs as [|x xs IH]; intro s; simpl.
  - reflexivity.
  - unfold bind, modify at 1. apply IH.
Qed.

Lemma bind_step_pure {A B} (c : method S A) (k : A -> method S B) s :
  pure_method c ->
  (exists e, c s = (Raise e, s) /\ bind c k s = (Raise e, s))
  \/ (exists a, c s = (Return a, s) /\ bind c k s = k a s).
Proof.
  intro Hc. unfold bind. rewrite (Hc s s).
  destruct (fst (c s)) as [a|e].
  - right. exists a. auto.
  - left. exists e. auto.
Qed.

End MethodFacts.

(** ** Python indexing *)

Lemma py_position_bound n i p : py_position n i = Some p -> p < n.
Proof.
  unfold py_position.
  destruct (0 <=? i)%Z eqn:H0.
  - destruct (i <? Z.of_nat n)%Z eqn:H1; [|discriminate].
    intro H. inversion H. apply Z.leb_le in H0. apply Z.ltb_lt in H1. lia.
  - destruct (- Z.of_nat n <=? i)%Z eqn:H1; [|discriminate].
    intro H. inversion H. apply Z.leb_gt in H0. apply Z.leb_le in H1. lia.
Qed.

Lemma py_position_of_nat n p : p < n -> py_position n (Z.of_nat p) = Some p.
Proof.
  intro H. unfold py_position.
  destruct (0 <=? Z.of_nat p)%Z eqn:H0.
  - destruct (Z.of_nat p <? Z.of_nat n)%Z eqn:H1.
    + rewrite Nat2Z.id. reflexivity.
    + apply Z.ltb_ge in H1. lia.
  - apply Z.leb_gt in H0. lia.
Qed.

Lemma update_nth_length {A} p (f : A -> A) l : length (update_nth p f l) = length l.
Proof.
  revert p. induction l as [|x l IH]; intros [|p]; simpl; auto.
Qed.

Lemma nth_error_update_nth {A} p (f : A -> A) l q :
  nth_error (update_nth p f l) q
  = if Nat.eqb p q then option_map f (nth_error l q) else nth_error l q.
Proof.
  revert p q. induction l as [|x l IH]; intros [|p] [|q]; simpl; auto.
  - destruct (Nat.eqb p q); reflexivity.
Qed.

(** Two lists with the same items at every position are equal. *)
Lemma nth_error_ext {A} (l l' : list A) :
  (forall p, nth_error l p = nth_error l' p) -> l = l'.
Proof.
  revert l'. induction l as [|x l IH]; intros [|y l'] H.
  - reflexivity.
  - specialize (H 0). discriminate.
  - specialize (H 0). discriminate.
  - pose proof (H 0) as H0. simpl in H0. inversion H0. subst.
    f_equal. apply IH. intro p. exact (H (Datatypes.S p)).
Qed.

(** ** The mutation primitives, case by case *)

Ltac unfold_method :=
  unfold bind, ret, raise, get, modify, assert, discard in *.

Section MoleculeFacts.
Context {E : Externals}.

Lemma atom_at_eq i m :
  atom_at i m
  = (match py_position (n_atoms m) i with
     | Some p => Return p
     | None => Raise (IndexError "list index out of range")
     end, m).
Proof.
  unfold atom_at. unfold_method. simpl.
  destruct (py_position (n_atoms m) i); reflexivity.
Qed.

Lemma atoms_at_cases indices m :
  (exists e, atoms_at indices m = (Raise e, m))
  \/ (exists ps, atoms_at indices m = (Return ps, m)
                 /\ Forall2 (fun i p => py_position (n_atoms m) i = Some p) indices ps).
Proof.
  induction indices as [|i rest IH]; simpl.
  - right. exists []. split; [reflexivity | constructor].
  - unfold bind. rewrite atom_at_eq.
    destruct (py_position (n_atoms m) i) as [p|] eqn:Hp.
    + destruct IH as [[e He] | [ps [Hps HF]]].
      * left. exists e. rewrite He. reflexivity.
      * right. exists (p :: ps). rewrite Hps. split; [reflexivity|].
        constructor; assumption.
    + left. eexists. reflexivity.
Qed.

Lemma Forall2_position_bound n indices ps :
  Forall2 (fun i p => py_position n i = Some p) indices ps ->
  Forall (fun p => p < n) ps /\ length ps = length indices.
Proof.
  induction 1 as [|i p indices ps Hp _ [IH1 IH2]]; simpl.
  - split; [constructor | reflexivity].
  - split; [constructor; [eapply py_position_bound; eauto | exact IH1] | f_equal; exact IH2].
Qed.

(** The molecule after a successful [_add_bond] between the positions
    [p1] and [p2]. *)
Lemma _add_bond_cases i1 i2 order ar st fr m :
  (exists e, _add_bond i1 i2 order ar st fr m = (Raise e, m))
  \/ (exists p1 p2 a,
        py_position (n_atoms m) i1 = Some p1
        /\ py_position (n_atoms m) i2 = Some p2
        /\ p1 <> p2
        /\ nth_error (mol_atoms m) p1 = Some a
        /\ existsb (fun bond => Nat.eqb p2 (atom1 bond) || Nat.eqb p2 (atom2 bond))
                   (atom_bonds a) = false
        /\ let b := {| atom1 := p1; atom2 := p2; bond_order := order;
                       bond_is_aromatic := ar; fractional_bond_order := fr;
                       bond_stereochemistry := st |} in
           _add_bond i1 i2 order ar st fr m
           = (Return (length (mol_bonds m)),
              _invalidate_cached_properties
                (set_bonds (mol_bonds m ++ [b])
                   (set_atoms (update_nth p2 (Atom_add_bond b)
                                 (update_nth p1 (Atom_add_bond b) (mol_atoms m))) m)))).
Proof.
  unfold _add_bond. unfold_method. rewrite atom_at_eq.
  destruct (py_position (n_atoms m) i1) as [p1|] eqn:H1; simpl;
    [|left; eexists; reflexivity].
  rewrite atom_at_eq.
  destruct (py_position (n_atoms m) i2) as [p2|] eqn:H2; simpl;
    [|left; eexists; reflexivity].
  destruct (nth_error (mol_atoms m) p1) as [a|] eqn:Ha; [|left; eexists; reflexivity].
  unfold is_bonded_to.
  destruct (Nat.eqb p1 p2) eqn:Heq; [left; eexists; reflexivity|].
  destruct (existsb _ (atom_bonds a)) eqn:Hex; [left; eexists; reflexivity|].
  right. exists p1, p2, a.
  apply Nat.eqb_neq in Heq.
  repeat split; try assumption.
Qed.

(** A failed [_add_bond] leaves the molecule as it was. *)
Lemma _add_bond_raise_unchanged i1 i2 order ar st fr m e :
  fst (_add_bond i1 i2 order ar st fr m) = Raise e ->
  snd (_add_bond i1 i2 order ar st fr m) = m.
Proof.
  destruct (_add_bond_cases i1 i2 order ar st fr m)
    as [[e' He] | (p1 & p2 & a & _ & _ & _ & _ & _ & Heq)].
  - rewrite He. reflexivity.
  - simpl in Heq. rewrite Heq. discriminate.
Qed.

(** *** Virtual sites *)

Lemma in_units_of_unit u q : q_unit (in_units_of u q) = u.
Proof. reflexivity. Qed.

Lemma in_units_of_shape u q : shape (q_value (in_units_of u q)) = shape (q_value q).
Proof. reflexivity. Qed.

Lemma pure_checked_in_units_of u x : pure_method (checked_in_units_of u x).
Proof.
  unfold checked_in_units_of. destruct x as [a|q].
  - apply pure_raise.
  - apply pure_bind; [apply pure_assert | intros _; apply pure_ret].
Qed.

Lemma pure_checked_in_units_of_opt u x : pure_method (checked_in_units_of_opt u x).
Proof.
  unfold checked_in_units_of_opt. destruct x as [x|].
  - apply pure_bind; [apply pure_checked_in_units_of | intros q; apply pure_ret].
  - apply pure_ret.
Qed.

Lemma pure_len x : pure_method (len x).
Proof.
  unfold len. destruct (pynum_shape x); [apply pure_raise | apply pure_ret].
Qed.

Lemma pure_VirtualSite_init_checks atoms kw g :
  pure_method (VirtualSite_init_checks atoms kw g).
Proof.
  unfold VirtualSite_init_checks.
  apply pure_bind.
  { destruct (kw_charge_increments kw); [|apply pure_ret].
    apply pure_bind; [apply pure_len|].
    intros n. destruct (Nat.eqb n (length atoms)); [apply pure_ret | apply pure_raise]. }
  intros _. apply pure_bind.
  { destruct (kw_epsilon kw), (kw_rmin_half kw), (kw_sigma kw);
      first [apply pure_ret | apply pure_raise]. }
  intros sigma. apply pure_bind.
  { destruct (Nat.ltb (length atoms) 2); [apply pure_raise | apply pure_ret]. }
  intros _. apply pure_bind; [apply pure_checked_in_units_of_opt|].
  intros sigma'. apply pure_bind; [apply pure_checked_in_units_of_opt|].
  intros epsilon'. apply pure_bind; [apply pure_checked_in_units_of_opt|].
  intros increments'. apply pure_ret.
Qed.

Lemma checked_in_units_of_returns u x m q m' :
  checked_in_units_of u x m = (Return q, m') ->
  m' = m /\ exists q0, x = WithUnit q0
                       /\ is_compatible u (q_unit q0) = true
                       /\ q = in_units_of u q0.
Proof.
  unfold checked_in_units_of. destruct x as [a|q0]; [discriminate|].
  unfold_method. destruct (is_compatible u (q_unit q0)) eqn:Hc; [|discriminate].
  intro H. inversion H; subst. split; [reflexivity|]. exists q0. auto.
Qed.

Lemma checked_in_units_of_opt_returns u x m q m' :
  checked_in_units_of_opt u x m = (Return q, m') ->
  m' = m
  /\ ((x = None /\ q = None)
      \/ exists q0, x = Some (WithUnit q0)
                    /\ is_compatible u (q_unit q0) = true
                    /\ q = Some (in_units_of u q0)).
Proof.
  unfold checked_in_units_of_opt. destruct x as [x|].
  - intro H. apply bind_returns in H as (q1 & s1 & H1 & H2).
    apply checked_in_units_of_returns in H1 as (-> & q0 & -> & Hc & ->).
    inversion H2; subst. split; [reflexivity|]. right. exists q0. auto.
  - intro H. inversion H; subst. split; [reflexivity|]. left. auto.
Qed.

(** What the checks of [VirtualSite.__init__] guarantee of the site. *)
Lemma VirtualSite_init_checks_returns atoms kw g m v m' :
  VirtualSite_init_checks atoms kw g m = (Return v, m') ->
  m' = m
  /\ vs_atoms v = atoms
  /\ vs_geometry v = g
  /\ vs_name v = kw_name kw
  /\ 2 <= length atoms
  /\ unit_is elementary_charge (vs_charge_increments v)
  /\ (forall q, vs_charge_increments v = Some q ->
        exists rest, shape (q_value q) = length atoms :: rest)
  /\ unit_is kilojoule_per_mole (vs_epsilon v)
  /\ unit_is angstrom (vs_sigma v)
  /\ (vs_epsilon v = None <-> vs_sigma v = None).
Proof.
  unfold VirtualSite_init_checks. intro H.
  apply bind_returns in H as (u1 & s1 & Hci & H).
  apply bind_returns in H as (sigma & s2 & Hsel & H).
  apply bind_returns in H as (u2 & s3 & Hlen & H).
  apply bind_returns in H as (sigma' & s4 & Hsig & H).
  apply bind_returns in H as (epsilon' & s5 & Heps & H).
  apply bind_returns in H as (inc' & s6 & Hinc & H).
  inversion H; subst; clear H. simpl.
  apply checked_in_units_of_opt_returns in Hinc as (-> & Hinc).
  apply checked_in_units_of_opt_returns in Heps as (-> & Heps).
  apply checked_in_units_of_opt_returns in Hsig as (-> & Hsig).
  assert (s3 = s2 /\ 2 <= length atoms) as [-> Hlen2].
  { destruct (Nat.ltb (length atoms) 2) eqn:Hlt; [discriminate|].
    inversion Hlen; subst. apply Nat.ltb_ge in Hlt. auto. }
  assert (s2 = s1 /\ (kw_epsilon kw = None <-> sigma = None)) as [-> Hiff].
  { destruct (kw_epsilon kw), (kw_rmin_half kw), (kw_sigma kw);
      try discriminate; inversion Hsel; subst;
      (split; [reflexivity | split; intro; congruence]). }
  assert (s1 = m) as ->.
  { destruct (kw_charge_increments kw) as [ci|]; [|inversion Hci; reflexivity].
    apply bind_returns in Hci as (n & s0 & Hn & Hci).
    rewrite <- (pure_state (len ci) m (pure_len ci)). rewrite Hn. simpl.
    destruct (Nat.eqb n (length atoms)); [inversion Hci; reflexivity | discriminate]. }
  repeat split; try reflexivity; try assumption.
  - intros x Hx. destruct Hinc as [[_ ->] | (q0 & _ & _ & ->)]; [discriminate|].
    inversion Hx. reflexivity.
  - intros q Hq. destruct Hinc as [[_ ->] | (q0 & Hkw & _ & ->)]; [discriminate|].
    inversion Hq; subst. rewrite in_units_of_shape.
    rewrite Hkw in Hci. apply bind_returns in Hci as (n & s0 & Hn & Hci).
    unfold len in Hn. simpl in Hn.
    destruct (shape (q_value q0)) as [|k rest]; [discriminate|].
    inversion Hn; subst.
    destruct (Nat.eqb n (length atoms)) eqn:Hnl; [|discriminate].
    apply Nat.eqb_eq in Hnl. subst. exists rest. reflexivity.
  - intros x Hx. destruct Heps as [[_ ->] | (q0 & _ & _ & ->)]; [discriminate|].
    inversion Hx. reflexivity.
  - intros x Hx. destruct Hsig as [[_ ->] | (q0 & _ & _ & ->)]; [discriminate|].
    inversion Hx. reflexivity.
  - intro He. destruct Heps as [[Hk _] | (q0 & Hk & _ & ->)]; [|discriminate].
    destruct Hsig as [[_ ->] | (q0 & Hs & _ & _)]; [reflexivity|].
    apply Hiff in Hk. congruence.
  - intro Hs. destruct Hsig as [[Hk _] | (q0 & Hk & _ & ->)]; [|discriminate].
    destruct Heps as [[_ ->] | (q0 & He & _ & _)]; [reflexivity|].
    apply Hiff in Hk. congruence.
Qed.

Lemma add_virtual_site_backrefs_fields v atoms m :
  let m' := add_virtual_site_backrefs v atoms m in
  mol_name m' = mol_name m
  /\ mol_virtual_sites m' = mol_virtual_sites m
  /\ mol_bonds m' = mol_bonds m
  /\ mol_properties m' = mol_properties m
  /\ mol_partial_charges m' = mol_partial_charges m
  /\ mol_conformers m' = mol_conformers m
  /\ mol_cached_smiles m' = mol_cached_smiles m
  /\ mol_propers m' = mol_propers m
  /\ mol_impropers m' = mol_impropers m
  /\ mol_angles m' = mol_angles m
  /\ mol_torsions m' = mol_torsions m
  /\ mol_bondedAtoms m' = mol_bondedAtoms m
  /\ n_atoms m' = n_atoms m.
Proof.
  revert m. induction atoms as [|a atoms IH]; intro m; simpl.
  - repeat split.
  - specialize (IH (set_atoms (update_nth a (Atom_add_virtual_site v) (mol_atoms m)) m)).
    simpl in IH. unfold n_atoms in *. simpl in IH.
    rewrite update_nth_length in IH. exact IH.
Qed.

(** The tail shared by the four [_add_*_virtual_site] methods: the base
    constructor, then the append. *)
Lemma add_virtual_site_tail_cases atom_list kw g m :
  (exists e, (vsite <- VirtualSite_init atom_list kw g ;; append_virtual_site vsite) m
             = (Raise e, m))
  \/ (exists v, VirtualSite_init_checks atom_list kw g m = (Return v, m)
                /\ (vsite <- VirtualSite_init atom_list kw g ;; append_virtual_site vsite) m
                   = (Return (n_virtual_sites m), virtual_site_added v m)).
Proof.
  pose proof (pure_VirtualSite_init_checks atom_list kw g m m) as Hpure.
  destruct (VirtualSite_init_checks atom_list kw g m) as [[v|e] s] eqn:Hchecks;
    simpl in Hpure; inversion Hpure; subst s; clear Hpure.
  - right. exists v. split; [reflexivity|].
    pose proof (VirtualSite_init_checks_returns _ _ _ _ _ _ Hchecks)
      as (_ & Hatoms & _).
    unfold VirtualSite_init, bind. rewrite Hchecks.
    rewrite for_each_modify.
    unfold append_virtual_site, virtual_site_added, add_virtual_site_backrefs.
    unfold_method. simpl.
    destruct (add_virtual_site_backrefs_fields v atom_list m) as (_ & Hvs & _).
    unfold add_virtual_site_backrefs in Hvs. rewrite Hatoms.
    unfold n_virtual_sites. rewrite Hvs. reflexivity.
  - left. exists e. unfold VirtualSite_init, bind. rewrite Hchecks. reflexivity.
Qed.

Lemma atoms_at_step {B} indices (k : list nat -> method Molecule B) m :
  (exists e, bind (atoms_at indices) k m = (Raise e, m))
  \/ (exists ps, Forall2 (fun i p => py_position (n_atoms m) i = Some p) indices ps
                 /\ bind (atoms_at indices) k m = k ps m).
Proof.
  unfold bind.
  destruct (atoms_at_cases indices m) as [[e He] | [ps [Hps HF]]].
  - left. exists e. rewrite He. reflexivity.
  - right. exists ps. rewrite Hps. auto.
Qed.

Ltac step_checked :=
  let e := fresh "e" in
  let q := fresh "q" in
  let Hq := fresh "Hq" in
  let Hstep := fresh "Hstep" in
  match goal with
  | |- context [bind (checked_in_units_of ?u ?x) ?k ?m] =>
      destruct (bind_step_pure (checked_in_units_of u x) k m
                  (pure_checked_in_units_of u x))
        as [(e & _ & Hstep) | (q & Hq & Hstep)];
      rewrite Hstep; clear Hstep; [left; exists e; reflexivity|];
      apply checked_in_units_of_returns in Hq as (_ & ? & ? & ? & ?)
  end.

(** The four [_add_*_virtual_site] methods: a call that raises leaves the
    molecule as it was; a call that returns has appended a site that
    satisfies the checks of its class. *)
Lemma _add_bond_charge_virtual_site_cases atoms distance kw m :
  (exists e, _add_bond_charge_virtual_site atoms distance kw m = (Raise e, m))
  \/ (exists v, vsite_ok (n_atoms m) v
                /\ length (vs_atoms v) = length atoms
                /\ vsite_type (vs_geometry v) = "BondChargeVirtualSite"
                /\ _add_bond_charge_virtual_site atoms distance kw m
                   = (Return (n_virtual_sites m), virtual_site_added v m)).
Proof.
  unfold _add_bond_charge_virtual_site.
  destruct (atoms_at_step atoms
              (fun atom_list =>
                 d <- checked_in_units_of angstrom distance ;;
                 vsite <- VirtualSite_init atom_list kw (BondChargeVirtualSite d) ;;
                 append_virtual_site vsite) m) as [[e He] | (ps & HF & Hstep)].
  { left. exists e. exact He. }
  rewrite Hstep; clear Hstep.
  step_checked. subst.
  destruct (add_virtual_site_tail_cases ps kw
              (BondChargeVirtualSite (in_units_of angstrom x)) m)
    as [[e He] | (v & Hv & Hadd)].
  { left. exists e. exact He. }
  right. exists v.
  apply VirtualSite_init_checks_returns in Hv
    as (_ & Hatoms & Hg & _ & Hlen & Hci & Hshape & Heps & Hsig & Hiff).
  destruct (Forall2_position_bound _ _ _ HF) as [Hbound Hlength].
  split; [|split; [|split]].
  - unfold vsite_ok. rewrite Hatoms, Hg. repeat split; try assumption.
    + apply Hiff.
    + apply Hiff.
  - rewrite Hatoms. exact Hlength.
  - rewrite Hg. reflexivity.
  - exact Hadd.
Qed.

Lemma assert_returns (b : bool) (m m' : Molecule) u :
  assert b m = (Return u, m') -> b = true.
Proof. unfold assert. destruct b; [reflexivity | discriminate]. Qed.

Ltac step_assert :=
  let e := fresh "e" in
  let Ha := fresh "Hassert" in
  let Hstep := fresh "Hstep" in
  match goal with
  | |- context [bind (assert ?b) ?k ?m] =>
      destruct (bind_step_pure (assert b) k m (pure_assert b))
        as [(e & _ & Hstep) | (? & Ha & Hstep)];
      rewrite Hstep; clear Hstep; [left; exists e; reflexivity|];
      apply assert_returns in Ha
  end.

Ltac finish_vsite_cases HF :=
  let e := fresh "e" in
  let He := fresh "He" in
  let v := fresh "v" in
  let Hv := fresh "Hv" in
  let Hadd := fresh "Hadd" in
  match goal with
  | |- context [bind (VirtualSite_init ?ps ?kw ?g) _ ?m] =>
      destruct (add_virtual_site_tail_cases ps kw g m) as [[e He] | (v & Hv & Hadd)];
      [left; exists e; exact He|];
      right; exists v;
      apply VirtualSite_init_checks_returns in Hv
        as (_ & Hatoms & Hg & _ & Hlen & Hci & Hshape & Heps & Hsig & Hiff);
      destruct (Forall2_position_bound _ _ _ HF) as [Hbound Hlength];
      split; [|split; [|split]];
      [ unfold vsite_ok; rewrite Hatoms, Hg; repeat split; try assumption; apply Hiff
      | rewrite Hatoms; exact Hlength
      | rewrite Hg; reflexivity
      | exact Hadd ]
  end.

Lemma _add_monovalent_lone_pair_virtual_site_cases atoms distance out_of_plane in_plane kw m :
  (exists e, _add_monovalent_lone_pair_virtual_site atoms distance out_of_plane in_plane kw m
             = (Raise e, m))
  \/ (exists v, vsite_ok (n_atoms m) v
                /\ length (vs_atoms v) = length atoms
                /\ vsite_type (vs_geometry v) = "MonovalentLonePairVirtualSite"
                /\ _add_monovalent_lone_pair_virtual_site atoms distance out_of_plane in_plane kw m
                   = (Return (n_virtual_sites m), virtual_site_added v m)).
Proof.
  unfold _add_monovalent_lone_pair_virtual_site.
  match goal with
  | |- context [bind (atoms_at atoms) ?k m] =>
      destruct (atoms_at_step atoms k m) as [[e He] | (ps & HF & Hstep)]
  end.
  { left. exists e. exact He. }
  rewrite Hstep; clear Hstep.
  step_checked. step_checked. step_checked. step_assert. subst.
  apply Nat.eqb_eq in Hassert.
  finish_vsite_cases HF.
Qed.

Lemma _add_divalent_lone_pair_virtual_site_cases atoms distance out_of_plane in_plane kw m :
  (exists e, _add_divalent_lone_pair_virtual_site atoms distance out_of_plane in_plane kw m
             = (Raise e, m))
  \/ (exists v, vsite_ok (n_atoms m) v
                /\ length (vs_atoms v) = length atoms
                /\ vsite_type (vs_geometry v) = "DivalentLonePairVirtualSite"
                /\ _add_divalent_lone_pair_virtual_site atoms distance out_of_plane in_plane kw m
                   = (Return (n_virtual_sites m), virtual_site_added v m)).
Proof.
  unfold _add_divalent_lone_pair_virtual_site.
  match goal with
  | |- context [bind (atoms_at atoms) ?k m] =>
      destruct (atoms_at_step atoms k m) as [[e He] | (ps & HF & Hstep)]
  end.
  { left. exists e. exact He. }
  rewrite Hstep; clear Hstep.
  step_checked. step_checked. step_checked. step_assert. subst.
  apply Nat.eqb_eq in Hassert.
  finish_vsite_cases HF.
Qed.

Lemma _add_trivalent_lone_pair_virtual_site_cases atoms distance out_of_plane in_plane kw m :
  (exists e, _add_trivalent_lone_pair_virtual_site atoms distance out_of_plane in_plane kw m
             = (Raise e, m))
  \/ (exists v, vsite_ok (n_atoms m) v
                /\ length (vs_atoms v) = length atoms
                /\ vsite_type (vs_geometry v) = "TrivalentLonePairVirtualSite"
                /\ _add_trivalent_lone_pair_virtual_site atoms distance out_of_plane in_plane kw m
                   = (Return (n_virtual_sites m), virtual_site_added v m)).
Proof.
  unfold _add_trivalent_lone_pair_virtual_site.
  match goal with
  | |- context [bind (atoms_at atoms) ?k m] =>
      destruct (atoms_at_step atoms k m) as [[e He] | (ps & HF & Hstep)]
  end.
  { left. exists e. exact He. }
  rewrite Hstep; clear Hstep.
  step_assert. step_checked. step_checked. step_checked. subst.
  apply Nat.eqb_eq in Hassert.
  finish_vsite_cases HF.
Qed.

End MoleculeFacts.

(** ** Back-references in canonical form *)

Lemma bonds_of_app p l l' : bonds_of p (l ++ l') = bonds_of p l ++ bonds_of p l'.
Proof. unfold bonds_of. apply filter_app. Qed.

Lemma virtual_sites_of_app p l l' :
  virtual_sites_of p (l ++ l') = virtual_sites_of p l ++ virtual_sites_of p l'.
Proof. unfold virtual_sites_of. apply flat_map_app. Qed.

Lemma nth_error_canonical_from start ds vs bs p :
  nth_error (canonical_atoms_from start ds vs bs) p
  = option_map (canonical_atom vs bs (start + p)) (nth_error ds p).
Proof.
  revert start p. induction ds as [|d ds IH]; intros start [|p]; simpl; try reflexivity.
  - rewrite Nat.add_0_r. reflexivity.
  - rewrite IH. rewrite Nat.add_succ_r. reflexivity.
Qed.

Lemma nth_error_canonical ds vs bs p :
  nth_error (canonical_atoms ds vs bs) p
  = option_map (canonical_atom vs bs p) (nth_error ds p).
Proof. unfold canonical_atoms. apply nth_error_canonical_from. Qed.

Lemma length_canonical_from start ds vs bs :
  length (canonical_atoms_from start ds vs bs) = length ds.
Proof.
  revert start. induction ds as [|d ds IH]; intro start; simpl; [reflexivity|].
  f_equal. apply IH.
Qed.

Lemma length_canonical ds vs bs : length (canonical_atoms ds vs bs) = length ds.
Proof. apply length_canonical_from. Qed.

Lemma Atom_to_dict_canonical vs bs p d : Atom_to_dict (canonical_atom vs bs p d) = d.
Proof. destruct d. reflexivity. Qed.

Lemma map_Atom_to_dict_canonical_from start ds vs bs :
  map Atom_to_dict (canonical_atoms_from start ds vs bs) = ds.
Proof.
  revert start. induction ds as [|d ds IH]; intro start; simpl; [reflexivity|].
  rewrite Atom_to_dict_canonical, IH. reflexivity.
Qed.

Lemma map_Atom_to_dict_canonical ds vs bs :
  map Atom_to_dict (canonical_atoms ds vs bs) = ds.
Proof. apply map_Atom_to_dict_canonical_from. Qed.

(** [Bond.__init__] on canonical atoms. *)
Lemma canonical_add_bond ds vs bs b :
  atom1 b <> atom2 b ->
  update_nth (atom2 b) (Atom_add_bond b)
    (update_nth (atom1 b) (Atom_add_bond b) (canonical_atoms ds vs bs))
  = canonical_atoms ds vs (bs ++ [b]).
Proof.
  intro Hneq. apply nth_error_ext. intro p.
  rewrite !nth_error_update_nth, !nth_error_canonical.
  destruct (nth_error ds p) as [d|];
    [|destruct (Nat.eqb (atom2 b) p), (Nat.eqb (atom1 b) p); reflexivity].
  simpl.
  assert (Hcanon : forall t, touches p b = t ->
            canonical_atom vs (bs ++ [b]) p d
            = if t then Atom_add_bond b (canonical_atom vs bs p d)
              else canonical_atom vs bs p d).
  { intros t Ht. unfold canonical_atom, Atom_add_bond. simpl.
    rewrite bonds_of_app. unfold bonds_of at 2. simpl. rewrite Ht.
    destruct t; [reflexivity | rewrite app_nil_r; reflexivity]. }
  unfold touches in Hcanon.
  destruct (Nat.eqb (atom2 b) p) eqn:H2, (Nat.eqb (atom1 b) p) eqn:H1; simpl.
  - apply Nat.eqb_eq in H1, H2. congruence.
  - rewrite (Hcanon true) by reflexivity. reflexivity.
  - rewrite (Hcanon true) by reflexivity. reflexivity.
  - rewrite (Hcanon false) by reflexivity. reflexivity.
Qed.

Lemma Atom_add_virtual_sites_nil a : Atom_add_virtual_sites [] a = a.
Proof. destruct a. unfold Atom_add_virtual_sites. simpl. rewrite app_nil_r. reflexivity. Qed.

Lemma Atom_add_virtual_sites_cons v vs a :
  Atom_add_virtual_sites vs (Atom_add_virtual_site v a) = Atom_add_virtual_sites (v :: vs) a.
Proof.
  unfold Atom_add_virtual_sites, Atom_add_virtual_site. simpl.
  rewrite <- app_assoc. reflexivity.
Qed.

(** [VirtualSite.__init__] appends the site to the atom at [p] once for
    each time the site names [p]. *)
Lemma add_virtual_site_backrefs_nth v atoms m p :
  nth_error (mol_atoms (add_virtual_site_backrefs v atoms m)) p
  = option_map (Atom_add_virtual_sites (repeat v (count_occ Nat.eq_dec atoms p)))
               (nth_error (mol_atoms m) p).
Proof.
  revert m. induction atoms as [|a atoms IH]; intro m; simpl.
  - destruct (nth_error (mol_atoms m) p); simpl; [|reflexivity].
    rewrite Atom_add_virtual_sites_nil. reflexivity.
  - unfold add_virtual_site_backrefs in *. simpl. rewrite IH. simpl.
    rewrite nth_error_update_nth.
    destruct (Nat.eq_dec a p) as [Heq|Hneq].
    + subst. rewrite Nat.eqb_refl.
      destruct (nth_error (mol_atoms m) p); simpl; [|reflexivity].
      rewrite Atom_add_virtual_sites_cons. reflexivity.
    + apply Nat.eqb_neq in Hneq. rewrite Hneq. reflexivity.
Qed.

Lemma canonical_add_virtual_site ds vs bs v m :
  mol_atoms m = canonical_atoms ds vs bs ->
  mol_atoms (add_virtual_site_backrefs v (vs_atoms v) m)
  = canonical_atoms ds (vs ++ [v]) bs.
Proof.
  intro Hm. apply nth_error_ext. intro p.
  rewrite add_virtual_site_backrefs_nth, Hm, !nth_error_canonical.
  destruct (nth_error ds p) as [d|]; simpl; [|reflexivity].
  f_equal. unfold canonical_atom, Atom_add_virtual_sites. simpl.
  rewrite virtual_sites_of_app. unfold virtual_sites_of at 3. simpl.
  rewrite app_nil_r. reflexivity.
Qed.

Lemma bonds_of_out_of_range n bs :
  Forall (fun b => atom1 b < n /\ atom2 b < n) bs -> bonds_of n bs = [].
Proof.
  induction 1 as [|b bs [H1 H2] _ IH]; simpl; [reflexivity|].
  unfold touches.
  destruct (Nat.eqb (atom1 b) n) eqn:E1; [apply Nat.eqb_eq in E1; lia|].
  destruct (Nat.eqb (atom2 b) n) eqn:E2; [apply Nat.eqb_eq in E2; lia|].
  simpl. exact IH.
Qed.

Lemma virtual_sites_of_out_of_range n vs :
  Forall (fun v => Forall (fun p => p < n) (vs_atoms v)) vs -> virtual_sites_of n vs = [].
Proof.
  induction 1 as [|v vs Hv _ IH]; simpl; [reflexivity|].
  rewrite IH. rewrite app_nil_r.
  rewrite (proj1 (count_occ_not_In Nat.eq_dec (vs_atoms v) n)); [reflexivity|].
  intro Hin. rewrite Forall_forall in Hv. specialize (Hv n Hin). lia.
Qed.

(** Appending a new atom to canonical atoms. *)
Lemma canonical_add_atom ds vs bs z q ar st nm :
  Forall (fun b => atom1 b < length ds /\ atom2 b < length ds) bs ->
  Forall (fun v => Forall (fun p => p < length ds) (vs_atoms v)) vs ->
  canonical_atoms ds vs bs ++ [Atom_init z q ar nm st]
  = canonical_atoms (ds ++ [Atom_to_dict (Atom_init z q ar nm st)]) vs bs.
Proof.
  intros Hbs Hvs. apply nth_error_ext. intro p.
  rewrite nth_error_canonical.
  destruct (Nat.lt_ge_cases p (length ds)) as [Hlt|Hge].
  - rewrite nth_error_app1 by (rewrite length_canonical; exact Hlt).
    rewrite nth_error_app1 by exact Hlt.
    apply nth_error_canonical.
  - rewrite nth_error_app2 by (rewrite length_canonical; exact Hge).
    rewrite nth_error_app2 by exact Hge.
    rewrite length_canonical.
    destruct (p - length ds) as [|k] eqn:Hk; simpl.
    + assert (p = length ds) by lia. subst p.
      unfold canonical_atom, Atom_init. simpl.
      rewrite bonds_of_out_of_range by exact Hbs.
      rewrite virtual_sites_of_out_of_range by exact Hvs.
      reflexivity.
    + destruct k; reflexivity.
Qed.

(** ** Every built molecule is well formed *)

Lemma bonds_ok_bounds n l :
  bonds_ok n l -> Forall (fun b => atom1 b < n /\ atom2 b < n) l.
Proof.
  induction 1 as [|l b _ IH (H1 & H2 & _)].
  - constructor.
  - apply Forall_app. split; [exact IH|]. constructor; [auto | constructor].
Qed.

Lemma bonds_ok_mono n n' l : n <= n' -> bonds_ok n l -> bonds_ok n' l.
Proof.
  intros Hle. induction 1 as [|l b _ IH (H1 & H2 & H3 & H4)].
  - constructor.
  - constructor; [exact IH|]. unfold bond_ok. repeat split; try lia; try assumption.
Qed.

Lemma vsite_ok_mono n n' v : n <= n' -> vsite_ok n v -> vsite_ok n' v.
Proof.
  intros Hle (Hat & Hrest). split; [|exact Hrest].
  eapply Forall_impl; [|exact Hat]. simpl. intros p Hp. lia.
Qed.

Lemma well_formed_new : well_formed new_Molecule.
Proof.
  constructor; simpl.
  - reflexivity.
  - constructor.
  - constructor.
  - discriminate.
  - discriminate.
Qed.

(** Being well formed depends on the atoms, the virtual sites, the bonds,
    the charges and the conformers only. *)
Lemma well_formed_same_parts m m' :
  mol_atoms m = mol_atoms m' ->
  mol_virtual_sites m = mol_virtual_sites m' ->
  mol_bonds m = mol_bonds m' ->
  mol_partial_charges m = mol_partial_charges m' ->
  mol_conformers m = mol_conformers m' ->
  well_formed m -> well_formed m'.
Proof.
  intros Hatoms Hvs Hbs Hpc Hconf [H1 H2 H3 H4 H5].
  constructor; unfold n_atoms in *; rewrite <- ?Hatoms, <- ?Hvs, <- ?Hbs, <- ?Hpc, <- ?Hconf;
    assumption.
Qed.

Lemma well_formed_persistent m m' :
  persistent m = persistent m' -> well_formed m -> well_formed m'.
Proof.
  unfold persistent. intros H.
  inversion H as [[Hname Hatoms Hvs Hbs Hprops Hpc Hconf]].
  apply well_formed_same_parts; assumption.
Qed.

Section WellFormed.
Context {E : Externals}.

Lemma well_formed_add_atom z q ar st nm m :
  well_formed m -> well_formed (snd (_add_atom z q ar st nm m)).
Proof.
  intros [H1 H2 H3 H4 H5].
  unfold _add_atom. unfold_method. simpl.
  constructor; simpl; unfold n_atoms; simpl.
  - rewrite map_app. simpl. rewrite <- canonical_add_atom.
    + rewrite <- H1. reflexivity.
    + rewrite length_map. apply bonds_ok_bounds. exact H2.
    + rewrite length_map. eapply Forall_impl; [|exact H3].
      intros v Hv. apply Hv.
  - eapply bonds_ok_mono; [|exact H2]. rewrite length_app. unfold n_atoms. lia.
  - eapply Forall_impl; [|exact H3]. intros v. apply vsite_ok_mono.
    rewrite length_app. unfold n_atoms. lia.
  - discriminate.
  - discriminate.
Qed.

Lemma well_formed_add_bond i1 i2 order ar st fr m :
  well_formed m -> well_formed (snd (_add_bond i1 i2 order ar st fr m)).
Proof.
  intros Hwf.
  destruct (_add_bond_cases i1 i2 order ar st fr m)
    as [[e He] | (p1 & p2 & a & Hp1 & Hp2 & Hneq & Ha & Hex & Heq)].
  { rewrite He. exact Hwf. }
  simpl in Heq. rewrite Heq. simpl.
  destruct Hwf as [H1 H2 H3 H4 H5].
  set (b := {| atom1 := p1; atom2 := p2; bond_order := order; bond_is_aromatic := ar;
               fractional_bond_order := fr; bond_stereochemistry := st |}).
  assert (Hlen : length (update_nth p2 (Atom_add_bond b)
                           (update_nth p1 (Atom_add_bond b) (mol_atoms m)))
                 = length (mol_atoms m)).
  { rewrite !update_nth_length. reflexivity. }
  assert (Hcanon : update_nth p2 (Atom_add_bond b)
                     (update_nth p1 (Atom_add_bond b) (mol_atoms m))
                   = canonical_atoms (map Atom_to_dict (mol_atoms m))
                       (mol_virtual_sites m) (mol_bonds m ++ [b])).
  { rewrite <- (canonical_add_bond (map Atom_to_dict (mol_atoms m))
                  (mol_virtual_sites m) (mol_bonds m) b Hneq).
    rewrite <- H1. reflexivity. }
  constructor; simpl; unfold n_atoms; simpl; rewrite ?Hlen.
  - rewrite Hcanon at 1. rewrite Hcanon. rewrite map_Atom_to_dict_canonical. reflexivity.
  - constructor; [exact H2|].
    unfold bond_ok. simpl.
    apply py_position_bound in Hp1. apply py_position_bound in Hp2.
    repeat split; try assumption.
    intros c Hc Hconn.
    assert (Hin : In c (atom_bonds a)).
    { rewrite H1 in Ha. rewrite nth_error_canonical in Ha.
      destruct (nth_error (map Atom_to_dict (mol_atoms m)) p1); [|discriminate].
      simpl in Ha. inversion Ha. simpl. unfold bonds_of.
      apply filter_In. split; [exact Hc|].
      unfold touches. destruct Hconn as [[-> _] | [_ ->]];
        rewrite Nat.eqb_refl; auto using orb_true_r. }
    assert (Htrue : existsb (fun bond => Nat.eqb p2 (atom1 bond) || Nat.eqb p2 (atom2 bond))
                            (atom_bonds a) = true).
    { apply existsb_exists. exists c. split; [exact Hin|].
      destruct Hconn as [[_ <-] | [<- _]]; rewrite Nat.eqb_refl; auto using orb_true_r. }
    congruence.
  - exact H3.
  - discriminate.
  - discriminate.
Qed.

Lemma well_formed_virtual_site_added v m :
  well_formed m -> vsite_ok (n_atoms m) v -> well_formed (virtual_site_added v m).
Proof.
  intros [H1 H2 H3 H4 H5] Hv.
  destruct (add_virtual_site_backrefs_fields v (vs_atoms v) m)
    as (_ & Hvs & Hbs & _ & _ & _ & _ & _ & _ & _ & _ & _ & Hn).
  assert (Hcanon : mol_atoms (add_virtual_site_backrefs v (vs_atoms v) m)
                   = canonical_atoms (map Atom_to_dict (mol_atoms m))
                       (mol_virtual_sites m ++ [v]) (mol_bonds m)).
  { apply canonical_add_virtual_site. exact H1. }
  unfold virtual_site_added.
  constructor; simpl; unfold n_atoms in *; simpl; rewrite ?Hbs, ?Hn.
  - rewrite Hcanon at 1. rewrite Hcanon. rewrite map_Atom_to_dict_canonical. reflexivity.
  - exact H2.
  - apply Forall_app. split; [exact H3|]. constructor; [exact Hv | constructor].
  - discriminate.
  - discriminate.
Qed.

End WellFormed.

Section MoreCases.
Context {E : Externals}.

Lemma shape_eqb_eq s t : shape_eqb s t = true <-> s = t.
Proof.
  unfold shape_eqb. destruct (list_eq_dec Nat.eq_dec s t); split; congruence.
Qed.

(** [_add_conformer], case by case. *)
Lemma _add_conformer_cases coordinates m :
  (exists e, _add_conformer coordinates m = (Raise e, m))
  \/ (exists q, coordinates = WithUnit q
                /\ shape (q_value q) = [n_atoms m; 3]
                /\ is_compatible angstrom (q_unit q) = true
                /\ _add_conformer coordinates m
                   = (Return (S (n_conformers m)),
                      set_conformers
                        (Some (match mol_conformers m with
                               | None => []
                               | Some confs => confs
                               end ++ [in_units_of angstrom q])) m)).
Proof.
  unfold _add_conformer. unfold_method. simpl.
  destruct (shape_eqb [n_atoms m; 3] (pynum_shape coordinates)) eqn:Hshape; simpl;
    [|left; eexists; reflexivity].
  destruct coordinates as [a|q]; [left; eexists; reflexivity|].
  destruct (is_compatible angstrom (q_unit q)) eqn:Hc; [|left; eexists; reflexivity].
  right. exists q. apply shape_eqb_eq in Hshape. simpl in Hshape.
  repeat split; auto.
  rewrite length_app. unfold n_conformers.
  destruct (mol_conformers m); simpl; rewrite ?Nat.add_1_r; reflexivity.
Qed.

(** The [partial_charges] setter, case by case. *)
Lemma set_partial_charges_property_cases charges m :
  (exists e, set_partial_charges_property charges m = (Raise e, m))
  \/ (exists q, charges = WithUnit q
                /\ shape (q_value q) = [n_atoms m]
                /\ is_compatible elementary_charge (q_unit q) = true
                /\ set_partial_charges_property charges m
                   = (Return tt,
                      set_partial_charges (Some (in_units_of elementary_charge q)) m)).
Proof.
  unfold set_partial_charges_property. unfold_method. simpl.
  destruct charges as [a|q]; [left; eexists; reflexivity|].
  destruct (is_compatible elementary_charge (q_unit q)) eqn:Hc; simpl;
    [|left; eexists; reflexivity].
  destruct (shape_eqb (shape (q_value q)) [n_atoms m]) eqn:Hshape; simpl;
    [|left; eexists; reflexivity].
  right. exists q. apply shape_eqb_eq in Hshape. auto.
Qed.

Lemma well_formed_add_conformer coordinates m :
  well_formed m -> well_formed (snd (_add_conformer coordinates m)).
Proof.
  intros Hwf.
  destruct (_add_conformer_cases coordinates m) as [[e He] | (q & _ & Hshape & _ & Heq)].
  { rewrite He. exact Hwf. }
  rewrite Heq. simpl. destruct Hwf as [H1 H2 H3 H4 H5].
  constructor; simpl; try assumption.
  intros confs Hconfs. inversion Hconfs; subst; clear Hconfs.
  apply Forall_app. split.
  - destruct (mol_conformers m) as [old|]; [apply H5; reflexivity | constructor].
  - constructor; [|constructor]. split; [reflexivity | exact Hshape].
Qed.

Lemma well_formed_set_partial_charges charges m :
  well_formed m -> well_formed (snd (set_partial_charges_property charges m)).
Proof.
  intros Hwf.
  destruct (set_partial_charges_property_cases charges m)
    as [[e He] | (q & _ & Hshape & _ & Heq)].
  { rewrite He. exact Hwf. }
  rewrite Heq. simpl. destruct Hwf as [H1 H2 H3 H4 H5].
  constructor; simpl; try assumption.
  intros q' Hq'. inversion Hq'; subst. split; [reflexivity | exact Hshape].
Qed.

(** The cached topology is built without touching what the molecule owns. *)
Lemma persistent_bondedAtoms_getitem atom m :
  persistent (snd (bondedAtoms_getitem atom m)) = persistent m.
Proof.
  unfold bondedAtoms_getitem. unfold_method. simpl.
  destruct (mol_bondedAtoms m) as [d|]; [|reflexivity].
  destruct (nth_error d atom); reflexivity.
Qed.

Lemma persistent__construct_bonded_atoms_list m :
  persistent (snd (_construct_bonded_atoms_list m)) = persistent m.
Proof.
  unfold _construct_bonded_atoms_list. unfold_method. simpl.
  destruct (mol_bondedAtoms m); reflexivity.
Qed.

Ltac persistent_step :=
  match goal with
  | |- persistent (snd (bind _ _ _)) = _ =>
      apply (bind_preserves (fun s => persistent s = _)); [|intros ? ? ?]
  | |- persistent (snd (for_each _ _ _)) = _ =>
      apply (for_each_preserves (fun s => persistent s = _)); [intros ? ? ?|]
  | |- persistent (snd (bondedAtoms_getitem _ _)) = _ =>
      rewrite persistent_bondedAtoms_getitem
  | |- persistent (snd (_construct_bonded_atoms_list _)) = _ =>
      rewrite persistent__construct_bonded_atoms_list
  | |- persistent (snd ((if ?b then _ else _) _)) = _ => destruct b
  | |- persistent (snd (ret _ _)) = _ => unfold ret; simpl
  | |- persistent (snd (modify _ _)) = _ => unfold modify; simpl
  | |- persistent (snd (angles_add _ _)) = _ => unfold angles_add, modify; simpl
  | |- persistent (snd (propers_add _ _)) = _ => unfold propers_add, modify; simpl
  | |- persistent (snd (impropers_add _ _)) = _ => unfold impropers_add, modify; simpl
  | |- persistent (match ?x with _ => _ end) = _ => destruct x
  | |- persistent (set_angles _ _) = _ => unfold persistent; simpl
  | |- persistent (set_propers _ _) = _ => unfold persistent; simpl
  | |- persistent (set_impropers _ _) = _ => unfold persistent; simpl
  | |- persistent (set_torsions _ _) = _ => unfold persistent; simpl
  | |- _ => assumption
  end.

Lemma persistent__construct_angles m :
  persistent (snd (_construct_angles m)) = persistent m.
Proof.
  unfold _construct_angles.
  apply (bind_preserves (fun s => persistent s = persistent m)); [reflexivity|].
  intros self s Hs. destruct (mol_angles self); [exact Hs|].
  repeat persistent_step.
Qed.

Lemma persistent__construct_torsions m :
  persistent (snd (_construct_torsions m)) = persistent m.
Proof.
  unfold _construct_torsions.
  apply (bind_preserves (fun s => persistent s = persistent m)); [reflexivity|].
  intros self s Hs. destruct (mol_torsions self); [exact Hs|].
  repeat persistent_step.
Qed.

Lemma persistent_after_get {A} (c : method Molecule unit)
    (k : Molecule -> method Molecule A) m :
  persistent (snd (c m)) = persistent m ->
  (forall self s, snd (k self s) = s) ->
  persistent (snd ((c ;; self <- get ;; k self) m)) = persistent m.
Proof.
  intros Hc Hk.
  apply (bind_preserves (fun s => persistent s = persistent m)); [exact Hc|].
  intros _ s Hs. unfold bind, get. simpl.
  destruct (k s s) as [[a|e] s'] eqn:Hks; simpl;
    pose proof (Hk s s) as H; rewrite Hks in H; simpl in H; subst; exact Hs.
Qed.

Lemma persistent_angles m : persistent (snd (angles m)) = persistent m.
Proof.
  unfold angles. apply persistent_after_get; [apply persistent__construct_angles|].
  intros self s. destruct (mol_angles self); reflexivity.
Qed.

Lemma persistent_propers m : persistent (snd (propers m)) = persistent m.
Proof.
  unfold propers. apply persistent_after_get; [apply persistent__construct_torsions|].
  intros self s. destruct (mol_propers self); reflexivity.
Qed.

Lemma persistent_impropers m : persistent (snd (impropers m)) = persistent m.
Proof.
  unfold impropers. apply persistent_after_get; [apply persistent__construct_torsions|].
  intros self s. destruct (mol_impropers self); reflexivity.
Qed.

Lemma persistent_torsions m : persistent (snd (torsions m)) = persistent m.
Proof.
  unfold torsions. apply persistent_after_get; [apply persistent__construct_torsions|].
  intros self s. destruct (mol_torsions self); reflexivity.
Qed.

Lemma snd_discard {A} (c : method Molecule A) m : snd (discard c m) = snd (c m).
Proof. unfold discard, bind, ret. destruct (c m) as [[a|e] s]; reflexivity. Qed.

(** Calls keep a molecule well formed. *)
Lemma perform_well_formed c m : well_formed m -> well_formed (perform c m).
Proof.
  intro Hwf. unfold perform. destruct c; rewrite ?snd_discard.
  - apply well_formed_add_atom. exact Hwf.
  - apply well_formed_add_bond. exact Hwf.
  - destruct (_add_bond_charge_virtual_site_cases atoms distance kw m)
      as [[e He] | (v & Hv & _ & _ & Heq)];
      unfold add_bond_charge_virtual_site; [rewrite He | rewrite Heq]; simpl;
      [exact Hwf | apply well_formed_virtual_site_added; assumption].
  - destruct (_add_monovalent_lone_pair_virtual_site_cases
                atoms distance out_of_plane_angle in_plane_angle kw m)
      as [[e He] | (v & Hv & _ & _ & Heq)];
      unfold add_monovalent_lone_pair_virtual_site; [rewrite He | rewrite Heq]; simpl;
      [exact Hwf | apply well_formed_virtual_site_added; assumption].
  - destruct (_add_divalent_lone_pair_virtual_site_cases
                atoms distance out_of_plane_angle in_plane_angle kw m)
      as [[e He] | (v & Hv & _ & _ & Heq)];
      unfold add_divalent_lone_pair_virtual_site; [rewrite He | rewrite Heq]; simpl;
      [exact Hwf | apply well_formed_virtual_site_added; assumption].
  - destruct (_add_trivalent_lone_pair_virtual_site_cases
                atoms distance out_of_plane_angle in_plane_angle kw m)
      as [[e He] | (v & Hv & _ & _ & Heq)];
      unfold add_trivalent_lone_pair_virtual_site; [rewrite He | rewrite Heq]; simpl;
      [exact Hwf | apply well_formed_virtual_site_added; assumption].
  - apply well_formed_add_conformer. exact Hwf.
  - apply well_formed_set_partial_charges. exact Hwf.
  - eapply well_formed_same_parts; [| | | | |exact Hwf]; destruct name; reflexivity.
  - eapply well_formed_same_parts; [| | | | |exact Hwf]; reflexivity.
  - eapply well_formed_persistent; [|exact Hwf]. symmetry. apply persistent_angles.
  - eapply well_formed_persistent; [|exact Hwf]. symmetry. apply persistent_propers.
  - eapply well_formed_persistent; [|exact Hwf]. symmetry. apply persistent_impropers.
  - eapply well_formed_persistent; [|exact Hwf]. symmetry. apply persistent_torsions.
Qed.

Lemma built_well_formed m : built m -> well_formed m.
Proof.
  induction 1 as [|m c _ IH].
  - apply well_formed_new.
  - apply perform_well_formed. exact IH.
Qed.

End MoreCases.

(** ** Claims about the mutation primitives *)

Lemma bonds_ok_distinct n l b : bonds_ok n l -> In b l -> atom1 b <> atom2 b.
Proof.
  induction 1 as [|l c _ IH (_ & _ & Hneq & _)]; intro Hin.
  - destruct Hin.
  - apply in_app_or in Hin. destruct Hin as [Hin | [<- | []]]; auto.
Qed.

Section MutationClaims.
Context {E : Externals}.

Lemma built_partial_water : built partial_water.
Proof.
  assert (Hcalls : partial_water
                   = perform (Call_add_bond 0 1 1 false None None)
                       (perform (Call_add_atom 1 0 false None None)
                          (perform (Call_add_atom 1 0 false None None)
                             (perform (Call_add_atom 8 0 false None None)
                                new_Molecule))))
    by (vm_compute; reflexivity).
  rewrite Hcalls. repeat apply built_call. apply built_new.
Qed.

(** In a well-formed molecule, [_add_bond] between two bonded atoms raises
    and changes nothing. *)
Lemma _add_bond_bonded i j p q order ar st fr m :
  well_formed m ->
  py_position (n_atoms m) i = Some p ->
  py_position (n_atoms m) j = Some q ->
  bonded m p q ->
  _add_bond i j order ar st fr m = (Raise (Exception "Bond already exists"), m).
Proof.
  intros Hwf Hp Hq (b & Hin & Hconn).
  pose proof (bonds_ok_distinct _ _ _ (wf_bonds Hwf) Hin) as Hneq.
  assert (Hpq : p <> q) by (destruct Hconn as [[<- <-] | [<- <-]]; auto).
  pose proof (py_position_bound _ _ _ Hp) as Hbound.
  destruct (nth_error (mol_atoms m) p) as [a|] eqn:Ha;
    [|apply nth_error_None in Ha; unfold n_atoms in Hbound; lia].
  assert (Hex : existsb (fun bond => Nat.eqb q (atom1 bond) || Nat.eqb q (atom2 bond))
                        (atom_bonds a) = true).
  { apply existsb_exists. exists b. split.
    - pose proof (wf_backrefs Hwf) as Hcanon. rewrite Hcanon in Ha.
      rewrite nth_error_canonical in Ha.
      destruct (nth_error (map Atom_to_dict (mol_atoms m)) p); [|discriminate].
      inversion Ha. simpl. apply filter_In. split; [exact Hin|].
      unfold touches. destruct Hconn as [[-> _] | [_ ->]];
        rewrite Nat.eqb_refl; auto using orb_true_r.
    - destruct Hconn as [[_ <-] | [<- _]]; rewrite Nat.eqb_refl; auto using orb_true_r. }
  unfold _add_bond. unfold_method. rewrite atom_at_eq, Hp. simpl.
  rewrite atom_at_eq, Hq. simpl. rewrite Ha. unfold is_bonded_to.
  apply Nat.eqb_neq in Hpq. rewrite Hpq, Hex. reflexivity.
Qed.

(** C3. In a molecule built by a client, adding a bond between two atoms
    that a bond already connects raises, whichever atom is named first,
    and leaves the molecule as it was: its bond list keeps its length and
    its contents. *)
Theorem add_bond_between_bonded_atoms_rejected m i j p q order ar st fr :
  built m ->
  py_position (n_atoms m) i = Some p ->
  py_position (n_atoms m) j = Some q ->
  bonded m p q ->
  add_bond i j order ar st fr m = (Raise (Exception "Bond already exists"), m)
  /\ add_bond j i order ar st fr m = (Raise (Exception "Bond already exists"), m)
  /\ mol_bonds (snd (add_bond i j order ar st fr m)) = mol_bonds m
  /\ mol_bonds (snd (add_bond j i order ar st fr m)) = mol_bonds m.
Proof.
  intros Hbuilt Hp Hq Hbonded.
  pose proof (built_well_formed m Hbuilt) as Hwf.
  assert (Hij : add_bond i j order ar st fr m
                = (Raise (Exception "Bond already exists"), m)).
  { apply (_add_bond_bonded i j p q); assumption. }
  assert (Hji : add_bond j i order ar st fr m
                = (Raise (Exception "Bond already exists"), m)).
  { apply (_add_bond_bonded j i q p); try assumption.
    destruct Hbonded as (b & Hin & Hconn). exists b. split; [exact Hin|].
    unfold connects in *. tauto. }
  rewrite Hij, Hji. auto.
Qed.

(** C10. For a coordinate array of shape [(n_atoms, 3)] that carries a unit
    of length, [add_conformer] returns the new number of conformers, which
    is one more than the index of the conformer it appended, and leaves the
    conformers stored before, the partial charges and the cached topology
    as they were. *)
Theorem add_conformer_appends m q :
  shape (q_value q) = [n_atoms m; 3] ->
  is_compatible angstrom (q_unit q) = true ->
  let m' := snd (add_conformer (WithUnit q) m) in
  let stored := match mol_conformers m with
                | None => []
                | Some confs => confs
                end in
  fst (add_conformer (WithUnit q) m) = Return (n_conformers m + 1)
  /\ n_conformers m' = n_conformers m + 1
  /\ mol_conformers m' = Some (stored ++ [in_units_of angstrom q])
  /\ (exists confs', mol_conformers m' = Some confs'
                     /\ nth_error confs' (n_conformers m) = Some (in_units_of angstrom q)
                     /\ firstn (n_conformers m) confs' = stored)
  /\ mol_partial_charges m' = mol_partial_charges m
  /\ mol_angles m' = mol_angles m
  /\ mol_propers m' = mol_propers m
  /\ mol_impropers m' = mol_impropers m
  /\ mol_torsions m' = mol_torsions m
  /\ mol_bondedAtoms m' = mol_bondedAtoms m
  /\ mol_atoms m' = mol_atoms m
  /\ mol_bonds m' = mol_bonds m
  /\ mol_virtual_sites m' = mol_virtual_sites m.
Proof.
  intros Hshape Hunit. cbv zeta.
  destruct (_add_conformer_cases (WithUnit q) m) as [[e He] | (q' & Hq' & _ & _ & Heq)].
  - exfalso. unfold _add_conformer in He. unfold_method. simpl in He.
    rewrite Hshape in He.
    replace (shape_eqb [n_atoms m; 3] [n_atoms m; 3]) with true in He
      by (symmetry; apply shape_eqb_eq; reflexivity).
    simpl in He. rewrite Hunit in He. discriminate.
  - inversion Hq'; subst q'. unfold add_conformer. rewrite Heq. simpl.
    set (stored := match mol_conformers m with
                   | None => []
                   | Some confs => confs
                   end).
    assert (Hlen : length stored = n_conformers m).
    { unfold stored, n_conformers. destruct (mol_conformers m); reflexivity. }
    repeat split.
    + rewrite Nat.add_1_r. reflexivity.
    + unfold n_conformers at 1. simpl. rewrite length_app. simpl. lia.
    + exists (stored ++ [in_units_of angstrom q]). repeat split.
      * rewrite nth_error_app2 by lia. rewrite Hlen, Nat.sub_diag. reflexivity.
      * rewrite <- Hlen. rewrite firstn_app, Nat.sub_diag, firstn_all. simpl.
        apply app_nil_r.
Qed.

End MutationClaims.

(** C3 at the molecule O-H, H: a second bond between the oxygen and the
    first hydrogen is rejected. *)
Lemma add_bond_between_bonded_atoms_rejected_witness :
  add_bond 1 0 2 true None None partial_water
  = (Raise (Exception "Bond already exists"), partial_water).
Proof.
  assert (Hbuilt : @built sample_externals partial_water).
  { assert (Hcalls : partial_water
                     = @perform sample_externals (Call_add_bond 0 1 1 false None None)
                         (@perform sample_externals (Call_add_atom 1 0 false None None)
                            (@perform sample_externals (Call_add_atom 1 0 false None None)
                               (@perform sample_externals (Call_add_atom 8 0 false None None)
                                  new_Molecule))))
      by (vm_compute; reflexivity).
    rewrite Hcalls. repeat apply @built_call. apply @built_new. }
  apply (@add_bond_between_bonded_atoms_rejected sample_externals
           partial_water 0 1 0 1 2 true None None Hbuilt eq_refl eq_refl).
  exists {| atom1 := 0; atom2 := 1; bond_order := 1; bond_is_aromatic := false;
            fractional_bond_order := None; bond_stereochemistry := None |}.
  split.
  - left. reflexivity.
  - left. split; reflexivity.
Defined.

(** C10 at water and coordinates in nanometers: the first conformer is
    stored and the call returns 1. *)
Lemma add_conformer_appends_witness :
  fst (@add_conformer sample_externals water_coordinates water) = Return 1
  /\ n_conformers (snd (@add_conformer sample_externals water_coordinates water)) = 1.
Proof.
  pose proof (@add_conformer_appends sample_externals water
                {| q_value := {| shape := [3; 3];
                                 data := [0; 0; 0; 1; 0; 0; 0; 1; 0]%Z |};
                   q_unit := nanometer |} eq_refl eq_refl) as H.
  cbv zeta in H. destruct H as (Hret & Hn & _).
  split; [exact Hret | exact Hn].
Defined.

(** ** Cache invalidation *)

(** The part of the invalidation that holds: whatever a molecule held, its
    conformers and partial charges are gone after an atom, a bond or a
    virtual site has been added. *)
Lemma _invalidate_cached_properties_clears m :
  mol_conformers (_invalidate_cached_properties m) = None
  /\ mol_partial_charges (_invalidate_cached_properties m) = None
  /\ mol_propers (_invalidate_cached_properties m) = Some None
  /\ mol_impropers (_invalidate_cached_properties m) = Some None
  /\ mol_angles (_invalidate_cached_properties m) = mol_angles m
  /\ mol_torsions (_invalidate_cached_properties m) = mol_torsions m
  /\ mol_bondedAtoms (_invalidate_cached_properties m) = mol_bondedAtoms m.
Proof. repeat split. Qed.

Section Invalidation.
Context {E : Externals}.


(** Once the angles are cached, the [angles] property returns the cached
    set, whatever the bonds of the molecule are by then. *)
Lemma angles_cached m s : mol_angles m = Some s -> angles m = (Return s, m).
Proof.
  intro H. unfold angles, _construct_angles. unfold_method. simpl. rewrite H. simpl.
  rewrite H. reflexivity.
Qed.

End Invalidation.

(** C2, evaluated on the code.  In the molecule O-H, H the client reads the
    angles (there is none), then bonds the second hydrogen to the oxygen.
    The conformers and the charges are cleared and the proper and improper
    torsions are reset to [None]; but the angles read after that are still
    the empty set computed before, while the bond graph H-O-H has the angle
    [(1, 0, 2)], as a molecule with the same bonds and no cache reports.
    Likewise torsions computed before a mutation are never computed again:
    [propers] then returns [None] and [n_propers] raises. *)
Theorem angles_stale_after_add_bond :
  let mutated :=
    snd ((angles ;; propers ;; add_bond 0 2 1 false None None) partial_water) in
  fst ((angles ;; propers ;; add_bond 0 2 1 false None None) partial_water) = Return 1
  /\ mol_bonds mutated = mol_bonds water
  /\ mol_conformers mutated = None
  /\ mol_partial_charges mutated = None
  /\ fst (angles mutated) = Return []
  /\ fst (angles water) = Return [(1, 0, 2)]
  /\ fst (propers mutated) = Return None
  /\ fst (n_propers mutated) = Raise (TypeError "object of type 'NoneType' has no len()")
  /\ fst (n_propers water) = Return 0.
Proof.
  vm_compute. repeat split.
Qed.

(** ** Arity of virtual sites *)

(** A bond-charge site over three atoms is accepted and appended: the
    class has no check of the number of its atoms beyond needing two. *)
Lemma bond_charge_site_with_three_atoms_accepted :
  length [0; 1; 2]%Z <> 2
  /\ fst (@add_bond_charge_virtual_site sample_externals [0; 1; 2]%Z one_angstrom
            no_kwargs water) = Return 0
  /\ n_virtual_sites (snd (@add_bond_charge_virtual_site sample_externals [0; 1; 2]%Z
                             one_angstrom no_kwargs water)) = 1
  /\ n_virtual_sites water = 0.
Proof.
  split; [discriminate|]. vm_compute. repeat split.
Qed.

Section Arity.
Context {E : Externals}.

(** C6, as the code has it.  A monovalent or divalent lone-pair site over a
    list of other than three atoms, a trivalent one over other than four,
    and a bond-charge site over fewer than two fail, and the molecule is
    left as it was: no site is appended.  (A bond-charge site over more
    than two atoms is accepted.) *)
Theorem virtual_site_arity_checked m atoms distance out_of_plane in_plane kw :
  (length atoms <> 3 ->
     (exists e, add_monovalent_lone_pair_virtual_site atoms distance out_of_plane in_plane
                  kw m = (Raise e, m))
     /\ (exists e, add_divalent_lone_pair_virtual_site atoms distance out_of_plane in_plane
                     kw m = (Raise e, m)))
  /\ (length atoms <> 4 ->
        exists e, add_trivalent_lone_pair_virtual_site atoms distance out_of_plane in_plane
                    kw m = (Raise e, m))
  /\ (length atoms < 2 ->
        exists e, add_bond_charge_virtual_site atoms distance kw m = (Raise e, m)).
Proof.
  split; [|split]; [intro Hlen; split| |].
  - destruct (_add_monovalent_lone_pair_virtual_site_cases atoms distance out_of_plane
                in_plane kw m) as [He | (v & Hv & Hl & Ht & _)]; [exact He|].
    exfalso. destruct Hv as (_ & _ & Hg & _).
    destruct (vs_geometry v); simpl in Ht, Hg; try discriminate. lia.
  - destruct (_add_divalent_lone_pair_virtual_site_cases atoms distance out_of_plane
                in_plane kw m) as [He | (v & Hv & Hl & Ht & _)]; [exact He|].
    exfalso. destruct Hv as (_ & _ & Hg & _).
    destruct (vs_geometry v); simpl in Ht, Hg; try discriminate. lia.
  - intro Hlen.
    destruct (_add_trivalent_lone_pair_virtual_site_cases atoms distance out_of_plane
                in_plane kw m) as [He | (v & Hv & Hl & Ht & _)]; [exact He|].
    exfalso. destruct Hv as (_ & _ & Hg & _).
    destruct (vs_geometry v); simpl in Ht, Hg; try discriminate. lia.
  - intro Hlen.
    destruct (_add_bond_charge_virtual_site_cases atoms distance kw m)
      as [He | (v & Hv & Hl & _)]; [exact He|].
    exfalso. destruct Hv as (_ & H2 & _). lia.
Qed.

End Arity.

(** The theorem at water: a monovalent site over two atoms and a
    bond-charge site over one are rejected. *)
Lemma virtual_site_arity_checked_witness :
  (exists e, @add_monovalent_lone_pair_virtual_site sample_externals [0; 1]%Z one_angstrom
               ninety_degrees ninety_degrees no_kwargs water = (Raise e, water))
  /\ (exists e, @add_trivalent_lone_pair_virtual_site sample_externals [0; 1]%Z one_angstrom
                  ninety_degrees ninety_degrees no_kwargs water = (Raise e, water))
  /\ (exists e, @add_bond_charge_virtual_site sample_externals [0]%Z one_angstrom
                  no_kwargs water = (Raise e, water)).
Proof.
  split; [|split].
  - apply (proj1 (@virtual_site_arity_checked sample_externals water [0; 1]%Z one_angstrom
                    ninety_degrees ninety_degrees no_kwargs)).
    simpl. lia.
  - apply (proj1 (proj2 (@virtual_site_arity_checked sample_externals water [0; 1]%Z
                           one_angstrom ninety_degrees ninety_degrees no_kwargs))).
    simpl. lia.
  - apply (proj2 (proj2 (@virtual_site_arity_checked sample_externals water [0]%Z
                           one_angstrom ninety_degrees ninety_degrees no_kwargs))).
    simpl. lia.
Defined.

(** ** [remap] and partial charges *)

(** The empty molecule has no charges, and [remap] with the empty mapping
    returns: its charge loop has no turn in which to subscript [None]. *)
Lemma remap_of_empty_molecule_returns :
  mol_partial_charges new_Molecule = None
  /\ @remap sample_externals new_Molecule [] true
     = Return (set_partial_charges
                 (Some {| q_value := {| shape := [0]; data := [] |};
                          q_unit := elementary_charge |})
                 new_Molecule).
Proof. split; reflexivity. Qed.

Section RemapCharges.
Context {E : Externals}.

Lemma bind_raises {S A B} (c : method S A) (k : A -> method S B) s :
  (forall a s', exists e, fst (k a s') = Raise e) ->
  exists e, fst (bind c k s) = Raise e.
Proof.
  intro Hk. unfold bind. destruct (c s) as [[a|e] s'].
  - apply Hk.
  - exists e. reflexivity.
Qed.

(** With no charges and at least one atom, the charge loop raises in its
    first turn. *)
Lemma remap_charges_raises self new_to_cur start :
  mol_partial_charges self = None ->
  1 <= n_atoms self ->
  exists e, fst (remap_charges self new_to_cur start) = Raise e.
Proof.
  intros Hnone Hn. unfold remap_charges.
  destruct (n_atoms self) as [|n]; [lia|]. simpl.
  unfold bind at 1. unfold bind at 1. unfold getitem_or.
  destruct (dict_getitem Z.eqb 0%Z new_to_cur) as [cur|]; simpl.
  - rewrite Hnone. simpl. eexists. reflexivity.
  - eexists. reflexivity.
Qed.

Lemma filled_raises {S} fill start (s : S) :
  (exists e, fst (fill start) = Raise e) ->
  exists e, fst (filled fill start s) = Raise e.
Proof.
  intros [e He]. unfold filled. destruct (fill start) as [[u|e'] a]; simpl in *.
  - discriminate.
  - exists e'. reflexivity.
Qed.

Lemma add_conformer_keeps_charges coordinates m :
  mol_partial_charges (snd (add_conformer coordinates m)) = mol_partial_charges m.
Proof.
  unfold add_conformer.
  destruct (_add_conformer_cases coordinates m) as [[e He] | (q & _ & _ & _ & Heq)].
  - rewrite He. reflexivity.
  - rewrite Heq. reflexivity.
Qed.

(** C9, as the code has it.  For a molecule with at least one atom and no
    partial charges, [remap] raises for every mapping, in either direction
    of the mapping; and whenever [remap] returns a molecule, that molecule
    has a charge array, never [None]. *)
Theorem remap_without_charges_raises self mapping_dict current_to_new :
  (mol_partial_charges self = None -> 1 <= n_atoms self ->
     exists e, remap self mapping_dict current_to_new = Raise e)
  /\ (forall new_molecule,
        remap self mapping_dict current_to_new = Return new_molecule ->
        mol_partial_charges new_molecule <> None).
Proof.
  split.
  - intros Hnone Hn. unfold remap.
    destruct (negb (Nat.eqb (n_virtual_sites self) 0)); [eexists; reflexivity|].
    destruct (negb (Nat.eqb (length mapping_dict) (n_atoms self))); [eexists; reflexivity|].
    match goal with
    | |- exists e, match ?build new_Molecule with _ => _ end = _ =>
        assert (Hraise : exists e, fst (build new_Molecule) = Raise e)
    end.
    { apply bind_raises. intros _ s1.
      apply bind_raises. intros _ s2.
      apply bind_raises. intros _ s3.
      apply bind_raises. intros _ s4.
      unfold bind.
      destruct (filled_raises
                  (remap_charges self
                     (if current_to_new then inverted mapping_dict else mapping_dict))
                  (zeros [n_atoms self]) s4
                  (remap_charges_raises self _ _ Hnone Hn)) as [e He].
      destruct (filled _ _ s4) as [[a|e'] s5]; simpl in He; [discriminate|].
      exists e'. reflexivity. }
    destruct Hraise as [e He].
    match goal with
    | |- exists e, match ?x with _ => _ end = _ => destruct x as [[u|e'] s]
    end; simpl in He; [discriminate|].
    exists e'. reflexivity.
  - intros new_molecule. unfold remap.
    destruct (negb (Nat.eqb (n_virtual_sites self) 0)); [discriminate|].
    destruct (negb (Nat.eqb (length mapping_dict) (n_atoms self))); [discriminate|].
    match goal with
    | |- match ?build new_Molecule with _ => _ end = _ -> _ =>
        destruct (build new_Molecule) as [[u|e] s] eqn:Hbuild
    end; [|discriminate].
    intro H. inversion H; subst s; clear H.
    apply bind_returns in Hbuild as (u1 & s1 & _ & Hbuild).
    apply bind_returns in Hbuild as (u2 & s2 & _ & Hbuild).
    apply bind_returns in Hbuild as (u3 & s3 & _ & Hbuild).
    apply bind_returns in Hbuild as (u4 & s4 & _ & Hbuild).
    apply bind_returns in Hbuild as (new_charges & s5 & _ & Hbuild).
    apply bind_returns in Hbuild as (u6 & s6 & Hset & Hbuild).
    assert (Hs6 : mol_partial_charges s6 <> None).
    { destruct (set_partial_charges_property_cases
                  (WithUnit {| q_value := new_charges; q_unit := elementary_charge |}) s5)
        as [[e He] | (q & _ & _ & _ & Heq)].
      - rewrite He in Hset. discriminate.
      - rewrite Heq in Hset. inversion Hset. simpl. discriminate. }
    assert (Hkeep : mol_partial_charges new_molecule = mol_partial_charges s6).
    { change new_molecule with (snd (Return u, new_molecule)). rewrite <- Hbuild.
      apply (bind_preserves (fun s => mol_partial_charges s = mol_partial_charges s6)).
      - destruct (mol_conformers self) as [confs|]; [|reflexivity].
        apply (for_each_preserves (fun s => mol_partial_charges s = mol_partial_charges s6));
          [|reflexivity].
        intros conformer s Hs. unfold bind.
        destruct (filled _ _ s) as [[a|e] s'] eqn:Hfilled.
        + assert (s' = s) as ->.
          { unfold filled in Hfilled.
            destruct (remap_conformer _ _ _ _) as [[u'|e'] a'];
              unfold ret, raise in Hfilled; inversion Hfilled; reflexivity. }
          rewrite snd_discard. rewrite add_conformer_keeps_charges. exact Hs.
        + assert (s' = s) as ->.
          { unfold filled in Hfilled.
            destruct (remap_conformer _ _ _ _) as [[u'|e'] a'];
              unfold ret, raise in Hfilled; inversion Hfilled; reflexivity. }
          exact Hs.
      - intros _ s Hs. exact Hs. }
    rewrite Hkeep. exact Hs6.
Qed.

(** C7, evaluated on the code.  A hydrogen atom alone, with no partial
    charges, cannot be remapped even by the identity: the charge loop
    subscripts [None].  With charges set, the same call returns. *)
Theorem remap_identity_of_uncharged_atom_raises :
  mol_partial_charges hydrogen_atom = None
  /\ remap hydrogen_atom [(0, 0)]%Z true
     = Raise (TypeError "'NoneType' object is not subscriptable")
  /\ returned
       (remap (set_partial_charges
                 (Some {| q_value := {| shape := [1]; data := [0%Z] |};
                          q_unit := elementary_charge |})
                 hydrogen_atom) [(0, 0)]%Z true) = true.
Proof.
  repeat split.
Qed.

End RemapCharges.

(** C9 at the hydrogen atom and the identity mapping. *)
Lemma remap_without_charges_raises_witness :
  exists e, @remap sample_externals hydrogen_atom [(0, 0)]%Z true = Raise e.
Proof.
  apply (proj1 (@remap_without_charges_raises sample_externals hydrogen_atom
                  [(0, 0)]%Z true)).
  - reflexivity.
  - vm_compute. lia.
Defined.

(** ** Graph isomorphism *)

Lemma insert_everywhere_sound {A} (x : A) l p :
  In p (insert_everywhere x l) -> Permutation (x :: l) p.
Proof.
  revert p. induction l as [|y l IH]; intros p Hin; simpl in Hin.
  - destruct Hin as [<- | []]. apply Permutation_refl.
  - destruct Hin as [<- | Hin]; [apply Permutation_refl|].
    apply in_map_iff in Hin as (p' & <- & Hp').
    apply Permutation_trans with (y :: x :: l); [apply perm_swap|].
    apply perm_skip. apply IH. exact Hp'.
Qed.

Lemma permutations_sound {A} (l p : list A) :
  In p (permutations l) -> Permutation l p.
Proof.
  revert p. induction l as [|x l IH]; intros p Hin; simpl in Hin.
  - destruct Hin as [<- | []]. constructor.
  - apply in_flat_map in Hin as (p' & Hp' & Hin).
    apply Permutation_trans with (x :: p'); [apply perm_skip, IH, Hp'|].
    apply insert_everywhere_sound. exact Hin.
Qed.

Lemma insert_everywhere_complete {A} (x : A) l1 l2 :
  In (l1 ++ x :: l2) (insert_everywhere x (l1 ++ l2)).
Proof.
  induction l1 as [|y l1 IH]; simpl.
  - destruct l2; simpl; left; reflexivity.
  - right. apply in_map. exact IH.
Qed.

Lemma permutations_complete {A} (l p : list A) :
  Permutation l p -> In p (permutations l).
Proof.
  revert p. induction l as [|x l IH]; intros p Hperm; simpl.
  - apply Permutation_nil in Hperm. subst. left. reflexivity.
  - assert (Hin : In x p) by (eapply Permutation_in; [exact Hperm | left; reflexivity]).
    apply in_split in Hin as (l1 & l2 & ->).
    apply Permutation_cons_app_inv in Hperm.
    apply in_flat_map. exists (l1 ++ l2). split; [apply IH, Hperm|].
    apply insert_everywhere_complete.
Qed.

Lemma forallb_pointwise {A} (f g : A -> bool) l :
  (forall x, In x l -> f x = g x) -> forallb f l = forallb g l.
Proof.
  induction l as [|x l IH]; intro H; simpl; [reflexivity|].
  rewrite (H x (or_introl eq_refl)). f_equal. apply IH.
  intros y Hy. apply H. right. exact Hy.
Qed.

Lemma forallb_Permutation {A} (f : A -> bool) l l' :
  Permutation l l' -> forallb f l = forallb f l'.
Proof.
  induction 1; simpl.
  - reflexivity.
  - f_equal. assumption.
  - destruct (f x), (f y); reflexivity.
  - congruence.
Qed.

Lemma forallb_map_compose {A B} (f : B -> bool) (h : A -> B) l :
  forallb f (map h l) = forallb (fun x => f (h x)) l.
Proof.
  induction l as [|x l IH]; simpl; [reflexivity|]. rewrite IH. reflexivity.
Qed.

Section GraphIsomorphism.
Variable node_match : node_attrs -> node_attrs -> bool.
Variable edge_match : option (edge_attrs -> edge_attrs -> bool).

Lemma is_isomorphism_Permutation G G' f f' :
  Permutation f f' ->
  is_isomorphism G G' node_match edge_match f
  = is_isomorphism G G' node_match edge_match f'.
Proof.
  intro Hperm. unfold is_isomorphism. f_equal.
  - apply forallb_Permutation. exact Hperm.
  - rewrite (forallb_Permutation _ _ _ Hperm).
    apply forallb_pointwise. intros p _.
    apply forallb_Permutation. exact Hperm.
Qed.

Hypothesis node_match_sym : forall x y, node_match x y = node_match y x.
Hypothesis edge_match_sym :
  forall matches, edge_match = Some matches -> forall x y, matches x y = matches y x.

Lemma is_isomorphism_swap G G' f :
  is_isomorphism G' G node_match edge_match (map swap_pair f)
  = is_isomorphism G G' node_match edge_match f.
Proof.
  unfold is_isomorphism. rewrite !forallb_map_compose. f_equal.
  - apply forallb_pointwise. intros p _. simpl.
    destruct (node_getitem G' (snd p)), (node_getitem G (fst p)); auto.
  - apply forallb_pointwise. intros p _. rewrite forallb_map_compose.
    apply forallb_pointwise. intros q _. simpl.
    destruct (edge_getitem G' (snd p) (snd q)), (edge_getitem G (fst p) (fst q)); auto.
    destruct edge_match as [matches|]; [|reflexivity].
    apply edge_match_sym. reflexivity.
Qed.

End GraphIsomorphism.

Lemma map_fst_combine {A B} (l : list A) (l' : list B) :
  length l = length l' -> map fst (combine l l') = l.
Proof.
  revert l'. induction l as [|x l IH]; intros [|y l'] H; simpl in *; try discriminate.
  - reflexivity.
  - f_equal. apply IH. lia.
Qed.

Lemma map_snd_combine {A B} (l : list A) (l' : list B) :
  length l = length l' -> map snd (combine l l') = l'.
Proof.
  revert l'. induction l as [|x l IH]; intros [|y l'] H; simpl in *; try discriminate.
  - reflexivity.
  - f_equal. apply IH. lia.
Qed.

Lemma combine_map_fst_snd {A B} (l : list (A * B)) :
  combine (map fst l) (map snd l) = l.
Proof.
  induction l as [|[a b] l IH]; simpl; [reflexivity|]. rewrite IH. reflexivity.
Qed.

(** What the stand-in for [networkx.is_isomorphic] decides. *)
Lemma nx_is_isomorphic_true_iff G1 G2 node_match edge_match :
  nx_is_isomorphic G1 G2 node_match edge_match = true
  <-> length (nodes G1) = length (nodes G2)
      /\ exists p, Permutation (map fst (nodes G2)) p
                   /\ is_isomorphism G1 G2 node_match edge_match
                        (combine (map fst (nodes G1)) p) = true.
Proof.
  unfold nx_is_isomorphic, isomorphisms_iter.
  destruct (Nat.eqb (length (nodes G1)) (length (nodes G2))) eqn:Hlen.
  - apply Nat.eqb_eq in Hlen. split.
    + intro H. split; [exact Hlen|].
      destruct (filter _ _) as [|f fs] eqn:Hfilter; [discriminate|].
      assert (Hin : In f (f :: fs)) by (left; reflexivity).
      rewrite <- Hfilter in Hin. apply filter_In in Hin as [Hin Hiso].
      apply in_map_iff in Hin as (p & <- & Hp).
      exists p. split; [apply permutations_sound, Hp | exact Hiso].
    + intros (_ & p & Hperm & Hiso).
      destruct (filter _ _) as [|f fs] eqn:Hfilter; [|reflexivity].
      exfalso.
      assert (Hin : In (combine (map fst (nodes G1)) p)
                       (filter (is_isomorphism G1 G2 node_match edge_match)
                          (map (combine (map fst (nodes G1)))
                               (permutations (map fst (nodes G2)))))).
      { apply filter_In. split; [|exact Hiso].
        apply in_map. apply permutations_complete. exact Hperm. }
      rewrite Hfilter in Hin. destruct Hin.
  - apply Nat.eqb_neq in Hlen. split; [discriminate|]. intros [H _]. contradiction.
Qed.

Lemma nx_is_isomorphic_sym_true G1 G2 node_match edge_match :
  (forall x y, node_match x y = node_match y x) ->
  (forall matches, edge_match = Some matches -> forall x y, matches x y = matches y x) ->
  nx_is_isomorphic G1 G2 node_match edge_match = true ->
  nx_is_isomorphic G2 G1 node_match edge_match = true.
Proof.
  intros Hnode Hedge H.
  apply nx_is_isomorphic_true_iff in H as (Hlen & p & Hperm & Hiso).
  apply nx_is_isomorphic_true_iff. split; [symmetry; exact Hlen|].
  assert (Hlenp : length (map fst (nodes G1)) = length p).
  { rewrite <- (Permutation_length Hperm). rewrite !length_map. exact Hlen. }
  set (f := combine (map fst (nodes G1)) p) in *.
  assert (Hfst : Permutation (map fst (nodes G2)) (map fst (map swap_pair f))).
  { rewrite map_map. simpl. change (fun x : nat * nat => snd x) with (@snd nat nat).
    unfold f. rewrite map_snd_combine by exact Hlenp. exact Hperm. }
  apply Permutation_map_inv in Hfst as (f' & Hkeys & Hf').
  exists (map snd f'). split.
  - apply Permutation_trans with (map snd (map swap_pair f)).
    + rewrite map_map. simpl. change (fun x : nat * nat => fst x) with (@fst nat nat).
      unfold f. rewrite map_fst_combine by exact Hlenp. apply Permutation_refl.
    + apply Permutation_map. exact Hf'.
  - rewrite Hkeys. rewrite combine_map_fst_snd.
    rewrite <- (is_isomorphism_Permutation node_match edge_match G2 G1 _ _ Hf').
    rewrite is_isomorphism_swap by assumption. exact Hiso.
Qed.

Lemma nx_is_isomorphic_sym G1 G2 node_match edge_match :
  (forall x y, node_match x y = node_match y x) ->
  (forall matches, edge_match = Some matches -> forall x y, matches x y = matches y x) ->
  nx_is_isomorphic G1 G2 node_match edge_match
  = nx_is_isomorphic G2 G1 node_match edge_match.
Proof.
  intros Hnode Hedge.
  destruct (nx_is_isomorphic G1 G2 node_match edge_match) eqn:H12;
    destruct (nx_is_isomorphic G2 G1 node_match edge_match) eqn:H21; try reflexivity.
  - apply nx_is_isomorphic_sym_true in H12; [congruence | assumption | assumption].
  - apply nx_is_isomorphic_sym_true in H21; [congruence | assumption | assumption].
Qed.

Lemma option_string_eqb_sym s t : option_string_eqb s t = option_string_eqb t s.
Proof.
  destruct s, t; simpl; try reflexivity. apply String.eqb_sym.
Qed.

Lemma option_string_eqb_refl s : option_string_eqb s s = true.
Proof.
  destruct s; simpl; [apply String.eqb_refl | reflexivity].
Qed.

Lemma bool_eqb_sym a b : Bool.eqb a b = Bool.eqb b a.
Proof.
  destruct a, b; reflexivity.
Qed.

Lemma node_match_func_sym flags x y :
  node_match_func flags x y = node_match_func flags y x.
Proof.
  unfold node_match_func.
  rewrite (Z.eqb_sym (node_atomic_number x)), (Z.eqb_sym (node_formal_charge x)),
    (bool_eqb_sym (node_is_aromatic x)),
    (option_string_eqb_sym (node_stereochemistry x)).
  reflexivity.
Qed.

Lemma node_match_func_refl flags x : node_match_func flags x x = true.
Proof.
  unfold node_match_func.
  rewrite !Z.eqb_refl, Bool.eqb_reflx, option_string_eqb_refl.
  destruct (aromatic_matching flags), (formal_charge_matching flags),
    (atom_stereochemistry_matching flags); reflexivity.
Qed.

Lemma node_match_func_atomic_number flags x y :
  node_match_func flags x y = true -> node_atomic_number x = node_atomic_number y.
Proof.
  unfold node_match_func. intro H. apply Z.eqb_eq.
  destruct (Z.eqb (node_atomic_number x) (node_atomic_number y)); [reflexivity|].
  destruct (aromatic_matching flags), (formal_charge_matching flags),
    (atom_stereochemistry_matching flags); simpl in H; discriminate.
Qed.

Lemma edge_match_func_sym flags matches :
  edge_match_func flags = Some matches -> forall x y, matches x y = matches y x.
Proof.
  unfold edge_match_func. intros H x y.
  destruct (aromatic_matching flags || bond_order_matching flags
            || bond_stereochemistry_matching flags); [|discriminate].
  injection H as <-.
  rewrite (Z.eqb_sym (edge_bond_order x)), (bool_eqb_sym (edge_is_aromatic x)),
    (option_string_eqb_sym (edge_stereochemistry x)).
  reflexivity.
Qed.

Lemma edge_match_func_refl flags matches :
  edge_match_func flags = Some matches -> forall x, matches x x = true.
Proof.
  unfold edge_match_func. intros H x.
  destruct (aromatic_matching flags || bond_order_matching flags
            || bond_stereochemistry_matching flags) eqn:Hany; [|discriminate].
  injection H as <-.
  rewrite Z.eqb_refl, Bool.eqb_reflx, option_string_eqb_refl.
  destruct (aromatic_matching flags), (bond_order_matching flags),
    (bond_stereochemistry_matching flags); simpl in *; try reflexivity; discriminate.
Qed.

Section IsomorphismFacts.
Context {E : Externals}.

Lemma symbols_of_raises nums e : symbols_of nums = Raise e -> e = KeyError.
Proof.
  induction nums as [|z nums IH]; simpl; [discriminate|].
  destruct (element_symbol z); [|intro H; injection H as <-; reflexivity].
  destruct (symbols_of nums); [discriminate|].
  intro H. injection H as <-. apply IH. reflexivity.
Qed.

Lemma to_hill_formula_raises m e : to_hill_formula m = Raise e -> e = KeyError.
Proof.
  unfold to_hill_formula.
  destruct (symbols_of _) eqn:Hs; [discriminate|].
  intro H. injection H as <-. eapply symbols_of_raises. exact Hs.
Qed.

Lemma nx_is_isomorphic_iter G1 G2 node_match edge_match :
  nx_is_isomorphic G1 G2 node_match edge_match = true ->
  exists mapping rest, isomorphisms_iter G1 G2 node_match edge_match = mapping :: rest.
Proof.
  unfold nx_is_isomorphic.
  destruct (isomorphisms_iter G1 G2 node_match edge_match) as [|mapping rest];
    [discriminate|].
  intros _. exists mapping, rest. reflexivity.
Qed.

(** The boolean of [are_isomorphic], whatever [return_atom_map] is. *)
Lemma molecules_are_isomorphic_eq mol1 mol2 return_atom_map flags :
  molecules_are_isomorphic (are_isomorphic mol1 mol2 return_atom_map flags)
  = match to_hill_formula mol1, to_hill_formula mol2 with
    | Raise e, _ => Raise e
    | Return _, Raise e => Raise e
    | Return formula1, Return formula2 =>
        Return (String.eqb formula1 formula2
                && nx_is_isomorphic (to_networkx mol1) (to_networkx mol2)
                     (node_match_func flags) (edge_match_func flags))
    end.
Proof.
  unfold are_isomorphic.
  destruct (to_hill_formula mol1) as [formula1|e1]; [|reflexivity].
  destruct (to_hill_formula mol2) as [formula2|e2]; [|reflexivity].
  destruct (String.eqb formula1 formula2); simpl; [|reflexivity].
  destruct (nx_is_isomorphic _ _ _ _) eqn:Hiso; simpl; [|reflexivity].
  destruct return_atom_map; [|reflexivity].
  apply nx_is_isomorphic_iter in Hiso as (mapping & rest & ->). reflexivity.
Qed.

Lemma are_isomorphic_without_map mol1 mol2 flags :
  are_isomorphic mol1 mol2 false flags
  = match molecules_are_isomorphic (are_isomorphic mol1 mol2 false flags) with
    | Return b => Return (b, None)
    | Raise e => Raise e
    end.
Proof.
  unfold are_isomorphic.
  destruct (to_hill_formula mol1) as [formula1|e1]; [|reflexivity].
  destruct (to_hill_formula mol2) as [formula2|e2]; [|reflexivity].
  destruct (String.eqb formula1 formula2); simpl; [|reflexivity].
  rewrite Bool.andb_false_r. reflexivity.
Qed.

Lemma molecules_are_isomorphic_sym A B ram ram' flags :
  molecules_are_isomorphic (are_isomorphic A B ram flags)
  = molecules_are_isomorphic (are_isomorphic B A ram' flags).
Proof.
  rewrite !molecules_are_isomorphic_eq.
  destruct (to_hill_formula A) as [fA|eA] eqn:HA;
    destruct (to_hill_formula B) as [fB|eB] eqn:HB; try reflexivity.
  - rewrite (String.eqb_sym fA fB).
    rewrite (nx_is_isomorphic_sym (to_networkx A) (to_networkx B)).
    + reflexivity.
    + apply node_match_func_sym.
    + apply edge_match_func_sym.
  - apply to_hill_formula_raises in HA, HB. congruence.
Qed.

End IsomorphismFacts.

(** ** The graph of a molecule *)

Lemma dict_setitem_fresh {V} k (v : V) d :
  ~ In k (map fst d) -> dict_setitem Nat.eqb k v d = d ++ [(k, v)].
Proof.
  induction d as [|[k' v'] d IH]; simpl; intro Hfresh; [reflexivity|].
  destruct (Nat.eqb k' k) eqn:Hk.
  - apply Nat.eqb_eq in Hk. exfalso. apply Hfresh. left. exact Hk.
  - rewrite IH; [reflexivity|]. intro Hin. apply Hfresh. right. exact Hin.
Qed.

Lemma dict_getitem_in {V} k (d : list (nat * V)) :
  In k (map fst d) -> exists v, dict_getitem Nat.eqb k d = Some v.
Proof.
  induction d as [|[k' v'] d IH]; simpl; [intros []|].
  intro Hin. destruct (Nat.eqb k' k) eqn:Hk; [exists v'; reflexivity|].
  destruct Hin as [->|Hin]; [rewrite Nat.eqb_refl in Hk; discriminate|].
  apply IH. exact Hin.
Qed.

Lemma dict_getitem_own_keys {V B} (g : V -> B) (dflt : B) (d : list (nat * V)) :
  NoDup (map fst d) ->
  map (fun k => match dict_getitem Nat.eqb k d with
                | Some x => g x
                | None => dflt
                end) (map fst d)
  = map (fun kv => g (snd kv)) d.
Proof.
  induction d as [|[k v] d IH]; simpl; intro Hnodup; [reflexivity|].
  inversion Hnodup as [|? ? Hnotin Hnodup']; subst.
  rewrite Nat.eqb_refl. f_equal.
  rewrite <- (IH Hnodup'). apply map_ext_in. intros k' Hk'.
  destruct (Nat.eqb k k') eqn:Hk; [|reflexivity].
  apply Nat.eqb_eq in Hk. subst. contradiction.
Qed.

Lemma nodes_add_edges bonds G :
  nodes (fold_left
           (fun G bond => add_edge (atom1 bond) (atom2 bond) (bond_edge_attrs bond) G)
           bonds G)
  = nodes G.
Proof.
  revert G. induction bonds as [|b bonds IH]; intro G; simpl; [reflexivity|].
  rewrite IH. reflexivity.
Qed.

Lemma nodes_add_nodes atoms start G :
  (forall k, In k (map fst (nodes G)) -> k < start) ->
  nodes (fold_left (fun G ia => add_node (fst ia) (atom_node_attrs (snd ia)) G)
           (combine (seq start (length atoms)) atoms) G)
  = nodes G ++ combine (seq start (length atoms)) (map atom_node_attrs atoms).
Proof.
  revert start G. induction atoms as [|a atoms IH]; intros start G Hkeys; simpl.
  - rewrite app_nil_r. reflexivity.
  - rewrite IH.
    + simpl. rewrite dict_setitem_fresh.
      * rewrite <- app_assoc. reflexivity.
      * intro Hin. apply Hkeys in Hin. lia.
    + intros k Hin. simpl in Hin. rewrite dict_setitem_fresh in Hin.
      * rewrite map_app in Hin. apply in_app_or in Hin as [Hin|[<-|[]]].
        -- apply Hkeys in Hin. lia.
        -- simpl. lia.
      * intro Hin'. apply Hkeys in Hin'. lia.
Qed.

Lemma nodes_to_networkx m :
  nodes (to_networkx m)
  = combine (seq 0 (n_atoms m)) (map atom_node_attrs (mol_atoms m)).
Proof.
  unfold to_networkx. rewrite nodes_add_edges.
  unfold n_atoms. rewrite nodes_add_nodes; [reflexivity|].
  simpl. intros k [].
Qed.

Lemma keys_to_networkx m : map fst (nodes (to_networkx m)) = seq 0 (n_atoms m).
Proof.
  rewrite nodes_to_networkx. apply map_fst_combine.
  unfold n_atoms. rewrite length_seq, length_map. reflexivity.
Qed.

Lemma atomic_numbers_to_networkx m :
  map (fun kv => node_atomic_number (snd kv)) (nodes (to_networkx m))
  = map atomic_number (mol_atoms m).
Proof.
  rewrite nodes_to_networkx.
  rewrite <- (map_map snd node_atomic_number).
  rewrite map_snd_combine.
  - rewrite map_map. reflexivity.
  - unfold n_atoms. rewrite length_seq, length_map. reflexivity.
Qed.

Lemma map_combine_pointwise {A B C} (g : A -> C) (h : B -> C) l l' :
  length l = length l' ->
  (forall p, In p (combine l l') -> g (fst p) = h (snd p)) ->
  map g l = map h l'.
Proof.
  revert l'. induction l as [|x l IH]; intros [|y l'] Hlen H; simpl in *;
    try discriminate; [reflexivity|].
  f_equal.
  - apply (H (x, y)). left. reflexivity.
  - apply IH; [lia|]. intros p Hp. apply H. right. exact Hp.
Qed.

Lemma in_combine_same {A} (l : list A) p :
  In p (combine l l) -> fst p = snd p /\ In (fst p) l.
Proof.
  induction l as [|x l IH]; simpl; [intros []|].
  intros [<-|Hin]; simpl; [split; [reflexivity | left; reflexivity]|].
  destruct (IH Hin) as [Heq Hl]. split; [exact Heq | right; exact Hl].
Qed.

(** An isomorphism that matches nodes with [node_match_func] keeps the
    atomic numbers: the two graphs have the same elemental composition. *)
Lemma nx_is_isomorphic_composition G1 G2 flags edge_match :
  NoDup (map fst (nodes G1)) -> NoDup (map fst (nodes G2)) ->
  nx_is_isomorphic G1 G2 (node_match_func flags) edge_match = true ->
  Permutation (map (fun kv => node_atomic_number (snd kv)) (nodes G1))
              (map (fun kv => node_atomic_number (snd kv)) (nodes G2)).
Proof.
  intros Hnodup1 Hnodup2 Hiso.
  apply nx_is_isomorphic_true_iff in Hiso as (Hlen & p & Hperm & Hiso).
  unfold is_isomorphism in Hiso. apply andb_prop in Hiso as [Hnodes _].
  rewrite forallb_forall in Hnodes.
  set (number := fun G k => match dict_getitem Nat.eqb k (nodes G) with
                            | Some x => node_atomic_number x
                            | None => 0%Z
                            end).
  rewrite <- (dict_getitem_own_keys node_atomic_number 0%Z (nodes G1) Hnodup1).
  rewrite <- (dict_getitem_own_keys node_atomic_number 0%Z (nodes G2) Hnodup2).
  change (Permutation (map (number G1) (map fst (nodes G1)))
                      (map (number G2) (map fst (nodes G2)))).
  apply Permutation_trans with (map (number G2) p).
  - replace (map (number G1) (map fst (nodes G1))) with (map (number G2) p);
      [apply Permutation_refl|].
    symmetry. apply map_combine_pointwise.
    + rewrite <- (Permutation_length Hperm). rewrite !length_map. exact Hlen.
    + intros q Hq. specialize (Hnodes q Hq). unfold number.
      unfold node_getitem in Hnodes.
      destruct (dict_getitem Nat.eqb (fst q) (nodes G1)) as [x|]; [|discriminate].
      destruct (dict_getitem Nat.eqb (snd q) (nodes G2)) as [y|]; [|discriminate].
      eapply node_match_func_atomic_number. exact Hnodes.
  - apply Permutation_map. apply Permutation_sym. exact Hperm.
Qed.

(** Every graph is isomorphic to itself when the match functions are
    reflexive: the identity is an isomorphism. *)
Lemma nx_is_isomorphic_refl G node_match edge_match :
  (forall x, node_match x x = true) ->
  (forall matches, edge_match = Some matches -> forall x, matches x x = true) ->
  nx_is_isomorphic G G node_match edge_match = true.
Proof.
  intros Hnode Hedge. apply nx_is_isomorphic_true_iff. split; [reflexivity|].
  exists (map fst (nodes G)). split; [apply Permutation_refl|].
  unfold is_isomorphism. apply andb_true_intro. split.
  - apply forallb_forall. intros p Hp.
    apply in_combine_same in Hp as [<- Hin].
    unfold node_getitem. apply dict_getitem_in in Hin as [x ->]. apply Hnode.
  - apply forallb_forall. intros p Hp. apply forallb_forall. intros q Hq.
    apply in_combine_same in Hp as [<- _]. apply in_combine_same in Hq as [<- _].
    destruct (edge_getitem G (fst p) (fst q)) as [x|]; [|reflexivity].
    destruct edge_match as [matches|]; [|reflexivity].
    apply (Hedge matches eq_refl).
Qed.

(** The formula of a counter: carbon and hydrogen first, then the other
    elements in alphabetical order, a count written when it is above one. *)
Lemma hill_entries_order :
  hill_entries (Counter ["O"; "C"; "H"; "Cl"; "H"; "N"; "C"; "H"])
  = ["C2"; "H3"; "Cl"; "N"; "O"].
Proof. vm_compute. reflexivity. Qed.

Section Composition.
Context {E : Externals}.

Lemma NoDup_keys_to_networkx m : NoDup (map fst (nodes (to_networkx m))).
Proof.
  rewrite keys_to_networkx. apply seq_NoDup.
Qed.

Lemma are_isomorphic_composition m1 m2 flags :
  nx_is_isomorphic (to_networkx m1) (to_networkx m2)
    (node_match_func flags) (edge_match_func flags) = true ->
  Permutation (map atomic_number (mol_atoms m1)) (map atomic_number (mol_atoms m2)).
Proof.
  intro Hiso. rewrite <- !atomic_numbers_to_networkx.
  eapply nx_is_isomorphic_composition; [| |exact Hiso]; apply NoDup_keys_to_networkx.
Qed.

(** C5. Two molecules (of known elements) whose Hill formulas differ, or
    whose elemental compositions differ, are not isomorphic:
    [are_isomorphic] returns [False] with the atom map [None], whatever the
    matching flags and whether or not an atom map is asked for. *)
Theorem different_composition_not_isomorphic m1 m2 formula1 formula2
    return_atom_map flags :
  to_hill_formula m1 = Return formula1 ->
  to_hill_formula m2 = Return formula2 ->
  formula1 <> formula2
  \/ ~ Permutation (map atomic_number (mol_atoms m1))
                   (map atomic_number (mol_atoms m2)) ->
  are_isomorphic m1 m2 return_atom_map flags = Return (false, None).
Proof.
  intros H1 H2 Hdiff. unfold are_isomorphic. rewrite H1, H2.
  destruct (String.eqb formula1 formula2) eqn:Hformula; simpl; [|reflexivity].
  destruct (nx_is_isomorphic (to_networkx m1) (to_networkx m2)
              (node_match_func flags) (edge_match_func flags)) eqn:Hiso;
    [|reflexivity].
  exfalso. destruct Hdiff as [Hneq|Hcomposition].
  - apply Hneq. apply String.eqb_eq. exact Hformula.
  - apply Hcomposition. eapply are_isomorphic_composition. exact Hiso.
Qed.

End Composition.

Lemma different_composition_not_isomorphic_witness :
  @are_isomorphic sample_externals water hydrogen_atom true default_flags
  = Return (false, None).
Proof.
  apply (@different_composition_not_isomorphic sample_externals
           water hydrogen_atom "H2O" "H" true default_flags).
  - vm_compute. reflexivity.
  - vm_compute. reflexivity.
  - left. discriminate.
Defined.

(** ** The round trip through the dictionary representation *)

Lemma bind_run {S A B} (c : method S A) (k : A -> method S B) s a s' :
  c s = (Return a, s') -> bind c k s = k a s'.
Proof.
  intro H. unfold bind. rewrite H. reflexivity.
Qed.

Lemma map_array_id (f : float -> float) a : (forall x, f x = x) -> map_array f a = a.
Proof.
  intro Hf. destruct a as [shp d]. unfold map_array. simpl. f_equal.
  rewrite (map_ext f (fun x => x) Hf). apply map_id.
Qed.

Lemma is_compatible_refl u : is_compatible u u = true.
Proof. destruct u; reflexivity. Qed.

Lemma bonds_ok_split n l b r : bonds_ok n (l ++ b :: r) -> bonds_ok n l /\ bond_ok n l b.
Proof.
  induction r as [|c r IH] using rev_ind; intro H.
  - inversion H as [Hnil | l0 b0 Hl0 Hb0 Heq].
    + destruct l; discriminate.
    + apply app_inj_tail in Heq as [-> ->]. split; assumption.
  - apply IH. inversion H as [Hnil | l0 b0 Hl0 Hb0 Heq].
    + destruct l; discriminate.
    + change (l ++ b :: r ++ [c]) with (l ++ (b :: r) ++ [c]) in Heq.
      rewrite app_assoc in Heq. apply app_inj_tail in Heq as [-> ->]. exact Hl0.
Qed.

Lemma rebuilt_fields name ds vs bs s :
  rebuilt name ds vs bs s ->
  mol_name s = name /\ mol_atoms s = canonical_atoms ds vs bs
  /\ mol_virtual_sites s = vs /\ mol_bonds s = bs /\ mol_properties s = []
  /\ mol_partial_charges s = None /\ mol_conformers s = None
  /\ n_atoms s = length ds.
Proof.
  unfold rebuilt, persistent. intro H. inversion H as [[H1 H2 H3 H4 H5 H6 H7]].
  unfold n_atoms. rewrite !H2, length_canonical. repeat split; reflexivity.
Qed.

Section RoundTrip.
Context {E : Externals} {Eok : ExternalsOk E}.

Lemma in_units_of_same u q : q_unit q = u -> in_units_of u q = q.
Proof.
  intros <-. unfold in_units_of. rewrite map_array_id.
  - destruct q; reflexivity.
  - apply conversion_same.
Qed.

Lemma checked_in_units_of_same u q m :
  q_unit q = u -> checked_in_units_of u (WithUnit q) m = (Return q, m).
Proof.
  intro Hu. unfold checked_in_units_of. rewrite (in_units_of_same u q Hu).
  rewrite Hu, is_compatible_refl. reflexivity.
Qed.

Lemma checked_in_units_of_opt_same u q m :
  unit_is u q ->
  checked_in_units_of_opt u (option_map WithUnit q) m = (Return q, m).
Proof.
  intro Hu. destruct q as [q|]; [|reflexivity].
  unfold checked_in_units_of_opt, option_map.
  rewrite (bind_run _ _ _ _ _ (checked_in_units_of_same u q m (Hu q eq_refl))).
  reflexivity.
Qed.

Lemma string_to_quantity_to_string q :
  string_to_quantity (quantity_to_string q) = option_map WithUnit q.
Proof.
  destruct q as [q|]; simpl; [|reflexivity]. rewrite parse_print_quantity. reflexivity.
Qed.

Lemma atoms_at_of_nat ps m :
  Forall (fun p => p < n_atoms m) ps -> atoms_at (map Z.of_nat ps) m = (Return ps, m).
Proof.
  induction 1 as [|p ps Hp _ IH]; simpl; [reflexivity|].
  unfold bind. rewrite atom_at_eq, (py_position_of_nat _ _ Hp), IH. reflexivity.
Qed.

(** The checks of [VirtualSite.__init__] accept the attributes of a site
    that passed them before, and give the same site. *)
Lemma VirtualSite_init_checks_same n v m :
  vsite_ok n v ->
  VirtualSite_init_checks (vs_atoms v)
    {| kw_charge_increments := option_map WithUnit (vs_charge_increments v);
       kw_epsilon := option_map WithUnit (vs_epsilon v);
       kw_sigma := option_map WithUnit (vs_sigma v);
       kw_rmin_half := None;
       kw_name := vs_name v |}
    (vs_geometry v) m
  = (Return v, m).
Proof.
  intros (_ & Hlen & _ & Hci & Hshape & Heps & Hsig & Hiff).
  destruct v as [atoms ci eps sig name g]; simpl in *.
  unfold VirtualSite_init_checks; simpl.
  assert (Hfirst :
    match option_map WithUnit ci with
    | Some ci' =>
        n' <- len ci' ;;
        if Nat.eqb n' (length atoms) then ret tt
        else raise (Exception "VirtualSite definition must have same number of charge_increments and atoms")
    | None => ret tt
    end m = (Return tt, m)).
  { destruct ci as [q|]; simpl; [|reflexivity].
    destruct (Hshape q eq_refl) as [rest Hq].
    unfold bind, len. simpl. rewrite Hq. simpl. rewrite Nat.eqb_refl. reflexivity. }
  rewrite (bind_run _ _ _ _ _ Hfirst).
  assert (Hsecond :
    match option_map WithUnit eps with
    | Some _ =>
        match @None pynum, option_map WithUnit sig with
        | Some _, Some _ =>
            raise (Exception "VirtualSite constructor given epsilon, rmin_half, and sigma")
        | None, None =>
            raise (Exception "VirtualSite constructor given epsilon but not given rmin_half or sigma")
        | Some r, None => ret (Some (sigma_from_rmin_half r))
        | None, Some s => ret (Some s)
        end
    | None =>
        match @None pynum, option_map WithUnit sig with
        | None, None => ret None
        | _, _ =>
            raise (Exception "VirtualSite constructor given rmin_half or sigma, but not epsilon")
        end
    end m = (Return (option_map WithUnit sig), m)).
  { destruct eps as [e|], sig as [s|]; simpl; try reflexivity.
    - destruct Hiff as [_ H]. specialize (H eq_refl). discriminate.
    - destruct Hiff as [H _]. specialize (H eq_refl). discriminate. }
  rewrite (bind_run _ _ _ _ _ Hsecond).
  assert (Hltb : Nat.ltb (length atoms) 2 = false) by (apply Nat.ltb_ge; exact Hlen).
  rewrite Hltb. unfold bind at 1. unfold ret at 1.
  rewrite (bind_run _ _ _ _ _ (checked_in_units_of_opt_same angstrom sig m Hsig)).
  rewrite (bind_run _ _ _ _ _ (checked_in_units_of_opt_same kilojoule_per_mole eps m Heps)).
  rewrite (bind_run _ _ _ _ _ (checked_in_units_of_opt_same elementary_charge ci m Hci)).
  reflexivity.
Qed.

Lemma add_virtual_site_tail_returns atom_list kw g m v :
  VirtualSite_init_checks atom_list kw g m = (Return v, m) ->
  (vsite <- VirtualSite_init atom_list kw g ;; append_virtual_site vsite) m
  = (Return (n_virtual_sites m), virtual_site_added v m).
Proof.
  intro Hchecks.
  pose proof (VirtualSite_init_checks_returns _ _ _ _ _ _ Hchecks) as (_ & Hatoms & _).
  unfold VirtualSite_init, bind. rewrite Hchecks.
  rewrite for_each_modify.
  unfold append_virtual_site, virtual_site_added, add_virtual_site_backrefs.
  unfold_method. simpl.
  destruct (add_virtual_site_backrefs_fields v atom_list m) as (_ & Hvs & _).
  unfold add_virtual_site_backrefs in Hvs. rewrite Hatoms.
  unfold n_virtual_sites. rewrite Hvs. reflexivity.
Qed.

Ltac compare_strings :=
  repeat match goal with
         | |- context [String.eqb ?a ?b] =>
             let r := eval vm_compute in (String.eqb a b) in
             change (String.eqb a b) with r
         end;
  cbv iota.

Lemma vsite_dict_getitem_printed q (m : Molecule) :
  vsite_dict_getitem (quantity_to_string (Some q)) m = (Return (WithUnit q), m).
Proof.
  simpl. rewrite parse_print_quantity. reflexivity.
Qed.

Lemma assert_holds (b : bool) (m : Molecule) : b = true -> assert b m = (Return tt, m).
Proof. intros ->. reflexivity. Qed.

Ltac run H := rewrite (bind_run _ _ _ _ _ H); cbv beta.

Lemma add_virtual_site_from_dict_returns v m :
  vsite_ok (n_atoms m) v ->
  add_virtual_site_from_dict (VirtualSite_to_dict v) m
  = (Return tt, virtual_site_added v m).
Proof.
  intros Hok. pose proof Hok as (Hbound & Hlen & Hgeom & _).
  pose proof (VirtualSite_init_checks_same (n_atoms m) v m Hok) as Hchecks.
  unfold add_virtual_site_from_dict.
  destruct v as [atoms ci eps sig name g].
  destruct g as [d|d o i|d o i|d o i]; 
  unfold VirtualSite_to_dict; cbn [vs_geometry vs_atoms vs_name vs_charge_increments vs_epsilon vs_sigma vd_name vd_atoms vd_charge_increments vd_epsilon vd_sigma vd_distance vd_out_of_plane_angle vd_in_plane_angle vd_vsite_type vsite_type] in *;
  rewrite !string_to_quantity_to_string; compare_strings;
  run (vsite_dict_getitem_printed d m).
  - cbn [quantity_to_string option_map]. cbv iota. unfold discard.
    simpl in Hgeom.
    assert (Hadd : _add_bond_charge_virtual_site (map Z.of_nat atoms) (WithUnit d)
              {| kw_charge_increments := option_map WithUnit ci;
                 kw_epsilon := option_map WithUnit eps;
                 kw_sigma := option_map WithUnit sig;
                 kw_rmin_half := None;
                 kw_name := name |} m
            = (Return (n_virtual_sites m),
               virtual_site_added
                 {| vs_atoms := atoms; vs_charge_increments := ci; vs_epsilon := eps;
                    vs_sigma := sig; vs_name := name;
                    vs_geometry := BondChargeVirtualSite d |} m)).
    { unfold _add_bond_charge_virtual_site.
      run (atoms_at_of_nat atoms m Hbound).
      run (checked_in_units_of_same angstrom d m Hgeom).
      apply add_virtual_site_tail_returns. exact Hchecks. }
    run Hadd. reflexivity.
  - simpl in Hgeom. destruct Hgeom as (Harity & Hd & Ho & Hi).
    run (vsite_dict_getitem_printed i m).
    run (vsite_dict_getitem_printed o m).
    unfold discard.
    match goal with
    | |- bind ?c _ _ = _ =>
        assert (Hadd : c m = (Return (n_virtual_sites m),
               virtual_site_added
                 {| vs_atoms := atoms; vs_charge_increments := ci; vs_epsilon := eps;
                    vs_sigma := sig; vs_name := name;
                    vs_geometry := MonovalentLonePairVirtualSite d o i |} m))
    end.
    { unfold _add_monovalent_lone_pair_virtual_site.
      run (atoms_at_of_nat atoms m Hbound).
      run (checked_in_units_of_same angstrom d m Hd).
      run (checked_in_units_of_same degree i m Hi).
      run (checked_in_units_of_same degree o m Ho).
      run (assert_holds (Nat.eqb (length atoms) 3) m (proj2 (Nat.eqb_eq _ _) Harity)).
      apply add_virtual_site_tail_returns. exact Hchecks. }
    run Hadd. reflexivity.
  - simpl in Hgeom. destruct Hgeom as (Harity & Hd & Ho & Hi).
    run (vsite_dict_getitem_printed i m).
    run (vsite_dict_getitem_printed o m).
    unfold discard.
    match goal with
    | |- bind ?c _ _ = _ =>
        assert (Hadd : c m = (Return (n_virtual_sites m),
               virtual_site_added
                 {| vs_atoms := atoms; vs_charge_increments := ci; vs_epsilon := eps;
                    vs_sigma := sig; vs_name := name;
                    vs_geometry := DivalentLonePairVirtualSite d o i |} m))
    end.
    { unfold _add_divalent_lone_pair_virtual_site.
      run (atoms_at_of_nat atoms m Hbound).
      run (checked_in_units_of_same angstrom d m Hd).
      run (checked_in_units_of_same degree i m Hi).
      run (checked_in_units_of_same degree o m Ho).
      run (assert_holds (Nat.eqb (length atoms) 3) m (proj2 (Nat.eqb_eq _ _) Harity)).
      apply add_virtual_site_tail_returns. exact Hchecks. }
    run Hadd. reflexivity.
  - simpl in Hgeom. destruct Hgeom as (Harity & Hd & Ho & Hi).
    run (vsite_dict_getitem_printed i m).
    run (vsite_dict_getitem_printed o m).
    unfold discard.
    match goal with
    | |- bind ?c _ _ = _ =>
        assert (Hadd : c m = (Return (n_virtual_sites m),
               virtual_site_added
                 {| vs_atoms := atoms; vs_charge_increments := ci; vs_epsilon := eps;
                    vs_sigma := sig; vs_name := name;
                    vs_geometry := TrivalentLonePairVirtualSite d o i |} m))
    end.
    { unfold _add_trivalent_lone_pair_virtual_site.
      run (atoms_at_of_nat atoms m Hbound).
      run (assert_holds (Nat.eqb (length atoms) 4) m (proj2 (Nat.eqb_eq _ _) Harity)).
      run (checked_in_units_of_same angstrom d m Hd).
      run (checked_in_units_of_same degree i m Hi).
      run (checked_in_units_of_same degree o m Ho).
      apply add_virtual_site_tail_returns. exact Hchecks. }
    run Hadd. reflexivity.
Qed.

Lemma rebuild_atoms name ds_rest :
  forall ds s, rebuilt name ds [] [] s ->
  exists s',
    for_each ds_rest
      (fun ad => discard (_add_atom (ad_atomic_number ad) (ad_formal_charge ad)
                            (ad_is_aromatic ad) (ad_stereochemistry ad)
                            (Some (ad_name ad)))) s
    = (Return tt, s')
    /\ rebuilt name (ds ++ ds_rest) [] [] s'.
Proof.
  induction ds_rest as [|d ds_rest IH]; intros ds s Hs.
  - exists s. rewrite app_nil_r. split; [reflexivity | exact Hs].
  - apply rebuilt_fields in Hs as (Hname & Hatoms & Hvs & Hbs & Hprops & _ & _ & _).
    set (atom := Atom_init (ad_atomic_number d) (ad_formal_charge d) (ad_is_aromatic d)
                   (Some (ad_name d)) (ad_stereochemistry d)).
    destruct (IH (ds ++ [d])
                (_invalidate_cached_properties (set_atoms (mol_atoms s ++ [atom]) s)))
      as (s' & Hloop & Hs').
    + assert (Hd : Atom_to_dict atom = d) by (destruct d; reflexivity).
      pose proof (canonical_add_atom ds [] [] (ad_atomic_number d) (ad_formal_charge d)
                    (ad_is_aromatic d) (ad_stereochemistry d) (Some (ad_name d))
                    (Forall_nil _) (Forall_nil _)) as Hcanon.
      fold atom in Hcanon. rewrite Hd in Hcanon.
      unfold rebuilt, persistent. simpl. rewrite Hname, Hvs, Hbs, Hprops, Hatoms, Hcanon.
      reflexivity.
    + exists s'. rewrite <- app_assoc in Hs'. split; [|exact Hs'].
      simpl. unfold bind at 1. unfold discard, _add_atom. unfold_method. simpl.
      exact Hloop.
Qed.

Lemma rebuild_virtual_sites name ds vs_rest :
  forall vs s, rebuilt name ds vs [] s ->
  Forall (vsite_ok (length ds)) vs_rest ->
  exists s',
    for_each (map VirtualSite_to_dict vs_rest) add_virtual_site_from_dict s
    = (Return tt, s')
    /\ rebuilt name ds (vs ++ vs_rest) [] s'.
Proof.
  induction vs_rest as [|v vs_rest IH]; intros vs s Hs Hok.
  - exists s. rewrite app_nil_r. split; [reflexivity | exact Hs].
  - inversion Hok as [|? ? Hv Hrest]; subst.
    apply rebuilt_fields in Hs as (Hname & Hatoms & Hvs & Hbs & Hprops & _ & _ & Hn).
    rewrite <- Hn in Hv.
    destruct (IH (vs ++ [v]) (virtual_site_added v s)) as (s' & Hloop & Hs').
    + destruct (add_virtual_site_backrefs_fields v (vs_atoms v) s)
        as (Hname' & Hvs' & Hbs' & Hprops' & _).
      unfold rebuilt, persistent, virtual_site_added. simpl.
      rewrite Hname', Hbs', Hprops', Hname, Hvs, Hbs, Hprops.
      rewrite (canonical_add_virtual_site ds vs [] v s Hatoms). reflexivity.
    + exact Hrest.
    + exists s'. rewrite <- app_assoc in Hs'. split; [|exact Hs'].
      simpl. run (add_virtual_site_from_dict_returns v s Hv). exact Hloop.
Qed.

Lemma not_bonded_in_canonical n bs b vs d :
  bond_ok n bs b ->
  existsb (fun bond => Nat.eqb (atom2 b) (atom1 bond) || Nat.eqb (atom2 b) (atom2 bond))
          (atom_bonds (canonical_atom vs bs (atom1 b) d)) = false.
Proof.
  intros (_ & _ & Hneq & Hfresh).
  destruct (existsb _ _) eqn:Hex; [|reflexivity]. exfalso.
  apply existsb_exists in Hex as (c & Hin & Hc). simpl in Hin.
  unfold bonds_of in Hin. apply filter_In in Hin as [Hin Htouch].
  apply (Hfresh c Hin). unfold connects. unfold touches in Htouch.
  apply orb_prop in Htouch. apply orb_prop in Hc.
  destruct Htouch as [H1|H1], Hc as [H2|H2]; apply Nat.eqb_eq in H1, H2.
  - exfalso. apply Hneq. congruence.
  - left. split; congruence.
  - right. split; congruence.
  - exfalso. apply Hneq. congruence.
Qed.

Lemma rebuild_bond name ds vs bs b s :
  rebuilt name ds vs bs s -> bond_ok (length ds) bs b ->
  exists s',
    _add_bond (Z.of_nat (atom1 b)) (Z.of_nat (atom2 b)) (bond_order b)
      (bond_is_aromatic b) (bond_stereochemistry b) (fractional_bond_order b) s
    = (Return (length bs), s')
    /\ rebuilt name ds vs (bs ++ [b]) s'.
Proof.
  intros Hs Hb.
  apply rebuilt_fields in Hs as (Hname & Hatoms & Hvs & Hbs & Hprops & _ & _ & Hn).
  pose proof Hb as (H1 & H2 & Hneq & _).
  assert (Hd : exists d, nth_error ds (atom1 b) = Some d).
  { destruct (nth_error ds (atom1 b)) as [d|] eqn:Hd; [exists d; reflexivity|].
    apply nth_error_None in Hd. lia. }
  destruct Hd as [d Hd].
  eexists. split.
  - unfold _add_bond.
    assert (Hat1 : atom_at (Z.of_nat (atom1 b)) s = (Return (atom1 b), s)).
    { rewrite atom_at_eq, py_position_of_nat; [reflexivity | lia]. }
    assert (Hat2 : atom_at (Z.of_nat (atom2 b)) s = (Return (atom2 b), s)).
    { rewrite atom_at_eq, py_position_of_nat; [reflexivity | lia]. }
    run Hat1. run Hat2. unfold bind at 1. unfold get at 1.
    rewrite Hatoms, nth_error_canonical, Hd. unfold option_map.
    unfold is_bonded_to.
    apply Nat.eqb_neq in Hneq. rewrite Hneq.
    rewrite (not_bonded_in_canonical _ _ _ vs d Hb).
    unfold Bond_init. unfold_method. simpl. f_equal. f_equal. f_equal. exact Hbs.
  - unfold rebuilt, persistent. simpl. rewrite Hname, Hvs, Hbs, Hprops, Hatoms.
    assert (Hrecord : {| atom1 := atom1 b; atom2 := atom2 b; bond_order := bond_order b;
                         bond_is_aromatic := bond_is_aromatic b;
                         fractional_bond_order := fractional_bond_order b;
                         bond_stereochemistry := bond_stereochemistry b |} = b)
      by (destruct b; reflexivity).
    rewrite Hrecord. rewrite (canonical_add_bond ds vs bs b Hneq). reflexivity.
Qed.

Lemma rebuild_bonds name ds vs bs_rest :
  forall bs s, rebuilt name ds vs bs s ->
  bonds_ok (length ds) (bs ++ bs_rest) ->
  exists s',
    for_each (map Bond_to_dict bs_rest)
      (fun bd => discard (_add_bond (bd_atom1 bd) (bd_atom2 bd) (bd_bond_order bd)
                            (bd_is_aromatic bd) (bd_stereochemistry bd)
                            (bd_fractional_bond_order bd))) s
    = (Return tt, s')
    /\ rebuilt name ds vs (bs ++ bs_rest) s'.
Proof.
  induction bs_rest as [|b bs_rest IH]; intros bs s Hs Hok.
  - exists s. rewrite app_nil_r. split; [reflexivity | exact Hs].
  - destruct (bonds_ok_split _ _ _ _ Hok) as [_ Hb].
    destruct (rebuild_bond name ds vs bs b s Hs Hb) as (s1 & Hadd & Hs1).
    destruct (IH (bs ++ [b]) s1 Hs1) as (s' & Hloop & Hs').
    + rewrite <- app_assoc. exact Hok.
    + exists s'. rewrite <- app_assoc in Hs'. split; [|exact Hs'].
      simpl map. cbn [for_each]. unfold discard at 1.
      cbn [Bond_to_dict bd_atom1 bd_atom2 bd_bond_order bd_is_aromatic
           bd_stereochemistry bd_fractional_bond_order].
      unfold bind at 1. unfold bind at 1. rewrite Hadd. exact Hloop.
Qed.

Lemma quantity_eta q u : q_unit q = u -> {| q_value := q_value q; q_unit := u |} = q.
Proof. intros <-. destruct q; reflexivity. Qed.

Lemma deserialize_value u q shp :
  q_unit q = u -> shape (q_value q) = shp ->
  {| q_value := deserialize_numpy (fst (serialize_numpy (value_in_unit u q))) shp;
     q_unit := u |} = q.
Proof.
  intros Hu <-. unfold value_in_unit. rewrite (in_units_of_same u q Hu).
  rewrite deserialize_serialize. apply quantity_eta. exact Hu.
Qed.

Lemma rebuild_charges m s :
  n_atoms s = n_atoms m ->
  (forall q, mol_partial_charges m = Some q ->
     q_unit q = elementary_charge /\ shape (q_value q) = [n_atoms m]) ->
  match md_partial_charges (to_dict m) with
  | None => modify (set_partial_charges None)
  | Some buf =>
      self <- get ;;
      let unitless := deserialize_numpy buf [n_atoms self] in
      pc_unit <- unit_from_dict (md_partial_charges_unit (to_dict m)) ;;
      modify (set_partial_charges (Some {| q_value := unitless; q_unit := pc_unit |}))
  end s
  = (Return tt, set_partial_charges (mol_partial_charges m) s).
Proof.
  intros Hn Hwf. unfold to_dict; simpl.
  destruct (mol_partial_charges m) as [q|]; simpl; [|reflexivity].
  destruct (Hwf q eq_refl) as [Hu Hshape].
  unfold_method. simpl. rewrite Hn, deserialize_value by assumption. reflexivity.
Qed.

Lemma rebuild_conformers rest :
  forall done s,
  mol_conformers s = Some done ->
  Forall (fun c => q_unit c = angstrom /\ shape (q_value c) = [n_atoms s; 3]) rest ->
  for_each (map (fun conf => fst (serialize_numpy (value_in_unit angstrom conf))) rest)
    (fun buf =>
       self <- get ;;
       let unitless := deserialize_numpy buf [n_atoms self; 3] in
       c_unit <- unit_from_dict (Some "angstrom") ;;
       let conformer := {| q_value := unitless; q_unit := c_unit |} in
       modify (fun m =>
         match mol_conformers m with
         | Some confs => set_conformers (Some (confs ++ [conformer])) m
         | None => m
         end)) s
  = (Return tt, set_conformers (Some (done ++ rest)) s).
Proof.
  induction rest as [|c rest IH]; intros done s Hdone Hok.
  - simpl. rewrite app_nil_r. unfold ret. f_equal.
    destruct s; simpl in *; subst; reflexivity.
  - inversion Hok as [|? ? [Hu Hshape] Hrest]; subst.
    cbn [map for_each].
    match goal with
    | |- bind ?step _ _ = _ =>
        assert (Hstep : step s = (Return tt, set_conformers (Some (done ++ [c])) s))
    end.
    { clear IH. unfold_method. simpl.
      rewrite deserialize_value by assumption. rewrite Hdone. reflexivity. }
    run Hstep.
    replace (done ++ c :: rest) with ((done ++ [c]) ++ rest)
      by (rewrite <- app_assoc; reflexivity).
    exact (IH (done ++ [c]) (set_conformers (Some (done ++ [c])) s) eq_refl Hrest).
Qed.

Lemma rebuild_conformers_phase m s :
  n_atoms s = n_atoms m ->
  (forall confs, mol_conformers m = Some confs ->
     Forall (fun c => q_unit c = angstrom /\ shape (q_value c) = [n_atoms m; 3]) confs) ->
  match md_conformers (to_dict m) with
  | None => modify (set_conformers None)
  | Some bufs =>
      modify (set_conformers (Some [])) ;;
      for_each bufs (fun buf =>
        self <- get ;;
        let unitless := deserialize_numpy buf [n_atoms self; 3] in
        c_unit <- unit_from_dict (md_conformers_unit (to_dict m)) ;;
        let conformer := {| q_value := unitless; q_unit := c_unit |} in
        modify (fun m =>
          match mol_conformers m with
          | Some confs => set_conformers (Some (confs ++ [conformer])) m
          | None => m
          end))
  end s
  = (Return tt, set_conformers (mol_conformers m) s).
Proof.
  intros Hn Hwf. unfold to_dict. cbn [md_conformers md_conformers_unit].
  destruct (mol_conformers m) as [confs|]; cbn [option_map]; [|reflexivity].
  unfold bind at 1. unfold modify at 1.
  assert (Hok : Forall (fun c => q_unit c = angstrom
                                 /\ shape (q_value c)
                                    = [n_atoms (set_conformers (Some []) s); 3]) confs).
  { change (n_atoms (set_conformers (Some []) s)) with (n_atoms s). rewrite Hn.
    apply Hwf. reflexivity. }
  exact (rebuild_conformers confs [] (set_conformers (Some []) s) eq_refl Hok).
Qed.

(** [from_dict] gives back what [to_dict] was given. *)
Lemma from_dict_to_dict m :
  well_formed m ->
  exists m', from_dict (to_dict m) = Return m' /\ persistent m' = persistent m.
Proof.
  intros [H1 H2 H3 H4 H5].
  set (name := mol_name m). set (ds := map Atom_to_dict (mol_atoms m)).
  assert (Hds : length ds = n_atoms m) by (unfold ds, n_atoms; apply length_map).
  set (s0 := set_name name (_initialize new_Molecule)).
  assert (Hs0 : rebuilt name [] [] [] s0) by reflexivity.
  destruct (rebuild_atoms name ds [] s0 Hs0) as (s1 & Hrun1 & Hs1).
  simpl app in Hs1.
  destruct (rebuild_virtual_sites name ds (mol_virtual_sites m) [] s1 Hs1)
    as (s2 & Hrun2 & Hs2); [rewrite Hds; exact H3|].
  simpl app in Hs2.
  destruct (rebuild_bonds name ds (mol_virtual_sites m) (mol_bonds m) [] s2 Hs2)
    as (s3 & Hrun3 & Hs3); [rewrite Hds; exact H2|].
  simpl app in Hs3.
  apply rebuilt_fields in Hs3 as (Hname & Hatoms & Hvs & Hbs & Hprops & _ & _ & Hn).
  rewrite Hds in Hn.
  eexists. split.
  - unfold from_dict, _initialize_from_dict.
    run (eq_refl : modify _initialize new_Molecule = (Return tt, _initialize new_Molecule)).
    run (eq_refl : set_name_property (PyStr (md_name (to_dict m))) (_initialize new_Molecule)
                   = (Return tt, s0)).
    run Hrun1. run Hrun2. run Hrun3.
    run (rebuild_charges m s3 Hn H4).
    run (rebuild_conformers_phase m (set_partial_charges (mol_partial_charges m) s3) Hn H5).
    unfold modify. reflexivity.
  - unfold persistent. simpl. rewrite Hname, Hatoms, Hvs, Hbs.
    unfold name, ds. rewrite <- H1. reflexivity.
Qed.


End RoundTrip.

Section RoundTripClaims.
Context {E : Externals} {Eok : ExternalsOk E}.

(** C1. For a molecule [m] built by the calls of a client (atoms, bonds,
    virtual sites, conformers, and optionally partial charges, a name and
    properties), [Molecule.from_dict(m.to_dict())] returns a molecule with
    the same name, the same atoms in the same order (every field, and the
    same bonds and virtual sites attached to each atom), the same bonds,
    the same virtual sites in order, each of the same class, the same
    conformers, the same partial charges ([None] stays [None]) and the same
    properties; its dictionary is the dictionary of [m]. *)
Theorem from_dict_of_to_dict m :
  built m ->
  exists m',
    from_dict (to_dict m) = Return m'
    /\ mol_name m' = mol_name m
    /\ mol_atoms m' = mol_atoms m
    /\ mol_bonds m' = mol_bonds m
    /\ mol_virtual_sites m' = mol_virtual_sites m
    /\ map (fun v => vsite_type (vs_geometry v)) (mol_virtual_sites m')
       = map (fun v => vsite_type (vs_geometry v)) (mol_virtual_sites m)
    /\ mol_conformers m' = mol_conformers m
    /\ mol_partial_charges m' = mol_partial_charges m
    /\ mol_properties m' = mol_properties m
    /\ to_dict m' = to_dict m.
Proof.
  intro Hbuilt. apply built_well_formed in Hbuilt.
  destruct (from_dict_to_dict m Hbuilt) as (m' & Hrun & Hsame).
  exists m'. unfold persistent in Hsame.
  inversion Hsame as [[Hname Hatoms Hvs Hbs Hprops Hpc Hconfs]].
  unfold to_dict. rewrite Hname, Hatoms, Hvs, Hbs, Hprops, Hpc, Hconfs.
  repeat split; try reflexivity. exact Hrun.
Qed.

Lemma to_networkx_same_parts m m' :
  mol_atoms m' = mol_atoms m -> mol_bonds m' = mol_bonds m ->
  to_networkx m' = to_networkx m.
Proof.
  intros Hatoms Hbonds. unfold to_networkx, n_atoms. rewrite Hatoms, Hbonds. reflexivity.
Qed.

Lemma are_isomorphic_same_graph m m' formula flags :
  to_hill_formula m = Return formula ->
  to_hill_formula m' = Return formula ->
  to_networkx m' = to_networkx m ->
  are_isomorphic m m' false flags = Return (true, None)
  /\ are_isomorphic m' m false flags = Return (true, None).
Proof.
  intros Hm Hm' Hgraph. unfold are_isomorphic.
  rewrite Hm, Hm', Hgraph, String.eqb_refl. simpl.
  rewrite nx_is_isomorphic_refl.
  - split; reflexivity.
  - apply node_match_func_refl.
  - apply edge_match_func_refl.
Qed.

(** C8. [are_isomorphic(A, B)] and [are_isomorphic(B, A)] agree for all
    molecules and all matching flags: they give the same boolean whether
    or not an atom map is asked for, and the same result when it is not.
    A built molecule whose atoms are of known elements (so that its Hill
    formula exists) has a deep copy, and is isomorphic to it, in both
    orders, under the default flags. *)
Theorem are_isomorphic_symmetric_and_copy_isomorphic :
  (forall A B return_atom_map flags,
     molecules_are_isomorphic (are_isomorphic A B return_atom_map flags)
     = molecules_are_isomorphic (are_isomorphic B A return_atom_map flags))
  /\ (forall A B flags,
        are_isomorphic A B false flags = are_isomorphic B A false flags)
  /\ (forall m formula,
        built m -> to_hill_formula m = Return formula ->
        exists copy,
          deepcopy m = Return copy
          /\ are_isomorphic m copy false default_flags = Return (true, None)
          /\ are_isomorphic copy m false default_flags = Return (true, None)).
Proof.
  split; [|split].
  - intros A B return_atom_map flags. apply molecules_are_isomorphic_sym.
  - intros A B flags.
    rewrite (are_isomorphic_without_map A B), (are_isomorphic_without_map B A).
    rewrite (molecules_are_isomorphic_sym A B false false flags). reflexivity.
  - intros m formula Hbuilt Hformula. apply built_well_formed in Hbuilt.
    destruct (from_dict_to_dict m Hbuilt) as (copy & Hrun & Hsame).
    exists copy. split; [exact Hrun|].
    unfold persistent in Hsame.
    inversion Hsame as [[Hname Hatoms Hvs Hbs Hprops Hpc Hconfs]].
    apply (are_isomorphic_same_graph m copy formula default_flags Hformula).
    + unfold to_hill_formula. rewrite Hatoms. exact Hformula.
    + apply to_networkx_same_parts; assumption.
Qed.

End RoundTripClaims.

(** C1 at water with a bond-charge site, a conformer, partial charges, a
    name and a property. *)
Lemma from_dict_of_to_dict_witness :
  exists m',
    @from_dict sample_externals (@to_dict sample_externals annotated_water) = Return m'
    /\ mol_atoms m' = mol_atoms annotated_water
    /\ mol_bonds m' = mol_bonds annotated_water
    /\ mol_virtual_sites m' = mol_virtual_sites annotated_water
    /\ mol_conformers m' = mol_conformers annotated_water
    /\ mol_partial_charges m' = mol_partial_charges annotated_water
    /\ mol_properties m' = mol_properties annotated_water.
Proof.
  assert (Hbuilt : @built sample_externals annotated_water).
  { assert (Hcalls : annotated_water =
      (@perform sample_externals (Call_set_property "source" (PyStr "example"))
      (@perform sample_externals (Call_set_name (PyStr "water"))
      (@perform sample_externals (Call_set_partial_charges water_charges)
      (@perform sample_externals (Call_add_conformer water_coordinates)
      (@perform sample_externals
         (Call_add_bond_charge_virtual_site [0; 1]%Z one_angstrom no_kwargs)
      (@perform sample_externals (Call_add_bond 0 2 1 false None None)
      (@perform sample_externals (Call_add_bond 0 1 1 false None None)
      (@perform sample_externals (Call_add_atom 1 0 false None None)
      (@perform sample_externals (Call_add_atom 1 0 false None None)
      (@perform sample_externals (Call_add_atom 8 0 false None None)
         new_Molecule)))))))))))
      by (vm_compute; reflexivity).
    rewrite Hcalls. repeat apply @built_call. apply @built_new. }
  destruct (@from_dict_of_to_dict sample_externals sample_externals_ok
              annotated_water Hbuilt)
    as (m' & Hrun & _ & Hatoms & Hbonds & Hvs & _ & Hconfs & Hpc & Hprops & _).
  exists m'. repeat split; assumption.
Defined.

(** C8 at the same molecule: it has a deep copy and is isomorphic to it. *)
Lemma are_isomorphic_symmetric_and_copy_isomorphic_witness :
  exists copy,
    @deepcopy sample_externals annotated_water = Return copy
    /\ @are_isomorphic sample_externals annotated_water copy false default_flags
       = Return (true, None)
    /\ @are_isomorphic sample_externals copy annotated_water false default_flags
       = Return (true, None).
Proof.
  assert (Hbuilt : @built sample_externals annotated_water).
  { assert (Hcalls : annotated_water =
      (@perform sample_externals (Call_set_property "source" (PyStr "example"))
      (@perform sample_externals (Call_set_name (PyStr "water"))
      (@perform sample_externals (Call_set_partial_charges water_charges)
      (@perform sample_externals (Call_add_conformer water_coordinates)
      (@perform sample_externals
         (Call_add_bond_charge_virtual_site [0; 1]%Z one_angstrom no_kwargs)
      (@perform sample_externals (Call_add_bond 0 2 1 false None None)
      (@perform sample_externals (Call_add_bond 0 1 1 false None None)
      (@perform sample_externals (Call_add_atom 1 0 false None None)
      (@perform sample_externals (Call_add_atom 1 0 false None None)
      (@perform sample_externals (Call_add_atom 8 0 false None None)
         new_Molecule)))))))))))
      by (vm_compute; reflexivity).
    rewrite Hcalls. repeat apply @built_call. apply @built_new. }
  apply (proj2 (proj2 (@are_isomorphic_symmetric_and_copy_isomorphic
                         sample_externals sample_externals_ok))
           annotated_water "H2O" Hbuilt).
  vm_compute. reflexivity.
Defined.

(** The second half of C8 as the specification words it, for every
    molecule, fails at a molecule with an atom that is not of an element:
    the molecule is built by [add_atom(0, 0, False)], its deep copy exists,
    and [are_isomorphic] raises [KeyError] from the Hill formula instead of
    returning [True]. *)
Lemma unknown_element_not_isomorphic_to_copy :
  @built sample_externals unknown_element_atom
  /\ exists copy,
       @deepcopy sample_externals unknown_element_atom = Return copy
       /\ @are_isomorphic sample_externals unknown_element_atom copy false default_flags
          = Raise KeyError
       /\ @are_isomorphic sample_externals unknown_element_atom copy false default_flags
          <> Return (true, None).
Proof.
  split.
  - assert (Hcalls : unknown_element_atom
                     = @perform sample_externals (Call_add_atom 0 0 false None None)
                         new_Molecule)
      by (vm_compute; reflexivity).
    rewrite Hcalls. apply @built_call. apply @built_new.
  - eexists. split; [vm_compute; reflexivity|].
    split; [vm_compute; reflexivity | vm_compute; discriminate].
Qed.

(** * Further properties of the molecule code *)

Lemma bonds_ok_unique n l1 b l2 c l3 :
  bonds_ok n (l1 ++ b :: l2 ++ c :: l3) -> ~ connects (atom1 c) (atom2 c) b.
Proof.
  intro Hok.
  replace (l1 ++ b :: l2 ++ c :: l3) with ((l1 ++ b :: l2) ++ c :: l3) in Hok
    by (rewrite <- app_assoc; reflexivity).
  apply bonds_ok_split in Hok as [_ (_ & _ & _ & Hfresh)].
  apply Hfresh. apply in_or_app. right. left. reflexivity.
Qed.

Lemma well_formed_backrefs m p a :
  well_formed m -> nth_error (mol_atoms m) p = Some a ->
  atom_bonds a = bonds_of p (mol_bonds m)
  /\ atom_virtual_sites a = virtual_sites_of p (mol_virtual_sites m).
Proof.
  intros Hwf Ha. rewrite (wf_backrefs Hwf), nth_error_canonical in Ha.
  destruct (nth_error (map Atom_to_dict (mol_atoms m)) p) as [d|]; [|discriminate].
  simpl in Ha. inversion Ha. split; reflexivity.
Qed.

Section Consistency.
Context {E : Externals}.



End Consistency.

(** ** Bonds of an atom and between two atoms *)

Lemma connects_sym p q b : connects p q b -> connects q p b.
Proof. unfold connects. tauto. Qed.

Lemma bonds_ok_connects_unique n l :
  bonds_ok n l ->
  forall b c p q, In b l -> In c l -> connects p q b -> connects p q c -> b = c.
Proof.
  induction 1 as [|l x Hl IH (_ & _ & _ & Hfresh)]; intros b c p q Hb Hc Hpb Hpc.
  - destruct Hb.
  - apply in_app_or in Hb as [Hb|[<-|[]]]; apply in_app_or in Hc as [Hc|[<-|[]]].
    + eapply IH; eassumption.
    + exfalso. apply (Hfresh b Hb).
      unfold connects in *. intuition congruence.
    + exfalso. apply (Hfresh c Hc).
      unfold connects in *. intuition congruence.
    + reflexivity.
Qed.

(** The test of [is_bonded_to] and of [get_bond_between] on one bond of
    the atom at [p]. *)
Lemma other_end_connects p q b :
  touches p b = true -> atom1 b <> atom2 b ->
  (Nat.eqb q (atom1 b) || Nat.eqb q (atom2 b) = true /\ p <> q <-> connects p q b).
Proof.
  unfold touches, connects. intros Ht Hneq.
  apply orb_prop in Ht. rewrite orb_true_iff, !Nat.eqb_eq.
  rewrite !Nat.eqb_eq in Ht. split.
  - intuition congruence.
  - intuition congruence.
Qed.

Lemma lookup_test_connects p q b :
  touches p b = true -> atom1 b <> atom2 b ->
  (existsb (fun atom => negb (Nat.eqb atom p) && Nat.eqb atom q) [atom1 b; atom2 b] = true
   <-> connects p q b).
Proof.
  unfold touches, connects. intros Ht Hneq. simpl.
  rewrite orb_false_r, orb_true_iff, !andb_true_iff, !negb_true_iff, !Nat.eqb_neq, !Nat.eqb_eq.
  apply orb_prop in Ht. rewrite !Nat.eqb_eq in Ht.
  split.
  - intuition congruence.
  - intuition congruence.
Qed.

Section Lookups.
Context {E : Externals}.

Lemma find_bond_spec m p q :
  well_formed m ->
  forall b,
    find (fun bond => existsb (fun atom => negb (Nat.eqb atom p) && Nat.eqb atom q)
                              [atom1 bond; atom2 bond])
         (bonds_of p (mol_bonds m)) = Some b
    <-> In b (mol_bonds m) /\ connects p q b.
Proof.
  intros Hwf b. split.
  - intro Hfind. apply find_some in Hfind as [Hin Htest].
    apply filter_In in Hin as [Hin Htouch]. split; [exact Hin|].
    apply lookup_test_connects; try assumption.
    eapply bonds_ok_distinct; [apply (wf_bonds Hwf) | exact Hin].
  - intros [Hin Hconn].
    assert (Htouch : touches p b = true).
    { unfold touches. destruct Hconn as [[-> _]|[_ ->]];
        rewrite Nat.eqb_refl; auto using orb_true_r. }
    assert (Hneq : atom1 b <> atom2 b)
      by (eapply bonds_ok_distinct; [apply (wf_bonds Hwf) | exact Hin]).
    destruct (find _ (bonds_of p (mol_bonds m))) as [c|] eqn:Hfind.
    + apply find_some in Hfind as [Hc Htest].
      apply filter_In in Hc as [Hc Hctouch].
      apply lookup_test_connects in Htest; try assumption.
      * f_equal. symmetry.
        eapply (bonds_ok_connects_unique _ _ (wf_bonds Hwf)); eassumption.
      * eapply bonds_ok_distinct; [apply (wf_bonds Hwf) | exact Hc].
    + exfalso.
      pose proof (find_none _ _ Hfind b) as Hnone.
      assert (Hb : In b (bonds_of p (mol_bonds m)))
        by (apply filter_In; split; assumption).
      specialize (Hnone Hb).
      apply (lookup_test_connects p q b Htouch Hneq) in Hconn. congruence.
Qed.

Lemma existsb_bonded m p q :
  well_formed m -> p <> q ->
  (existsb (fun bond => Nat.eqb q (atom1 bond) || Nat.eqb q (atom2 bond))
           (bonds_of p (mol_bonds m)) = true
   <-> bonded m p q).
Proof.
  intros Hwf Hpq. rewrite existsb_exists. unfold bonded. split.
  - intros (b & Hin & Htest). apply filter_In in Hin as [Hin Htouch].
    exists b. split; [exact Hin|].
    apply other_end_connects; try assumption.
    + eapply bonds_ok_distinct; [apply (wf_bonds Hwf) | exact Hin].
    + split; assumption.
  - intros (b & Hin & Hconn).
    assert (Htouch : touches p b = true).
    { unfold touches. destruct Hconn as [[-> _]|[_ ->]];
        rewrite Nat.eqb_refl; auto using orb_true_r. }
    exists b. split; [apply filter_In; split; assumption|].
    apply (other_end_connects p q b Htouch); [|exact Hconn].
    eapply bonds_ok_distinct; [apply (wf_bonds Hwf) | exact Hin].
Qed.

Lemma bonded_sym m p q : bonded m p q -> bonded m q p.
Proof.
  intros (b & Hin & Hconn). exists b. split; [exact Hin | apply connects_sym; exact Hconn].
Qed.

Lemma bonded_distinct m p q : well_formed m -> bonded m p q -> p <> q.
Proof.
  intros Hwf (b & Hin & Hconn).
  pose proof (bonds_ok_distinct _ _ _ (wf_bonds Hwf) Hin).
  unfold connects in Hconn. intuition congruence.
Qed.



End Lookups.

Lemma map_update_nth_invariant {A B} (g : A -> B) (f : A -> A) p l :
  (forall x, g (f x) = g x) -> map g (update_nth p f l) = map g l.
Proof.
  intro H. revert p. induction l as [|x l IH]; intros [|p]; simpl; try reflexivity.
  - rewrite H. reflexivity.
  - rewrite IH. reflexivity.
Qed.

Section AddBond.
Context {E : Externals}.

Lemma get_bond_between_well_formed m i j p q :
  well_formed m ->
  py_position (n_atoms m) i = Some p ->
  py_position (n_atoms m) j = Some q ->
  get_bond_between m i j
  = match find (fun bond =>
                  existsb (fun atom => negb (Nat.eqb atom p) && Nat.eqb atom q)
                          [atom1 bond; atom2 bond])
               (bonds_of p (mol_bonds m)) with
    | Some bond => FoundBond bond
    | None => LookupNotBondedError
    end.
Proof.
  intros Hwf Hp Hq. unfold get_bond_between. rewrite Hp, Hq.
  pose proof (py_position_bound _ _ _ Hp) as Hbound.
  destruct (nth_error (mol_atoms m) p) as [a|] eqn:Ha;
    [|apply nth_error_None in Ha; unfold n_atoms in Hbound; lia].
  destruct (well_formed_backrefs m p a Hwf Ha) as [-> _]. reflexivity.
Qed.

Lemma get_bond_between_found m i j p q b :
  well_formed m ->
  py_position (n_atoms m) i = Some p ->
  py_position (n_atoms m) j = Some q ->
  In b (mol_bonds m) -> connects p q b ->
  get_bond_between m i j = FoundBond b.
Proof.
  intros Hwf Hp Hq Hin Hconn.
  rewrite (get_bond_between_well_formed m i j p q Hwf Hp Hq).
  rewrite (proj2 (find_bond_spec m p q Hwf b) (conj Hin Hconn)). reflexivity.
Qed.

(** [_add_bond] between two different atoms that no bond joins. *)
Lemma _add_bond_returns i j p q order ar st fr m :
  well_formed m ->
  py_position (n_atoms m) i = Some p ->
  py_position (n_atoms m) j = Some q ->
  p <> q -> ~ bonded m p q ->
  _add_bond i j order ar st fr m
  = (Return (length (mol_bonds m)),
     _invalidate_cached_properties
       (set_bonds
          (mol_bonds m ++ [{| atom1 := p; atom2 := q; bond_order := order;
                              bond_is_aromatic := ar; fractional_bond_order := fr;
                              bond_stereochemistry := st |}])
          (set_atoms
             (update_nth q
                (Atom_add_bond {| atom1 := p; atom2 := q; bond_order := order;
                                  bond_is_aromatic := ar; fractional_bond_order := fr;
                                  bond_stereochemistry := st |})
                (update_nth p
                   (Atom_add_bond {| atom1 := p; atom2 := q; bond_order := order;
                                     bond_is_aromatic := ar; fractional_bond_order := fr;
                                     bond_stereochemistry := st |})
                   (mol_atoms m))) m))).
Proof.
  intros Hwf Hp Hq Hpq Hfree.
  destruct (_add_bond_cases i j order ar st fr m)
    as [[e He] | (p1 & p2 & a & Hp1 & Hp2 & _ & _ & _ & Heq)].
  - exfalso. unfold _add_bond in He. unfold_method.
    rewrite atom_at_eq, Hp in He. simpl in He. rewrite atom_at_eq, Hq in He. simpl in He.
    pose proof (py_position_bound _ _ _ Hp) as Hbound.
    destruct (nth_error (mol_atoms m) p) as [a|] eqn:Ha;
      [|apply nth_error_None in Ha; unfold n_atoms in Hbound; lia].
    unfold is_bonded_to in He.
    destruct (well_formed_backrefs m p a Hwf Ha) as [Hbonds _]. rewrite Hbonds in He.
    pose proof (existsb_bonded m p q Hwf Hpq) as Hiff.
    destruct (existsb _ (bonds_of p (mol_bonds m))).
    + apply Hfree. apply Hiff. reflexivity.
    + apply Nat.eqb_neq in Hpq. rewrite Hpq in He. discriminate.
  - rewrite Hp in Hp1. rewrite Hq in Hp2. inversion Hp1; inversion Hp2; subst p1 p2.
    exact Heq.
Qed.


End AddBond.

(** ** The graph of a built molecule *)

Lemma same_edge_connects u v e :
  same_edge u v e = true <-> (fst (fst e) = u /\ snd (fst e) = v) \/ (fst (fst e) = v /\ snd (fst e) = u).
Proof.
  destruct e as [[a b] x]. simpl.
  rewrite orb_true_iff, !andb_true_iff, !Nat.eqb_eq. tauto.
Qed.

Lemma edges_add_edges n bs_rest :
  forall bs G,
    edges G = map bond_edge bs ->
    bonds_ok n (bs ++ bs_rest) ->
    edges (fold_left
             (fun G bond => add_edge (atom1 bond) (atom2 bond) (bond_edge_attrs bond) G)
             bs_rest G)
    = map bond_edge (bs ++ bs_rest).
Proof.
  induction bs_rest as [|b bs_rest IH]; intros bs G HG Hok; simpl.
  - rewrite app_nil_r. exact HG.
  - destruct (bonds_ok_split _ _ _ _ Hok) as [_ (_ & _ & _ & Hfresh)].
    replace (bs ++ b :: bs_rest) with ((bs ++ [b]) ++ bs_rest)
      by (rewrite <- app_assoc; reflexivity).
    apply IH.
    + unfold add_edge. simpl.
      assert (Hnone : existsb (same_edge (atom1 b) (atom2 b)) (edges G) = false).
      { destruct (existsb _ _) eqn:Hex; [|reflexivity]. exfalso.
        apply existsb_exists in Hex as (e & He & Hsame).
        rewrite HG in He. apply in_map_iff in He as (c & <- & Hc).
        apply same_edge_connects in Hsame. simpl in Hsame.
        apply (Hfresh c Hc). unfold connects. tauto. }
      rewrite Hnone, HG, map_app. reflexivity.
    + rewrite <- app_assoc. exact Hok.
Qed.

Lemma edges_add_nodes ias G :
  edges (fold_left (fun G ia => add_node (fst ia) (atom_node_attrs (snd ia)) G) ias G)
  = edges G.
Proof.
  revert G. induction ias as [|ia ias IH]; intro G; simpl; [reflexivity|].
  rewrite IH. reflexivity.
Qed.

Section Graph.
Context {E : Externals}.


End Graph.

(** ** Atom names *)

Lemma set_mem_string_iff y s : set_mem String.eqb y s = true <-> In y s.
Proof.
  unfold set_mem. rewrite existsb_exists. split.
  - intros (z & Hz & Heq). apply String.eqb_eq in Heq. subst. exact Hz.
  - intro Hy. exists y. split; [exact Hy | apply String.eqb_refl].
Qed.

(** The size of [set(s) | set(l)] for a list [s] without duplicates. *)
Lemma length_set_union_names (l : list string) :
  forall s,
    length (set_union String.eqb s l) <= length s + length l
    /\ (length (set_union String.eqb s l) = length s + length l
        <-> NoDup l /\ forall x, In x l -> ~ In x s).
Proof.
  unfold set_union.
  induction l as [|y l IH]; intros s; simpl.
  - split; [lia|]. split; [intros _; split; [constructor | intros x []] | intros _; lia].
  - pose proof (set_mem_string_iff y s) as Hmem.
    change (set_add String.eqb y s) with (if set_mem String.eqb y s then s else s ++ [y]).
    destruct (set_mem String.eqb y s) eqn:Hy.
    + assert (Hys : In y s) by (apply Hmem; reflexivity).
      destruct (IH s) as (Hle & Hlen).
      split; [lia|]. split.
      * intro H. lia.
      * intros [_ Hfresh]. exfalso. apply (Hfresh y); [left; reflexivity | exact Hys].
    + assert (Hnot : ~ In y s) by (intro H; apply Hmem in H; discriminate).
      destruct (IH (s ++ [y])) as (Hle & Hlen).
      rewrite length_app in Hlen, Hle. simpl in Hlen, Hle.
      split; [lia|]. split.
      * intro H.
        assert (H' : length (fold_left (fun acc x => set_add String.eqb x acc) l (s ++ [y]))
                     = length s + 1 + length l) by lia.
        apply Hlen in H' as [Hl Hfresh]. split.
        -- constructor; [|exact Hl]. intro Hyl. apply (Hfresh y Hyl).
           apply in_or_app. right. left. reflexivity.
        -- intros x [<-|Hx]; [exact Hnot|]. intro Hxs. apply (Hfresh x Hx).
           apply in_or_app. left. exact Hxs.
      * intros [Hl Hfresh]. inversion Hl as [|? ? Hyl Hl']; subst.
        assert (H' : length (fold_left (fun acc x => set_add String.eqb x acc) l (s ++ [y]))
                     = length s + 1 + length l).
        { apply Hlen. split; [exact Hl'|]. intros x Hx Hxs.
          apply in_app_or in Hxs as [Hxs|[<-|[]]].
          - apply (Hfresh x); [right; exact Hx | exact Hxs].
          - contradiction. }
        lia.
Qed.


(** * Further properties of the toolkit registry *)

Section RegistrationFacts.
Variables args result pyexception exception_class : Type.
Variable instance_of : pyexception -> exception_class -> bool.
Variable wrapper_class : Type.
Variable class_eqb : wrapper_class -> wrapper_class -> bool.
Variable type_of : ToolkitWrapper args result pyexception -> wrapper_class.
Variable instantiate : wrapper_class -> option (ToolkitWrapper args result pyexception).
Variable same_object :
  ToolkitWrapper args result pyexception -> ToolkitWrapper args result pyexception -> bool.

Abbreviation Wrapper' := (ToolkitWrapper args result pyexception).
Abbreviation Registry' := (ToolkitRegistry args result pyexception).

(** [resolve] and [call] look for the same wrapper. *)
Lemma resolve_first_provider (toolkits : list Wrapper') name :
  match resolve {| _toolkits := toolkits |} name with
  | Some f =>
      exists pre W post,
        toolkits = pre ++ W :: post
        /\ (forall W', In W' pre -> hasattr W' name = false)
        /\ getattr W name = Some f
  | None => forall W, In W toolkits -> hasattr W name = false
  end.
Proof.
  unfold resolve. simpl.
  induction toolkits as [|W rest IH]; simpl.
  - intros W [].
  - unfold hasattr at 1. destruct (getattr W name) as [f|] eqn:Hf.
    + rewrite Hf. exists [], W, rest.
      split; [reflexivity|]. split; [intros W' [] | exact Hf].
    + destruct (find _ rest) as [W0|] eqn:Hfind.
      * destruct (getattr W0 name) as [f|] eqn:Hf0.
        -- destruct IH as (pre & W1 & post & -> & Hpre & HW1).
           exists (W :: pre), W1, post. repeat split; [|exact HW1].
           intros W' [<-|HW']; [unfold hasattr; rewrite Hf; reflexivity | apply Hpre; exact HW'].
        -- intros W' [<-|HW']; [unfold hasattr; rewrite Hf; reflexivity | apply IH; exact HW'].
      * intros W' [<-|HW']; [unfold hasattr; rewrite Hf; reflexivity | apply IH; exact HW'].
Qed.


(** *** Registration *)

Lemma register_all_keep_going (precedence : list (wrapper_class + Wrapper')) :
  forall registry,
    register_all instantiate registry precedence false
    = Registered
        {| _toolkits :=
             _toolkits registry
             ++ flat_map (fun t => match t with
                                   | inl cls => match instantiate cls with
                                                | Some W => [W]
                                                | None => []
                                                end
                                   | inr W => [W]
                                   end) precedence |}.
Proof.
  induction precedence as [|t rest IH]; intro registry; simpl.
  - rewrite app_nil_r. destruct registry; reflexivity.
  - destruct t as [cls|W]; simpl.
    + destruct (instantiate cls) as [W|]; simpl.
      * rewrite IH. simpl. rewrite <- app_assoc. reflexivity.
      * apply IH.
    + rewrite IH. simpl. rewrite <- app_assoc. reflexivity.
Qed.

Lemma register_all_strict (precedence : list (wrapper_class + Wrapper')) :
  forall registry,
    match register_all instantiate registry precedence true with
    | Registered registry' =>
        exists Ws,
          Forall2 (fun t W => match t with
                              | inl cls => instantiate cls = Some W
                              | inr W' => W' = W
                              end) precedence Ws
          /\ _toolkits registry' = _toolkits registry ++ Ws
    | RaisedToolkitUnavailable =>
        exists cls, In (inl cls) precedence /\ instantiate cls = None
    end.
Proof.
  induction precedence as [|t rest IH]; intro registry; simpl.
  - exists []. split; [constructor | rewrite app_nil_r; reflexivity].
  - destruct t as [cls|W]; simpl.
    + destruct (instantiate cls) as [W|] eqn:HW.
      * specialize (IH {| _toolkits := _toolkits registry ++ [W] |}).
        destruct (register_all _ _ rest true) as [registry'|].
        -- destruct IH as (Ws & HF & Heq). exists (W :: Ws). split.
           ++ constructor; assumption.
           ++ rewrite Heq. simpl. rewrite <- app_assoc. reflexivity.
        -- destruct IH as (cls' & Hin & Hnone). exists cls'. split; [right|]; assumption.
      * exists cls. split; [left; reflexivity | exact HW].
    + specialize (IH {| _toolkits := _toolkits registry ++ [W] |}).
      destruct (register_all _ _ rest true) as [registry'|].
      * destruct IH as (Ws & HF & Heq). exists (W :: Ws). split.
        -- constructor; [reflexivity | assumption].
        -- rewrite Heq. simpl. rewrite <- app_assoc. reflexivity.
      * destruct IH as (cls' & Hin & Hnone). exists cls'. split; [right|]; assumption.
Qed.


(** *** Deregistration *)

Hypothesis same_object_refl : forall W, same_object W W = true.
Hypothesis same_object_type :
  forall W W', same_object W W' = true -> type_of W = type_of W'.

Lemma list_remove_head W l : list_remove same_object W (W :: l) = l.
Proof. simpl. rewrite same_object_refl. reflexivity. Qed.

Lemma fold_list_remove_other (P : Wrapper' -> bool) W :
  P W = false ->
  (forall X Y, same_object X Y = true -> P X = P Y) ->
  forall removed l,
    Forall (fun X => P X = true) removed ->
    fold_left (fun toolkits X => list_remove same_object X toolkits) removed (W :: l)
    = W :: fold_left (fun toolkits X => list_remove same_object X toolkits) removed l.
Proof.
  intros HW Hcompat removed. induction removed as [|X removed IH]; intros l Hall; simpl.
  - reflexivity.
  - inversion Hall as [|? ? HX Hrest]; subst.
    destruct (same_object W X) eqn:Hsame.
    + apply Hcompat in Hsame. congruence.
    + apply IH. exact Hrest.
Qed.

Lemma fold_list_remove_filter (P : Wrapper' -> bool) :
  (forall X Y, same_object X Y = true -> P X = P Y) ->
  forall l,
    fold_left (fun toolkits X => list_remove same_object X toolkits) (filter P l) l
    = filter (fun X => negb (P X)) l.
Proof.
  intros Hcompat. induction l as [|W l IH]; simpl; [reflexivity|].
  destruct (P W) eqn:HW; simpl.
  - rewrite same_object_refl. exact IH.
  - rewrite (fold_list_remove_other P W HW Hcompat).
    + rewrite IH. reflexivity.
    + apply Forall_forall. intros X HX. apply filter_In in HX. apply HX.
Qed.


End RegistrationFacts.

(** * The further properties at concrete molecules and registries *)

Lemma built_water : @built sample_externals water.
Proof.
  assert (Hcalls : water
                   = @perform sample_externals (Call_add_bond 0 2 1 false None None)
                       (@perform sample_externals (Call_add_bond 0 1 1 false None None)
                          (@perform sample_externals (Call_add_atom 1 0 false None None)
                             (@perform sample_externals (Call_add_atom 1 0 false None None)
                                (@perform sample_externals (Call_add_atom 8 0 false None None)
                                   new_Molecule)))))
    by (vm_compute; reflexivity).
  rewrite Hcalls. repeat apply @built_call. apply @built_new.
Qed.

Lemma built_annotated_water : @built sample_externals annotated_water.
Proof.
  unfold annotated_water. repeat apply @built_call. apply built_water.
Qed.







